(** * SubLSTM cells: a shallow embedding of [subLSTM/torchscript/cell.py]

    The five [nn.Module] classes of the file are single-step recurrent
    cells.  Their [forward] methods are straight-line tensor programs over
    the host engine ([torch.mm], broadcasting [+], [*], [-], [sigmoid],
    [tanh], [chunk], [nn.LayerNorm]).  The engine's scalar arithmetic is kept
    abstract in a type class, so that every structural theorem holds for any
    interpretation of the scalars; the numeric bounds are proved for the
    real numbers with every operation rounded to a floating-point format. *)

From Stdlib Require Import List Arith ZArith Lia Bool Reals Lra.
Import ListNotations.

Set Implicit Arguments.

(** ** Failures *)

(** The exceptions a [forward] call can end with. *)
Inductive Error : Type :=
| RuntimeError   (* the engine's dimension-mismatch failure *)
| ValueError     (* unpacking a tuple of the wrong length *)
| TypeError.     (* calling an object that is not callable *)

Inductive result (A : Type) : Type :=
| Ok (a : A)
| Err (e : Error).
Arguments Ok {A} a.
Arguments Err {A} e.

Definition bind {A B : Type} (r : result A) (k : A -> result B) : result B :=
  match r with
  | Ok a => k a
  | Err e => Err e
  end.

Notation "x <- r ;; k" := (bind r (fun x => k))
  (at level 61, r at next level, right associativity).
Notation "' pat <- r ;; k" := (bind r (fun x => match x with pat => k end))
  (at level 61, pat pattern, r at next level, right associativity).

Definition is_ok {A : Type} (r : result A) : bool :=
  match r with Ok _ => true | Err _ => false end.

(** ** The host engine's scalars *)

Class Engine (F : Type) : Type := {
  s_zero : F;
  s_add : F -> F -> F;
  s_sub : F -> F -> F;
  s_mul : F -> F -> F;
  s_div : F -> F -> F;
  s_sqrt : F -> F;
  s_sigmoid : F -> F;
  s_tanh : F -> F;
  s_of_nat : nat -> F
}.

Section Tensors.

Context {F : Type} {E : Engine F}.

(** ** Tensors

    Rank-one tensors (biases, the fixed forget gate, LayerNorm's scale and
    shift) are lists; rank-two tensors carry their two sizes, so that a
    tensor with no row still has a width. *)

Definition Vector : Type := list F.

Record Matrix : Type := mkMatrix {
  nrows : nat;
  ncols : nat;
  rows : list (list F)
}.

(** [m.size() == (r, c)] for a dense, well-formed tensor. *)
Definition has_shape (m : Matrix) (r c : nat) : Prop :=
  nrows m = r /\ ncols m = c /\
  length (rows m) = r /\ Forall (fun row => length row = c) (rows m).

Definition get (m : Matrix) (i j : nat) : F :=
  nth j (nth i (rows m) []) s_zero.

Definition vget (v : Vector) (j : nat) : F := nth j v s_zero.

(** The tensor of sizes [r], [c] whose entry [(i, j)] is [f i j]. *)
Definition tabulate (r c : nat) (f : nat -> nat -> F) : Matrix :=
  {| nrows := r; ncols := c;
     rows := map (fun i => map (fun j => f i j) (seq 0 c)) (seq 0 r) |}.

(** A rank-one tensor seen as one row, the way broadcasting aligns it. *)
Definition of_vector (v : Vector) : Matrix :=
  {| nrows := 1; ncols := length v; rows := [v] |}.

(** [Tensor.t()] *)
Definition t (m : Matrix) : Matrix :=
  tabulate (ncols m) (nrows m) (fun i j => get m j i).

(** The reduction of [torch.mm]: products accumulated from zero, in the
    order of the index.  No law of the scalar operations is used below, so
    any other fixed order would do.  The engine chooses its kernel, and with
    it the order of the accumulation, by the shapes of the operands: nothing
    below compares products of operands of different shapes. *)
Definition dot (n : nat) (f g : nat -> F) : F :=
  fold_left (fun acc k => s_add acc (s_mul (f k) (g k))) (seq 0 n) s_zero.

(** [torch.mm(a, b)] *)
Definition mm (a b : Matrix) : result Matrix :=
  if ncols a =? nrows b
  then Ok (tabulate (nrows a) (ncols b)
             (fun i j => dot (ncols a) (fun k => get a i k) (fun k => get b k j)))
  else Err RuntimeError.

(** Broadcasting of one dimension: equal sizes, or one of them is 1. *)
Definition broadcast_dim (a b : nat) : result nat :=
  if a =? b then Ok a
  else if a =? 1 then Ok b
  else if b =? 1 then Ok a
  else Err RuntimeError.

(** The index read in a dimension of size [d] for the output index [i]. *)
Definition bidx (d i : nat) : nat := if d =? 1 then 0 else i.

(** An elementwise binary operation with broadcasting. *)
Definition broadcast2 (op : F -> F -> F) (a b : Matrix) : result Matrix :=
  r <- broadcast_dim (nrows a) (nrows b);;
  c <- broadcast_dim (ncols a) (ncols b);;
  Ok (tabulate r c
        (fun i j => op (get a (bidx (nrows a) i) (bidx (ncols a) j))
                       (get b (bidx (nrows b) i) (bidx (ncols b) j)))).

Definition madd : Matrix -> Matrix -> result Matrix := broadcast2 s_add.
Definition msub : Matrix -> Matrix -> result Matrix := broadcast2 s_sub.
Definition mmul : Matrix -> Matrix -> result Matrix := broadcast2 s_mul.

(** [m + v] with [v] of rank one. *)
Definition madd_v (m : Matrix) (v : Vector) : result Matrix :=
  madd m (of_vector v).

(** [v * m] with [v] of rank one. *)
Definition vmul_m (v : Vector) (m : Matrix) : result Matrix :=
  mmul (of_vector v) m.

Definition map_matrix (f : F -> F) (m : Matrix) : Matrix :=
  tabulate (nrows m) (ncols m) (fun i j => f (get m i j)).

Definition msigmoid : Matrix -> Matrix := map_matrix s_sigmoid.
Definition mtanh : Matrix -> Matrix := map_matrix s_tanh.
Definition vsigmoid (v : Vector) : Vector := map s_sigmoid v.

(** [Tensor.narrow(1, start, len)] *)
Definition narrow (m : Matrix) (start len : nat) : Matrix :=
  tabulate (nrows m) len (fun i j => get m i (start + j)).

(** [Tensor.chunk(chunks, 1)]: pieces of [ceil (d / chunks)] columns, the
    last one shorter when the width is not a multiple, fewer pieces than
    asked when the width runs out, and [chunks] empty pieces for an empty
    width. *)
Definition chunk (m : Matrix) (chunks : nat) : list Matrix :=
  let d := ncols m in
  let split_size := (d + chunks - 1) / chunks in
  if split_size =? 0
  then repeat (narrow m 0 0) chunks
  else
    let num := Nat.max ((d + split_size - 1) / split_size) 1 in
    map (fun k => narrow m (k * split_size)
                    (if S k =? num then d - k * split_size else split_size))
        (seq 0 num).

(** [a, b, c, d = xs] *)
Definition unpack4 {A : Type} (xs : list A) : result (A * A * A * A) :=
  match xs with
  | [a; b; c; d] => Ok (a, b, c, d)
  | _ => Err ValueError
  end.

(** [a, b, c = xs] *)
Definition unpack3 {A : Type} (xs : list A) : result (A * A * A) :=
  match xs with
  | [a; b; c] => Ok (a, b, c)
  | _ => Err ValueError
  end.

(** ** [nn.LayerNorm] *)

Record LayerNorm : Type := mkLayerNorm {
  normalized_shape : nat;
  ln_weight : Vector;
  ln_bias : Vector;
  ln_eps : F
}.

(** What [nn.LayerNorm(n)] allocates: scale and shift of [n] entries. *)
Definition LayerNorm_initialized (ln : LayerNorm) (n : nat) : Prop :=
  normalized_shape ln = n /\ length (ln_weight ln) = n /\ length (ln_bias ln) = n.

Definition row_sum (n : nat) (f : nat -> F) : F :=
  fold_left (fun acc k => s_add acc (f k)) (seq 0 n) s_zero.

Definition mean (n : nat) (f : nat -> F) : F :=
  s_div (row_sum n f) (s_of_nat n).

(** The biased variance of a row. *)
Definition variance (n : nat) (f : nat -> F) : F :=
  let mu := mean n f in
  mean n (fun k => s_mul (s_sub (f k) mu) (s_sub (f k) mu)).

(** One entry of the normalised row: standardise over the feature axis,
    then scale and shift. *)
Definition layer_norm_entry (ln : LayerNorm) (n : nat) (f : nat -> F) (j : nat) : F :=
  s_add
    (s_mul (s_div (s_sub (f j) (mean n f))
                  (s_sqrt (s_add (variance n f) (ln_eps ln))))
           (vget (ln_weight ln) j))
    (vget (ln_bias ln) j).

(** [LayerNorm.forward(x)]: the last size must be [normalized_shape]. *)
Definition LayerNorm_forward (ln : LayerNorm) (x : Matrix) : result Matrix :=
  if ncols x =? normalized_shape ln
  then Ok (tabulate (nrows x) (ncols x)
             (fun i j => layer_norm_entry ln (ncols x) (fun k => get x i k) j))
  else Err RuntimeError.

(** [x(args)] for a tensor [x]: a tensor is not callable. *)
Definition call_tensor {A B : Type} (callee : Matrix) (args : A) : result B :=
  Err TypeError.

End Tensors.

Arguments Vector F : clear implicits.
Arguments Matrix F : clear implicits.
Arguments LayerNorm F : clear implicits.

(** ** Tensors as objects

    A [forward] receives references to tensors, and every operation of the
    engine it calls allocates the tensor it returns.  The store is the list
    of the tensors allocated so far; a reference is a position in it.  No
    statement of the five [forward] methods assigns to a tensor or calls an
    in-place operation, so the operations below read and allocate only.  A
    reference that holds no tensor of the rank an operation expects is
    refused. *)

Section Objects.
Context {F : Type} {E : Engine F}.

Inductive Obj : Type :=
| OMatrix (m : Matrix F)
| OVector (v : Vector F).

Definition Store : Type := list Obj.

Definition Run (A : Type) : Type := Store -> Store * result A.

Definition run_ret {A : Type} (a : A) : Run A := fun s => (s, Ok a).

Definition run_bind {A B : Type} (m : Run A) (k : A -> Run B) : Run B :=
  fun s =>
    match m s with
    | (s1, Ok a) => k a s1
    | (s1, Err e) => (s1, Err e)
    end.

Definition lift {A : Type} (r : result A) : Run A := fun s => (s, r).

Definition alloc (o : Obj) : Run nat := fun s => (s ++ [o], Ok (length s)).

Definition read_matrix (r : nat) : Run (Matrix F) :=
  fun s =>
    (s, match nth_error s r with
        | Some (OMatrix m) => Ok m
        | _ => Err RuntimeError
        end).

Definition read_vector (r : nat) : Run (Vector F) :=
  fun s =>
    (s, match nth_error s r with
        | Some (OVector v) => Ok v
        | _ => Err RuntimeError
        end).

End Objects.

Arguments Obj F : clear implicits.
Arguments Store F : clear implicits.
Arguments Run F A : clear implicits.

Notation "x <~ m ;; k" := (run_bind m (fun x => k))
  (at level 61, m at next level, right associativity).
Notation "' pat <~ m ;; k" :=
  (run_bind m (fun x => match x with pat => k end))
  (at level 61, pat pattern, m at next level, right associativity).

Section ObjectOperations.
Context {F : Type} {E : Engine F}.

(** An operation on one tensor, and on two. *)
Definition unary_st (f : Matrix F -> Matrix F) (a : nat) : Run F nat :=
  A <~ read_matrix a;;
  alloc (OMatrix (f A)).

Definition binary_st (f : Matrix F -> Matrix F -> result (Matrix F))
  (a b : nat) : Run F nat :=
  A <~ read_matrix a;;
  B <~ read_matrix b;;
  C <~ lift (f A B);;
  alloc (OMatrix C).

Definition t_st : nat -> Run F nat := unary_st t.
Definition msigmoid_st : nat -> Run F nat := unary_st msigmoid.
Definition mtanh_st : nat -> Run F nat := unary_st mtanh.
Definition mm_st : nat -> nat -> Run F nat := binary_st mm.
Definition madd_st : nat -> nat -> Run F nat := binary_st madd.
Definition msub_st : nat -> nat -> Run F nat := binary_st msub.
Definition mmul_st : nat -> nat -> Run F nat := binary_st mmul.

Definition madd_v_st (a v : nat) : Run F nat :=
  A <~ read_matrix a;;
  V <~ read_vector v;;
  C <~ lift (madd_v A V);;
  alloc (OMatrix C).

Definition vmul_m_st (v a : nat) : Run F nat :=
  V <~ read_vector v;;
  A <~ read_matrix a;;
  C <~ lift (vmul_m V A);;
  alloc (OMatrix C).

Definition vsigmoid_st (v : nat) : Run F nat :=
  V <~ read_vector v;;
  alloc (OVector (vsigmoid V)).

Fixpoint alloc_all (os : list (Obj F)) : Run F (list nat) :=
  match os with
  | [] => run_ret []
  | o :: os' =>
      r <~ alloc o;;
      rs <~ alloc_all os';;
      run_ret (r :: rs)
  end.

Definition chunk_st (a : nat) (chunks : nat) : Run F (list nat) :=
  A <~ read_matrix a;;
  alloc_all (map OMatrix (chunk A chunks)).

(** A [LayerNorm] module with its scale and shift in the store. *)
Record LayerNormObj : Type := mkLayerNormObj {
  normalized_shape_of : nat;
  weight_at : nat;
  bias_at : nat;
  eps_of : F
}.

Definition LayerNorm_forward_st (ln : LayerNormObj) (x : nat) : Run F nat :=
  X <~ read_matrix x;;
  W <~ read_vector (weight_at ln);;
  Bv <~ read_vector (bias_at ln);;
  C <~ lift (LayerNorm_forward
               (mkLayerNorm (normalized_shape_of ln) W Bv (eps_of ln)) X);;
  alloc (OMatrix C).

Definition call_tensor_st {A B : Type} (callee : nat) (args : A) : Run F B :=
  _ <~ read_matrix callee;;
  lift (Err TypeError).

(** What the store holds at a reference. *)
Definition holds_matrix (s : Store F) (r : nat) (m : Matrix F) : Prop :=
  nth_error s r = Some (OMatrix m).

Definition holds_vector (s : Store F) (r : nat) (v : Vector F) : Prop :=
  nth_error s r = Some (OVector v).

Definition holds_layernorm (s : Store F) (o : LayerNormObj) (ln : LayerNorm F)
  : Prop :=
  normalized_shape_of o = normalized_shape ln /\
  holds_vector s (weight_at o) (ln_weight ln) /\
  holds_vector s (bias_at o) (ln_bias ln) /\
  eps_of o = ln_eps ln.

(** The store [s'] is [s] with more tensors allocated after it: every
    tensor of [s] is in [s'] at its reference, unchanged. *)
Definition extends (s s' : Store F) : Prop := exists new, s' = s ++ new.

(** The tensors behind the references a [forward] returns. *)
Definition view (s : Store F) (r : result (nat * (nat * nat)))
  : result (option (Obj F) * (option (Obj F) * option (Obj F))) :=
  match r with
  | Ok (hy, (hy', cy)) => Ok (nth_error s hy, (nth_error s hy', nth_error s cy))
  | Err e => Err e
  end.

Definition tensors (v : result (Matrix F * (Matrix F * Matrix F)))
  : result (option (Obj F) * (option (Obj F) * option (Obj F))) :=
  match v with
  | Ok (hy, (hy', cy)) =>
      Ok (Some (OMatrix hy), (Some (OMatrix hy'), Some (OMatrix cy)))
  | Err e => Err e
  end.

(** Two calls in a row, the second in the store the first leaves: each
    only allocates, and both return the tensors [v]. *)
Definition repeatable (call : Run F (nat * (nat * nat))) (s : Store F)
  (v : result (Matrix F * (Matrix F * Matrix F))) : Prop :=
  exists s1 r1 s2 r2,
    call s = (s1, r1) /\ call s1 = (s2, r2) /\
    extends s s1 /\ extends s1 s2 /\
    view s1 r1 = tensors v /\ view s2 r2 = tensors v.

(** The run of [m] from [s] only allocates, and it ends as the value-level
    computation [v] does: with the same failure, or with references that
    are related by [rel] to the value of [v]. *)
Definition computes {A V : Type} (rel : Store F -> A -> V -> Prop)
  (m : Run F A) (s : Store F) (v : result V) : Prop :=
  exists s', extends s s' /\
    match v with
    | Ok x => exists a, m s = (s', Ok a) /\ rel s' a x
    | Err e => m s = (s', Err e)
    end.

Definition holds_all (s : Store F) (rs : list nat) (ms : list (Matrix F))
  : Prop :=
  Forall2 (holds_matrix s) rs ms.

Definition holds_4 (s : Store F) (rs : nat * nat * nat * nat)
  (ms : Matrix F * Matrix F * Matrix F * Matrix F) : Prop :=
  let '(a, b, c, d) := rs in
  let '(x, y, z, w) := ms in
  holds_matrix s a x /\ holds_matrix s b y /\
  holds_matrix s c z /\ holds_matrix s d w.

Definition holds_3 (s : Store F) (rs : nat * nat * nat)
  (ms : Matrix F * Matrix F * Matrix F) : Prop :=
  let '(a, b, c) := rs in
  let '(x, y, z) := ms in
  holds_matrix s a x /\ holds_matrix s b y /\ holds_matrix s c z.

Definition holds_2 (s : Store F) (rs : nat * nat) (ms : Matrix F * Matrix F)
  : Prop :=
  holds_matrix s (fst rs) (fst ms) /\ holds_matrix s (snd rs) (snd ms).

Definition holds_result (s : Store F) (rs : nat * (nat * nat))
  (ms : Matrix F * (Matrix F * Matrix F)) : Prop :=
  let '(a, (b, c)) := rs in
  let '(x, (y, z)) := ms in
  holds_matrix s a x /\ holds_matrix s b y /\ holds_matrix s c z.

End ObjectOperations.

Arguments LayerNormObj F : clear implicits.

(** ** The cells *)

Module SubLSTMCell.
Section Cell.
Context {F : Type} {E : Engine F}.

Record cell : Type := mkCell {
  input_size : nat;
  hidden_size : nat;
  weight_ih : Matrix F;
  weight_hh : Matrix F;
  bias_ih : Vector F;
  bias_hh : Vector F
}.

(** The shapes [__init__] allocates. *)
Definition initialized (self : cell) : Prop :=
  has_shape (weight_ih self) (4 * hidden_size self) (input_size self) /\
  has_shape (weight_hh self) (4 * hidden_size self) (hidden_size self) /\
  length (bias_ih self) = 4 * hidden_size self /\
  length (bias_hh self) = 4 * hidden_size self.

Definition gates (self : cell) (input hx : Matrix F) : result (Matrix F) :=
  ih <- mm input (t (weight_ih self));;
  s1 <- madd_v ih (bias_ih self);;
  hh <- mm hx (t (weight_hh self));;
  s2 <- madd s1 hh;;
  s3 <- madd_v s2 (bias_hh self);;
  Ok (msigmoid s3).

Definition forward (self : cell) (input : Matrix F) (state : Matrix F * Matrix F)
  : result (Matrix F * (Matrix F * Matrix F)) :=
  let '(hx, cx) := state in
  gates <- gates self input hx;;
  '(ingate, forgetgate, cellgate, outgate) <- unpack4 (chunk gates 4);;
  retained <- mmul forgetgate cx;;
  contribution <- msub cellgate ingate;;
  cy <- madd retained contribution;;
  hy <- msub (mtanh cy) outgate;;
  Ok (hy, (hy, cy)).


(** The module as an object: its parameters are references. *)
Record stored : Type := mkStored {
  weight_ih_at : nat;
  weight_hh_at : nat;
  bias_ih_at : nat;
  bias_hh_at : nat
}.

Definition holds (s : Store F) (o : stored) (self : cell) : Prop :=
  holds_matrix s (weight_ih_at o) (weight_ih self) /\
  holds_matrix s (weight_hh_at o) (weight_hh self) /\
  holds_vector s (bias_ih_at o) (bias_ih self) /\
  holds_vector s (bias_hh_at o) (bias_hh self).

Definition gates_st (o : stored) (input hx : nat) : Run F nat :=
  wt <~ t_st (weight_ih_at o);;
  ih <~ mm_st input wt;;
  s1 <~ madd_v_st ih (bias_ih_at o);;
  vt <~ t_st (weight_hh_at o);;
  hh <~ mm_st hx vt;;
  s2 <~ madd_st s1 hh;;
  s3 <~ madd_v_st s2 (bias_hh_at o);;
  msigmoid_st s3.

Definition forward_st (o : stored) (input : nat) (state : nat * nat)
  : Run F (nat * (nat * nat)) :=
  let '(hx, cx) := state in
  gates <~ gates_st o input hx;;
  chunks <~ chunk_st gates 4;;
  '(ingate, forgetgate, cellgate, outgate) <~ lift (unpack4 chunks);;
  retained <~ mmul_st forgetgate cx;;
  contribution <~ msub_st cellgate ingate;;
  cy <~ madd_st retained contribution;;
  th <~ mtanh_st cy;;
  hy <~ msub_st th outgate;;
  run_ret (hy, (hy, cy)).

End Cell.
Arguments cell F : clear implicits.
End SubLSTMCell.

Module LayerNormSubLSTMCell.
Section Cell.
Context {F : Type} {E : Engine F}.

Record cell : Type := mkCell {
  input_size : nat;
  hidden_size : nat;
  weight_ih : Matrix F;
  weight_hh : Matrix F;
  layernorm_i : LayerNorm F;
  layernorm_h : LayerNorm F;
  layernorm_c : LayerNorm F
}.

Definition initialized (self : cell) : Prop :=
  has_shape (weight_ih self) (4 * hidden_size self) (input_size self) /\
  has_shape (weight_hh self) (4 * hidden_size self) (hidden_size self) /\
  LayerNorm_initialized (layernorm_i self) (4 * hidden_size self) /\
  LayerNorm_initialized (layernorm_h self) (4 * hidden_size self) /\
  LayerNorm_initialized (layernorm_c self) (hidden_size self).

Definition gates (self : cell) (input hx : Matrix F) : result (Matrix F) :=
  ih <- mm input (t (weight_ih self));;
  igates <- LayerNorm_forward (layernorm_i self) ih;;
  hh <- mm hx (t (weight_hh self));;
  hgates <- LayerNorm_forward (layernorm_h self) hh;;
  s <- madd igates hgates;;
  Ok (msigmoid s).

(** The locals [hy] and [cy] as they stand before the [return] statement. *)
Definition locals (self : cell) (input : Matrix F) (state : Matrix F * Matrix F)
  : result (Matrix F * Matrix F) :=
  let '(hx, cx) := state in
  gates <- gates self input hx;;
  '(ingate, forgetgate, cellgate, outgate) <- unpack4 (chunk gates 4);;
  retained <- mmul forgetgate cx;;
  contribution <- msub cellgate ingate;;
  pre <- madd retained contribution;;
  cy <- LayerNorm_forward (layernorm_c self) pre;;
  hy <- msub (mtanh cy) outgate;;
  Ok (hy, cy).

(** The statement is [return hy (hy, cy)]: the value returned is the result
    of calling [hy] on the pair. *)
Definition forward (self : cell) (input : Matrix F) (state : Matrix F * Matrix F)
  : result (Matrix F * (Matrix F * Matrix F)) :=
  '(hy, cy) <- locals self input state;;
  call_tensor hy (hy, cy).


Record stored : Type := mkStored {
  weight_ih_at : nat;
  weight_hh_at : nat;
  layernorm_i_obj : LayerNormObj F;
  layernorm_h_obj : LayerNormObj F;
  layernorm_c_obj : LayerNormObj F
}.

Definition holds (s : Store F) (o : stored) (self : cell) : Prop :=
  holds_matrix s (weight_ih_at o) (weight_ih self) /\
  holds_matrix s (weight_hh_at o) (weight_hh self) /\
  holds_layernorm s (layernorm_i_obj o) (layernorm_i self) /\
  holds_layernorm s (layernorm_h_obj o) (layernorm_h self) /\
  holds_layernorm s (layernorm_c_obj o) (layernorm_c self).

Definition gates_st (o : stored) (input hx : nat) : Run F nat :=
  wt <~ t_st (weight_ih_at o);;
  ih <~ mm_st input wt;;
  igates <~ LayerNorm_forward_st (layernorm_i_obj o) ih;;
  vt <~ t_st (weight_hh_at o);;
  hh <~ mm_st hx vt;;
  hgates <~ LayerNorm_forward_st (layernorm_h_obj o) hh;;
  s <~ madd_st igates hgates;;
  msigmoid_st s.

Definition locals_st (o : stored) (input : nat) (state : nat * nat)
  : Run F (nat * nat) :=
  let '(hx, cx) := state in
  gates <~ gates_st o input hx;;
  chunks <~ chunk_st gates 4;;
  '(ingate, forgetgate, cellgate, outgate) <~ lift (unpack4 chunks);;
  retained <~ mmul_st forgetgate cx;;
  contribution <~ msub_st cellgate ingate;;
  pre <~ madd_st retained contribution;;
  cy <~ LayerNorm_forward_st (layernorm_c_obj o) pre;;
  th <~ mtanh_st cy;;
  hy <~ msub_st th outgate;;
  run_ret (hy, cy).

Definition forward_st (o : stored) (input : nat) (state : nat * nat)
  : Run F (nat * (nat * nat)) :=
  '(hy, cy) <~ locals_st o input state;;
  call_tensor_st hy (hy, cy).

End Cell.
Arguments cell F : clear implicits.
Arguments stored F : clear implicits.
End LayerNormSubLSTMCell.

Module fixSubLSTMCell.
Section Cell.
Context {F : Type} {E : Engine F}.

Record cell : Type := mkCell {
  input_size : nat;
  hidden_size : nat;
  weight_ih : Matrix F;
  weight_hh : Matrix F;
  bias_ih : Vector F;
  bias_hh : Vector F;
  forgetgate : Vector F
}.

Definition initialized (self : cell) : Prop :=
  has_shape (weight_ih self) (3 * hidden_size self) (input_size self) /\
  has_shape (weight_hh self) (3 * hidden_size self) (hidden_size self) /\
  length (bias_ih self) = 3 * hidden_size self /\
  length (bias_hh self) = 3 * hidden_size self /\
  length (forgetgate self) = hidden_size self.

Definition gates (self : cell) (input hx : Matrix F) : result (Matrix F) :=
  ih <- mm input (t (weight_ih self));;
  s1 <- madd_v ih (bias_ih self);;
  hh <- mm hx (t (weight_hh self));;
  s2 <- madd s1 hh;;
  s3 <- madd_v s2 (bias_hh self);;
  Ok (msigmoid s3).

Definition forward (self : cell) (input : Matrix F) (state : Matrix F * Matrix F)
  : result (Matrix F * (Matrix F * Matrix F)) :=
  let '(hx, cx) := state in
  gates <- gates self input hx;;
  '(ingate, cellgate, outgate) <- unpack3 (chunk gates 3);;
  retained <- vmul_m (vsigmoid (forgetgate self)) cx;;
  contribution <- msub cellgate ingate;;
  cy <- madd retained contribution;;
  hy <- msub (mtanh cy) outgate;;
  Ok (hy, (hy, cy)).


Record stored : Type := mkStored {
  weight_ih_at : nat;
  weight_hh_at : nat;
  bias_ih_at : nat;
  bias_hh_at : nat;
  forgetgate_at : nat
}.

Definition holds (s : Store F) (o : stored) (self : cell) : Prop :=
  holds_matrix s (weight_ih_at o) (weight_ih self) /\
  holds_matrix s (weight_hh_at o) (weight_hh self) /\
  holds_vector s (bias_ih_at o) (bias_ih self) /\
  holds_vector s (bias_hh_at o) (bias_hh self) /\
  holds_vector s (forgetgate_at o) (forgetgate self).

Definition gates_st (o : stored) (input hx : nat) : Run F nat :=
  wt <~ t_st (weight_ih_at o);;
  ih <~ mm_st input wt;;
  s1 <~ madd_v_st ih (bias_ih_at o);;
  vt <~ t_st (weight_hh_at o);;
  hh <~ mm_st hx vt;;
  s2 <~ madd_st s1 hh;;
  s3 <~ madd_v_st s2 (bias_hh_at o);;
  msigmoid_st s3.

Definition forward_st (o : stored) (input : nat) (state : nat * nat)
  : Run F (nat * (nat * nat)) :=
  let '(hx, cx) := state in
  gates <~ gates_st o input hx;;
  chunks <~ chunk_st gates 3;;
  '(ingate, cellgate, outgate) <~ lift (unpack3 chunks);;
  fs <~ vsigmoid_st (forgetgate_at o);;
  retained <~ vmul_m_st fs cx;;
  contribution <~ msub_st cellgate ingate;;
  cy <~ madd_st retained contribution;;
  th <~ mtanh_st cy;;
  hy <~ msub_st th outgate;;
  run_ret (hy, (hy, cy)).

End Cell.
Arguments cell F : clear implicits.
End fixSubLSTMCell.

Module LayerNormFixSubLSTMCell.
Section Cell.
Context {F : Type} {E : Engine F}.

Record cell : Type := mkCell {
  input_size : nat;
  hidden_size : nat;
  weight_ih : Matrix F;
  weight_hh : Matrix F;
  forgetgate : Vector F;
  layernorm_i : LayerNorm F;
  layernorm_h : LayerNorm F;
  layernorm_c : LayerNorm F
}.

Definition initialized (self : cell) : Prop :=
  has_shape (weight_ih self) (3 * hidden_size self) (input_size self) /\
  has_shape (weight_hh self) (3 * hidden_size self) (hidden_size self) /\
  length (forgetgate self) = hidden_size self /\
  LayerNorm_initialized (layernorm_i self) (3 * hidden_size self) /\
  LayerNorm_initialized (layernorm_h self) (3 * hidden_size self) /\
  LayerNorm_initialized (layernorm_c self) (hidden_size self).

Definition gates (self : cell) (input hx : Matrix F) : result (Matrix F) :=
  ih <- mm input (t (weight_ih self));;
  igates <- LayerNorm_forward (layernorm_i self) ih;;
  hh <- mm hx (t (weight_hh self));;
  hgates <- LayerNorm_forward (layernorm_h self) hh;;
  s <- madd igates hgates;;
  Ok (msigmoid s).

Definition forward (self : cell) (input : Matrix F) (state : Matrix F * Matrix F)
  : result (Matrix F * (Matrix F * Matrix F)) :=
  let '(hx, cx) := state in
  gates <- gates self input hx;;
  '(ingate, cellgate, outgate) <- unpack3 (chunk gates 3);;
  retained <- vmul_m (vsigmoid (forgetgate self)) cx;;
  contribution <- msub cellgate ingate;;
  pre <- madd retained contribution;;
  cy <- LayerNorm_forward (layernorm_c self) pre;;
  hy <- msub (mtanh cy) outgate;;
  Ok (hy, (hy, cy)).


Record stored : Type := mkStored {
  weight_ih_at : nat;
  weight_hh_at : nat;
  forgetgate_at : nat;
  layernorm_i_obj : LayerNormObj F;
  layernorm_h_obj : LayerNormObj F;
  layernorm_c_obj : LayerNormObj F
}.

Definition holds (s : Store F) (o : stored) (self : cell) : Prop :=
  holds_matrix s (weight_ih_at o) (weight_ih self) /\
  holds_matrix s (weight_hh_at o) (weight_hh self) /\
  holds_vector s (forgetgate_at o) (forgetgate self) /\
  holds_layernorm s (layernorm_i_obj o) (layernorm_i self) /\
  holds_layernorm s (layernorm_h_obj o) (layernorm_h self) /\
  holds_layernorm s (layernorm_c_obj o) (layernorm_c self).

Definition gates_st (o : stored) (input hx : nat) : Run F nat :=
  wt <~ t_st (weight_ih_at o);;
  ih <~ mm_st input wt;;
  igates <~ LayerNorm_forward_st (layernorm_i_obj o) ih;;
  vt <~ t_st (weight_hh_at o);;
  hh <~ mm_st hx vt;;
  hgates <~ LayerNorm_forward_st (layernorm_h_obj o) hh;;
  s <~ madd_st igates hgates;;
  msigmoid_st s.

Definition forward_st (o : stored) (input : nat) (state : nat * nat)
  : Run F (nat * (nat * nat)) :=
  let '(hx, cx) := state in
  gates <~ gates_st o input hx;;
  chunks <~ chunk_st gates 3;;
  '(ingate, cellgate, outgate) <~ lift (unpack3 chunks);;
  fs <~ vsigmoid_st (forgetgate_at o);;
  retained <~ vmul_m_st fs cx;;
  contribution <~ msub_st cellgate ingate;;
  pre <~ madd_st retained contribution;;
  cy <~ LayerNorm_forward_st (layernorm_c_obj o) pre;;
  th <~ mtanh_st cy;;
  hy <~ msub_st th outgate;;
  run_ret (hy, (hy, cy)).

End Cell.
Arguments cell F : clear implicits.
Arguments stored F : clear implicits.
End LayerNormFixSubLSTMCell.

Module PremulSubLSTMCell.
Section Cell.
Context {F : Type} {E : Engine F}.

Record cell : Type := mkCell {
  input_size : nat;
  hidden_size : nat;
  weight_hh : Matrix F;
  bias_hh : Vector F
}.

Definition initialized (self : cell) : Prop :=
  has_shape (weight_hh self) (4 * hidden_size self) (hidden_size self) /\
  length (bias_hh self) = 4 * hidden_size self.

Definition gates (self : cell) (premul_input hx : Matrix F) : result (Matrix F) :=
  hh <- mm hx (t (weight_hh self));;
  s1 <- madd premul_input hh;;
  s2 <- madd_v s1 (bias_hh self);;
  Ok (msigmoid s2).

Definition forward (self : cell) (premul_input : Matrix F)
  (state : Matrix F * Matrix F)
  : result (Matrix F * (Matrix F * Matrix F)) :=
  let '(hx, cx) := state in
  gates <- gates self premul_input hx;;
  '(ingate, forgetgate, cellgate, outgate) <- unpack4 (chunk gates 4);;
  retained <- mmul forgetgate cx;;
  contribution <- msub cellgate ingate;;
  cy <- madd retained contribution;;
  hy <- msub (mtanh cy) outgate;;
  Ok (hy, (hy, cy)).


Record stored : Type := mkStored {
  weight_hh_at : nat;
  bias_hh_at : nat
}.

Definition holds (s : Store F) (o : stored) (self : cell) : Prop :=
  holds_matrix s (weight_hh_at o) (weight_hh self) /\
  holds_vector s (bias_hh_at o) (bias_hh self).

Definition gates_st (o : stored) (premul_input hx : nat) : Run F nat :=
  vt <~ t_st (weight_hh_at o);;
  hh <~ mm_st hx vt;;
  s1 <~ madd_st premul_input hh;;
  s2 <~ madd_v_st s1 (bias_hh_at o);;
  msigmoid_st s2.

Definition forward_st (o : stored) (premul_input : nat) (state : nat * nat)
  : Run F (nat * (nat * nat)) :=
  let '(hx, cx) := state in
  gates <~ gates_st o premul_input hx;;
  chunks <~ chunk_st gates 4;;
  '(ingate, forgetgate, cellgate, outgate) <~ lift (unpack4 chunks);;
  retained <~ mmul_st forgetgate cx;;
  contribution <~ msub_st cellgate ingate;;
  cy <~ madd_st retained contribution;;
  th <~ mtanh_st cy;;
  hy <~ msub_st th outgate;;
  run_ret (hy, (hy, cy)).

End Cell.
Arguments cell F : clear implicits.
End PremulSubLSTMCell.

(** ** The five variants, side by side *)

Record Variant (F : Type) : Type := mkVariant {
  v_cell : Type;
  v_stored : Type;
  v_holds : Store F -> v_stored -> v_cell -> Prop;
  v_forward : v_cell -> Matrix F -> Matrix F * Matrix F ->
              result (Matrix F * (Matrix F * Matrix F));
  v_forward_st : v_stored -> nat -> nat * nat -> Run F (nat * (nat * nat))
}.

Definition SubLSTMCell_variant {F : Type} {E : Engine F} : Variant F :=
  mkVariant (@SubLSTMCell.holds F) SubLSTMCell.forward SubLSTMCell.forward_st.

Definition LayerNormSubLSTMCell_variant {F : Type} {E : Engine F} : Variant F :=
  mkVariant (@LayerNormSubLSTMCell.holds F) LayerNormSubLSTMCell.forward
    LayerNormSubLSTMCell.forward_st.

Definition fixSubLSTMCell_variant {F : Type} {E : Engine F} : Variant F :=
  mkVariant (@fixSubLSTMCell.holds F) fixSubLSTMCell.forward
    fixSubLSTMCell.forward_st.

Definition LayerNormFixSubLSTMCell_variant {F : Type} {E : Engine F}
  : Variant F :=
  mkVariant (@LayerNormFixSubLSTMCell.holds F) LayerNormFixSubLSTMCell.forward
    LayerNormFixSubLSTMCell.forward_st.

Definition PremulSubLSTMCell_variant {F : Type} {E : Engine F} : Variant F :=
  mkVariant (@PremulSubLSTMCell.holds F) PremulSubLSTMCell.forward
    PremulSubLSTMCell.forward_st.

Definition variants {F : Type} {E : Engine F} : list (Variant F) :=
  [ SubLSTMCell_variant; LayerNormSubLSTMCell_variant; fixSubLSTMCell_variant;
    LayerNormFixSubLSTMCell_variant; PremulSubLSTMCell_variant ].

(** ** The update rules as the specification words them

    Entry by entry: [z] is the fused pre-activation, the gates are the
    sigmoid of its slices, and the new cell and hidden states combine them. *)

Module BasicCell_spec.
Section Spec.
Context {F : Type} {E : Engine F}.
Variable self : SubLSTMCell.cell F.
Variables input h_prev c_prev : Matrix F.

Let I := SubLSTMCell.input_size self.
Let H := SubLSTMCell.hidden_size self.

(** [input·Wih^T], entry [(b, k)] *)
Definition input_proj (b k : nat) : F :=
  dot I (fun m => get input b m) (fun m => get (SubLSTMCell.weight_ih self) k m).

(** [h_prev·Whh^T], entry [(b, k)] *)
Definition hidden_proj (b k : nat) : F :=
  dot H (fun m => get h_prev b m) (fun m => get (SubLSTMCell.weight_hh self) k m).

(** [z = input·Wih^T + bias_ih + h_prev·Whh^T + bias_hh] *)
Definition z (b k : nat) : F :=
  s_add (s_add (s_add (input_proj b k) (vget (SubLSTMCell.bias_ih self) k))
               (hidden_proj b k))
        (vget (SubLSTMCell.bias_hh self) k).

Definition gates (b k : nat) : F := s_sigmoid (z b k).

(** The four equal slices, in the order [i, f, g, o]. *)
Definition i (b j : nat) : F := gates b j.
Definition f (b j : nat) : F := gates b (H + j).
Definition g (b j : nat) : F := gates b (2 * H + j).
Definition o (b j : nat) : F := gates b (3 * H + j).

(** [c_new = f ⊙ c_prev + (g − i)] *)
Definition c_new (b j : nat) : F :=
  s_add (s_mul (f b j) (get c_prev b j)) (s_sub (g b j) (i b j)).

(** [h_new = tanh(c_new) − o] *)
Definition h_new (b j : nat) : F := s_sub (s_tanh (c_new b j)) (o b j).

(** [update] on a batch of [B] rows. *)
Definition update (B : nat) : Matrix F * (Matrix F * Matrix F) :=
  (tabulate B H h_new, (tabulate B H h_new, tabulate B H c_new)).

End Spec.
End BasicCell_spec.

Module FixedForgetCell_spec.
Section Spec.
Context {F : Type} {E : Engine F}.
Variable self : fixSubLSTMCell.cell F.
Variables input h_prev c_prev : Matrix F.

Let I := fixSubLSTMCell.input_size self.
Let H := fixSubLSTMCell.hidden_size self.

Definition input_proj (b k : nat) : F :=
  dot I (fun m => get input b m) (fun m => get (fixSubLSTMCell.weight_ih self) k m).

Definition hidden_proj (b k : nat) : F :=
  dot H (fun m => get h_prev b m) (fun m => get (fixSubLSTMCell.weight_hh self) k m).

(** [gates = sigmoid(input·Wih^T + bias_ih + h_prev·Whh^T + bias_hh)] *)
Definition gates (b k : nat) : F :=
  s_sigmoid
    (s_add (s_add (s_add (input_proj b k) (vget (fixSubLSTMCell.bias_ih self) k))
                  (hidden_proj b k))
           (vget (fixSubLSTMCell.bias_hh self) k)).

(** The three equal slices, in the order [i, g, o]. *)
Definition i (b j : nat) : F := gates b j.
Definition g (b j : nat) : F := gates b (H + j).
Definition o (b j : nat) : F := gates b (2 * H + j).

(** [sigmoid(fg)], one value per feature, whatever the row. *)
Definition forget (j : nat) : F := s_sigmoid (vget (fixSubLSTMCell.forgetgate self) j).

(** [c_new = sigmoid(fg) ⊙ c_prev + (g − i)] *)
Definition c_new (b j : nat) : F :=
  s_add (s_mul (forget j) (get c_prev b j)) (s_sub (g b j) (i b j)).

(** [h_new = tanh(c_new) − o] *)
Definition h_new (b j : nat) : F := s_sub (s_tanh (c_new b j)) (o b j).

Definition update (B : nat) : Matrix F * (Matrix F * Matrix F) :=
  (tabulate B H h_new, (tabulate B H h_new, tabulate B H c_new)).

End Spec.
End FixedForgetCell_spec.

Module NormalizedCell_spec.
Section Spec.
Context {F : Type} {E : Engine F}.
Variable self : LayerNormSubLSTMCell.cell F.
Variables input h_prev c_prev : Matrix F.

Let I := LayerNormSubLSTMCell.input_size self.
Let H := LayerNormSubLSTMCell.hidden_size self.

(** The three transforms, each on a row given by its entries. *)
Definition Norm_i : (nat -> F) -> nat -> F :=
  layer_norm_entry (LayerNormSubLSTMCell.layernorm_i self) (4 * H).
Definition Norm_h : (nat -> F) -> nat -> F :=
  layer_norm_entry (LayerNormSubLSTMCell.layernorm_h self) (4 * H).
Definition Norm_c : (nat -> F) -> nat -> F :=
  layer_norm_entry (LayerNormSubLSTMCell.layernorm_c self) H.

Definition input_proj (b k : nat) : F :=
  dot I (fun m => get input b m)
        (fun m => get (LayerNormSubLSTMCell.weight_ih self) k m).

Definition hidden_proj (b k : nat) : F :=
  dot H (fun m => get h_prev b m)
        (fun m => get (LayerNormSubLSTMCell.weight_hh self) k m).

(** [igates = Norm_i(input·Wih^T)], [hgates = Norm_h(h_prev·Whh^T)] *)
Definition igates (b k : nat) : F := Norm_i (input_proj b) k.
Definition hgates (b k : nat) : F := Norm_h (hidden_proj b) k.

(** [gates = sigmoid(igates + hgates)] *)
Definition gates (b k : nat) : F := s_sigmoid (s_add (igates b k) (hgates b k)).

Definition i (b j : nat) : F := gates b j.
Definition f (b j : nat) : F := gates b (H + j).
Definition g (b j : nat) : F := gates b (2 * H + j).
Definition o (b j : nat) : F := gates b (3 * H + j).

(** [c_new = Norm_c(f ⊙ c_prev + (g − i))] *)
Definition pre_norm (b j : nat) : F :=
  s_add (s_mul (f b j) (get c_prev b j)) (s_sub (g b j) (i b j)).
Definition c_new (b j : nat) : F := Norm_c (pre_norm b) j.

(** [h_new = tanh(c_new) − o] *)
Definition h_new (b j : nat) : F := s_sub (s_tanh (c_new b j)) (o b j).

End Spec.
End NormalizedCell_spec.

Module NormalizedFixedForgetCell_spec.
Section Spec.
Context {F : Type} {E : Engine F}.
Variable self : LayerNormFixSubLSTMCell.cell F.
Variables input h_prev c_prev : Matrix F.

Let I := LayerNormFixSubLSTMCell.input_size self.
Let H := LayerNormFixSubLSTMCell.hidden_size self.

Definition Norm_i : (nat -> F) -> nat -> F :=
  layer_norm_entry (LayerNormFixSubLSTMCell.layernorm_i self) (3 * H).
Definition Norm_h : (nat -> F) -> nat -> F :=
  layer_norm_entry (LayerNormFixSubLSTMCell.layernorm_h self) (3 * H).
Definition Norm_c : (nat -> F) -> nat -> F :=
  layer_norm_entry (LayerNormFixSubLSTMCell.layernorm_c self) H.

Definition input_proj (b k : nat) : F :=
  dot I (fun m => get input b m)
        (fun m => get (LayerNormFixSubLSTMCell.weight_ih self) k m).

Definition hidden_proj (b k : nat) : F :=
  dot H (fun m => get h_prev b m)
        (fun m => get (LayerNormFixSubLSTMCell.weight_hh self) k m).

(** The three-gate projections, each normalised, then summed. *)
Definition gates (b k : nat) : F :=
  s_sigmoid (s_add (Norm_i (input_proj b) k) (Norm_h (hidden_proj b) k)).

Definition i (b j : nat) : F := gates b j.
Definition g (b j : nat) : F := gates b (H + j).
Definition o (b j : nat) : F := gates b (2 * H + j).

Definition forget (j : nat) : F :=
  s_sigmoid (vget (LayerNormFixSubLSTMCell.forgetgate self) j).

(** The cell state is normalised after the combination with the forget
    vector. *)
Definition pre_norm (b j : nat) : F :=
  s_add (s_mul (forget j) (get c_prev b j)) (s_sub (g b j) (i b j)).
Definition c_new (b j : nat) : F := Norm_c (pre_norm b) j.
Definition h_new (b j : nat) : F := s_sub (s_tanh (c_new b j)) (o b j).

Definition update (B : nat) : Matrix F * (Matrix F * Matrix F) :=
  (tabulate B H h_new, (tabulate B H h_new, tabulate B H c_new)).

End Spec.
End NormalizedFixedForgetCell_spec.

Module PrefusedCell_spec.
Section Spec.
Context {F : Type} {E : Engine F}.
Variable self : PremulSubLSTMCell.cell F.
Variables premul_input h_prev c_prev : Matrix F.

Let H := PremulSubLSTMCell.hidden_size self.

Definition hidden_proj (b k : nat) : F :=
  dot H (fun m => get h_prev b m)
        (fun m => get (PremulSubLSTMCell.weight_hh self) k m).

(** The caller's projection takes the place of [input·Wih^T + bias_ih]. *)
Definition gates (b k : nat) : F :=
  s_sigmoid
    (s_add (s_add (get premul_input b k) (hidden_proj b k))
           (vget (PremulSubLSTMCell.bias_hh self) k)).

Definition i (b j : nat) : F := gates b j.
Definition f (b j : nat) : F := gates b (H + j).
Definition g (b j : nat) : F := gates b (2 * H + j).
Definition o (b j : nat) : F := gates b (3 * H + j).

Definition c_new (b j : nat) : F :=
  s_add (s_mul (f b j) (get c_prev b j)) (s_sub (g b j) (i b j)).
Definition h_new (b j : nat) : F := s_sub (s_tanh (c_new b j)) (o b j).

Definition update (B : nat) : Matrix F * (Matrix F * Matrix F) :=
  (tabulate B H h_new, (tabulate B H h_new, tabulate B H c_new)).

End Spec.
End PrefusedCell_spec.

(** ** Recombining a table of gates

    The last four statements of each [forward], entry by entry, for a gate
    table [G] split in slices of [H] columns. *)

Section Combination.
Context {F : Type} {E : Engine F}.
Variable H : nat.
Variable G : nat -> nat -> F.
Variable cx : Matrix F.

(** Four gates: [forgetgate * cx + (cellgate - ingate)]. *)
Definition cell4 (b j : nat) : F :=
  s_add (s_mul (G b (H + j)) (get cx b j)) (s_sub (G b (2 * H + j)) (G b j)).
Definition hidden4 (c : nat -> nat -> F) (b j : nat) : F :=
  s_sub (s_tanh (c b j)) (G b (3 * H + j)).

(** Three gates and a forget vector:
    [forgetgate.sigmoid() * cx + (cellgate - ingate)]. *)
Definition cell3 (fg : Vector F) (b j : nat) : F :=
  s_add (s_mul (s_sigmoid (vget fg j)) (get cx b j)) (s_sub (G b (H + j)) (G b j)).
Definition hidden3 (c : nat -> nat -> F) (b j : nat) : F :=
  s_sub (s_tanh (c b j)) (G b (2 * H + j)).

(** [layernorm_c] on a table of width [H]. *)
Definition normed (ln : LayerNorm F) (c : nat -> nat -> F) (b j : nat) : F :=
  layer_norm_entry ln H (fun k => c b k) j.

End Combination.

(** ** The engine over the real numbers

    The logistic sigmoid and the hyperbolic tangent are the exact ones, and
    no operation rounds: this engine gives the structural theorems an
    instance, and stands for no floating-point format. *)

Definition sigmoid (x : R) : R := (/ (1 + exp (- x)))%R.

#[export] Instance R_engine : Engine R := {|
  s_zero := 0%R;
  s_add := Rplus;
  s_sub := Rminus;
  s_mul := Rmult;
  s_div := Rdiv;
  s_sqrt := sqrt;
  s_sigmoid := sigmoid;
  s_tanh := tanh;
  s_of_nat := INR
|}.

(** [premul_input = input·Wih^T + bias_ih], from the weights of a
    [SubLSTMCell]. *)
Definition premul_projection {F : Type} {E : Engine F}
  (self : SubLSTMCell.cell F) (input : Matrix F) : result (Matrix F) :=
  ih <- mm input (t (SubLSTMCell.weight_ih self));;
  madd_v ih (SubLSTMCell.bias_ih self).

(** ** The engine in finite precision

    The engine computes in a floating-point format: each scalar operation
    returns its exact result rounded to the format.  [rounded_engine rnd] is
    the engine over the real numbers whose operations round with [rnd], and
    [Rounding rnd] states what rounding to nearest guarantees in every
    format: it is monotone, symmetric, and leaves 1 and 2 as they are.
    Overflow, infinities and NaN have no counterpart here. *)

Section FinitePrecision.
Local Open Scope R_scope.

Definition rounded_engine (rnd : R -> R) : Engine R := {|
  s_zero := 0;
  s_add := fun x y => rnd (x + y);
  s_sub := fun x y => rnd (x - y);
  s_mul := fun x y => rnd (x * y);
  s_div := fun x y => rnd (x / y);
  s_sqrt := fun x => rnd (sqrt x);
  s_sigmoid := fun x => rnd (sigmoid x);
  s_tanh := fun x => rnd (tanh x);
  s_of_nat := fun n => rnd (INR n)
|}.

Record Rounding (rnd : R -> R) : Prop := mkRounding {
  rnd_monotone : forall x y, x <= y -> rnd x <= rnd y;
  rnd_opp : forall x, rnd (- x) = - rnd x;
  rnd_one : rnd 1 = 1;
  rnd_two : rnd 2 = 2
}.

(** The tensor holds numbers of the format. *)
Definition representable (rnd : R -> R) (m : Matrix R) : Prop :=
  Forall (Forall (fun x => rnd x = x)) (rows m).

(** The nearest integer, a tie going to the even one. *)
Definition round_half_even (y : R) : Z :=
  let f := Int_part y in
  if Rlt_dec (y - IZR f) (/ 2) then f
  else if Rlt_dec (/ 2) (y - IZR f) then (f + 1)%Z
  else if Z.even f then f else (f + 1)%Z.

(** [2^e] for an integer [e]. *)
Definition bpow (e : Z) : R := exp (IZR e * ln 2).

(** The exponent [e] of a number: [2^(e-1) <= |x| < 2^e]. *)
Definition exponent (x : R) : Z := up (ln (Rabs x) / ln 2).

(** Rounding to the nearest number with [p] significant bits, a tie going
    to the even significand; the exponent is not bounded. *)
Definition float_round (p : nat) (x : R) : R :=
  if Req_dec_T x 0 then 0
  else
    let ulp := bpow (exponent x - Z.of_nat p) in
    if Rle_dec 0 x
    then IZR (round_half_even (x / ulp)) * ulp
    else - (IZR (round_half_even (- x / ulp)) * ulp).

(** Single precision, the default type of the engine's tensors: 24
    significant bits. *)
Definition single : R -> R := float_round 24.

End FinitePrecision.

(** ** Ranges of the entries

    The ranges are stated for an engine over the real numbers, exact or
    rounded; [strictly_between] excludes the bounds and [between] includes
    them. *)

Section RangeStatements.
Context {E : Engine R}.
Local Open Scope R_scope.

Definition between (lo hi x : R) : Prop := lo <= x <= hi.





(** Every entry of [cy] is larger in magnitude than the entry of [cx] by at
    most one, the sum being the engine's. *)
Definition grows_by_at_most_one (cy cx : Matrix R) : Prop :=
  forall b j, (b < nrows cy)%nat -> (j < ncols cy)%nat ->
    Rabs (get cy b j) <= s_add (Rabs (get cx b j)) 1.

End RangeStatements.

(** ** Tensors of zeros, for running the cells on given shapes

    [torch.zeros(r, c)], and cells with [I = 2] and [H = 2] whose parameters
    are zeros; the entries are the engine's own, whatever the engine. *)

Module Zeros.
Section Zeros.
Context {F : Type} {E : Engine F}.

Definition zeros (r c : nat) : Matrix F := tabulate r c (fun _ _ => s_zero).

Definition basic : SubLSTMCell.cell F :=
  SubLSTMCell.mkCell 2 2 (zeros 8 2) (zeros 8 2)
    (repeat s_zero 8) (repeat s_zero 8).

Definition prefused : PremulSubLSTMCell.cell F :=
  PremulSubLSTMCell.mkCell 2 2 (zeros 8 2) (repeat s_zero 8).

End Zeros.
End Zeros.

(** ** A small instance: two input features, one hidden unit, two rows *)

Module Example.
Open Scope R_scope.

Definition input : Matrix R := mkMatrix 2 2 [[1; 2]; [3; 4]].
Definition hx : Matrix R := mkMatrix 2 1 [[0]; [1]].
Definition cx : Matrix R := mkMatrix 2 1 [[1]; [-1]].

Definition w4_ih : Matrix R := mkMatrix 4 2 [[1; 0]; [0; 1]; [1; 1]; [-1; 1]].
Definition w4_hh : Matrix R := mkMatrix 4 1 [[1]; [-1]; [2]; [0]].
Definition w3_ih : Matrix R := mkMatrix 3 2 [[1; 0]; [0; 1]; [1; 1]].
Definition w3_hh : Matrix R := mkMatrix 3 1 [[1]; [-1]; [2]].
Definition b4 : Vector R := [0; 1; -1; 2].
Definition b3 : Vector R := [0; 1; -1].
Definition fg : Vector R := [2].

(** [nn.LayerNorm(n)] as constructed: unit scale, zero shift, [eps = 1e-5]. *)
Definition layernorm (n : nat) : LayerNorm R :=
  mkLayerNorm n (repeat 1 n) (repeat 0 n) (1 / 100000).

Definition basic : SubLSTMCell.cell R :=
  SubLSTMCell.mkCell 2 1 w4_ih w4_hh b4 b4.
Definition normalized : LayerNormSubLSTMCell.cell R :=
  LayerNormSubLSTMCell.mkCell 2 1 w4_ih w4_hh
    (layernorm 4) (layernorm 4) (layernorm 1).
Definition fixedforget : fixSubLSTMCell.cell R :=
  fixSubLSTMCell.mkCell 2 1 w3_ih w3_hh b3 b3 fg.
Definition prefused : PremulSubLSTMCell.cell R :=
  PremulSubLSTMCell.mkCell 2 1 w4_hh b4.
Definition premul_input : Matrix R :=
  mkMatrix 2 4 [[1; 3; 2; 3]; [3; 5; 6; 3]].

(** The parameters of [basic] and the caller's tensors, as allocated. *)
Definition store : Store R :=
  [OMatrix w4_ih; OMatrix w4_hh; OVector b4; OVector b4;
   OMatrix input; OMatrix hx; OMatrix cx].
Definition basic_stored : SubLSTMCell.stored := SubLSTMCell.mkStored 0 1 2 3.

End Example.

(** ** The sizes of the repository's test: [I = 30], [H = 100], [B = 2] *)

Module Scenario.
Open Scope R_scope.

Definition in_size : nat := 30.
Definition hidden_size : nat := 100.
Definition batch_size : nat := 2.

Definition input : Matrix R :=
  tabulate batch_size in_size (fun b m => INR (b + m)).
Definition hx : Matrix R := tabulate batch_size hidden_size (fun _ _ => 0).
Definition cx : Matrix R := tabulate batch_size hidden_size (fun _ _ => 0).

Definition normalized : LayerNormSubLSTMCell.cell R :=
  LayerNormSubLSTMCell.mkCell in_size hidden_size
    (tabulate (4 * hidden_size) in_size (fun k m => INR k - INR m))
    (tabulate (4 * hidden_size) hidden_size (fun k m => INR m - INR k))
    (Example.layernorm (4 * hidden_size))
    (Example.layernorm (4 * hidden_size))
    (Example.layernorm hidden_size).

End Scenario.

(** ** The cells that return, with their contracts

    What a caller has to provide: a constructed cell, an input whose width
    is the one the cell expects, and a state pair of the hidden width. *)

Record Contract (F : Type) : Type := mkContract {
  c_cell : Type;
  c_initialized : c_cell -> Prop;
  c_input_width : c_cell -> nat;
  c_hidden_size : c_cell -> nat;
  c_forward : c_cell -> Matrix F -> Matrix F * Matrix F ->
              result (Matrix F * (Matrix F * Matrix F))
}.

Definition SubLSTMCell_contract {F : Type} {E : Engine F} : Contract F :=
  mkContract (@SubLSTMCell.initialized F) (@SubLSTMCell.input_size F)
    (@SubLSTMCell.hidden_size F) SubLSTMCell.forward.

Definition fixSubLSTMCell_contract {F : Type} {E : Engine F} : Contract F :=
  mkContract (@fixSubLSTMCell.initialized F) (@fixSubLSTMCell.input_size F)
    (@fixSubLSTMCell.hidden_size F) fixSubLSTMCell.forward.

Definition LayerNormFixSubLSTMCell_contract {F : Type} {E : Engine F}
  : Contract F :=
  mkContract (@LayerNormFixSubLSTMCell.initialized F)
    (@LayerNormFixSubLSTMCell.input_size F)
    (@LayerNormFixSubLSTMCell.hidden_size F) LayerNormFixSubLSTMCell.forward.

(** [PremulSubLSTMCell] takes the projection, of width [4 * hidden_size]. *)
Definition PremulSubLSTMCell_contract {F : Type} {E : Engine F} : Contract F :=
  mkContract (@PremulSubLSTMCell.initialized F)
    (fun self => 4 * PremulSubLSTMCell.hidden_size self)
    (@PremulSubLSTMCell.hidden_size F) PremulSubLSTMCell.forward.

Definition returning_contracts {F : Type} {E : Engine F} : list (Contract F) :=
  [ SubLSTMCell_contract; fixSubLSTMCell_contract;
    LayerNormFixSubLSTMCell_contract; PremulSubLSTMCell_contract ].

(** ** More instances *)

Module Sample.
Open Scope R_scope.

Definition normalizedfixed : LayerNormFixSubLSTMCell.cell R :=
  LayerNormFixSubLSTMCell.mkCell 2 1 Example.w3_ih Example.w3_hh Example.fg
    (Example.layernorm 3) (Example.layernorm 3) (Example.layernorm 1).

(** [LayerNormSubLSTMCell(2, 2)] and two rows for it. *)
Definition w8_ih : Matrix R :=
  mkMatrix 8 2
    [[1; 0]; [0; 1]; [1; 1]; [-1; 1]; [2; 0]; [0; 2]; [1; -1]; [2; 1]].
Definition w8_hh : Matrix R :=
  mkMatrix 8 2
    [[1; -1]; [0; 2]; [2; 0]; [1; 1]; [-1; 0]; [0; -1]; [1; 2]; [2; -1]].
Definition input : Matrix R := mkMatrix 2 2 [[1; 2]; [3; 4]].
Definition hx : Matrix R := mkMatrix 2 2 [[0; 1]; [1; 0]].
Definition cx : Matrix R := mkMatrix 2 2 [[1; -1]; [2; 0]].
Definition normalized : LayerNormSubLSTMCell.cell R :=
  LayerNormSubLSTMCell.mkCell 2 2 w8_ih w8_hh
    (Example.layernorm 8) (Example.layernorm 8) (Example.layernorm 2).

End Sample.

(** ** The calls the engine accepts

    Two sizes broadcast when they are equal or one of them is 1; the result
    has the other size. *)

Definition broadcastable (a b : nat) : bool :=
  (a =? b) || (a =? 1) || (b =? 1).

Definition broadcast_size (a b : nat) : nat :=
  if a =? b then a else if a =? 1 then b else a.

Section Accepts.
Context {F : Type}.

(** The sizes [SubLSTMCell.forward] goes through without a failure: the
    widths of the input and of the hidden state are those of the weights,
    and the batch sizes and the width of the cell state broadcast. *)
Definition SubLSTMCell_accepts (self : SubLSTMCell.cell F)
  (input hx cx : Matrix F) : bool :=
  (ncols input =? SubLSTMCell.input_size self) &&
  (ncols hx =? SubLSTMCell.hidden_size self) &&
  broadcastable (nrows input) (nrows hx) &&
  broadcastable (broadcast_size (nrows input) (nrows hx)) (nrows cx) &&
  broadcastable (SubLSTMCell.hidden_size self) (ncols cx).

(** The numbers of rows and of columns of what it then returns. *)
Definition SubLSTMCell_result_rows (input hx cx : Matrix F) : nat :=
  broadcast_size (broadcast_size (nrows input) (nrows hx)) (nrows cx).

Definition SubLSTMCell_result_cols (self : SubLSTMCell.cell F) (cx : Matrix F)
  : nat :=
  broadcast_size (SubLSTMCell.hidden_size self) (ncols cx).

(** [PremulSubLSTMCell.forward] has no weight to check its input against:
    the projection only has to broadcast against [hx·Whh^T], of
    [4 * hidden_size] columns. *)
Definition PremulSubLSTMCell_accepts (self : PremulSubLSTMCell.cell F)
  (premul_input hx cx : Matrix F) : bool :=
  (ncols hx =? PremulSubLSTMCell.hidden_size self) &&
  broadcastable (nrows premul_input) (nrows hx) &&
  broadcastable (ncols premul_input) (4 * PremulSubLSTMCell.hidden_size self) &&
  broadcastable (broadcast_size (nrows premul_input) (nrows hx)) (nrows cx) &&
  broadcastable (PremulSubLSTMCell.hidden_size self) (ncols cx).

Definition PremulSubLSTMCell_result_cols (self : PremulSubLSTMCell.cell F)
  (cx : Matrix F) : nat :=
  broadcast_size (PremulSubLSTMCell.hidden_size self) (ncols cx).

(** [fixSubLSTMCell.forward]: the forget vector multiplies the cell state
    first, so the cell state is checked against [hidden_size] before it is
    checked against the batch. *)
Definition fixSubLSTMCell_accepts (self : fixSubLSTMCell.cell F)
  (input hx cx : Matrix F) : bool :=
  (ncols input =? fixSubLSTMCell.input_size self) &&
  (ncols hx =? fixSubLSTMCell.hidden_size self) &&
  broadcastable (nrows input) (nrows hx) &&
  broadcastable (fixSubLSTMCell.hidden_size self) (ncols cx) &&
  broadcastable (nrows cx) (broadcast_size (nrows input) (nrows hx)).

Definition fixSubLSTMCell_result_rows (input hx cx : Matrix F) : nat :=
  broadcast_size (nrows cx) (broadcast_size (nrows input) (nrows hx)).

Definition fixSubLSTMCell_result_cols (self : fixSubLSTMCell.cell F)
  (cx : Matrix F) : nat :=
  broadcast_size (fixSubLSTMCell.hidden_size self) (ncols cx).

(** [LayerNormFixSubLSTMCell.forward]: [layernorm_c] moreover refuses a
    combined cell state whose width is not [hidden_size]. *)
Definition LayerNormFixSubLSTMCell_accepts
  (self : LayerNormFixSubLSTMCell.cell F) (input hx cx : Matrix F) : bool :=
  (ncols input =? LayerNormFixSubLSTMCell.input_size self) &&
  (ncols hx =? LayerNormFixSubLSTMCell.hidden_size self) &&
  broadcastable (nrows input) (nrows hx) &&
  broadcastable (LayerNormFixSubLSTMCell.hidden_size self) (ncols cx) &&
  broadcastable (nrows cx) (broadcast_size (nrows input) (nrows hx)) &&
  (broadcast_size (LayerNormFixSubLSTMCell.hidden_size self) (ncols cx)
     =? LayerNormFixSubLSTMCell.hidden_size self).

(** The sizes for which [LayerNormSubLSTMCell.forward] reaches its
    [return] statement. *)
Definition LayerNormSubLSTMCell_accepts
  (self : LayerNormSubLSTMCell.cell F) (input hx cx : Matrix F) : bool :=
  (ncols input =? LayerNormSubLSTMCell.input_size self) &&
  (ncols hx =? LayerNormSubLSTMCell.hidden_size self) &&
  broadcastable (nrows input) (nrows hx) &&
  broadcastable (broadcast_size (nrows input) (nrows hx)) (nrows cx) &&
  broadcastable (LayerNormSubLSTMCell.hidden_size self) (ncols cx) &&
  (broadcast_size (LayerNormSubLSTMCell.hidden_size self) (ncols cx)
     =? LayerNormSubLSTMCell.hidden_size self).

End Accepts.

(** A call that returns when [ok] holds, with [hy] in both places and both
    tensors of [rows] rows and [cols] columns, and that ends in the engine's
    [RuntimeError] otherwise. *)
Definition accepted {F : Type} (ok : bool) (rows cols : nat)
  (r : result (Matrix F * (Matrix F * Matrix F))) : Prop :=
  match r with
  | Ok (hy, (hy', cy)) =>
      ok = true /\ hy' = hy /\
      has_shape hy rows cols /\ has_shape cy rows cols
  | Err e => ok = false /\ e = RuntimeError
  end.

(** The variants whose [forward] has a [return] statement that returns. *)
Definition returning_variants {F : Type} {E : Engine F} : list (Variant F) :=
  [ SubLSTMCell_variant; fixSubLSTMCell_variant;
    LayerNormFixSubLSTMCell_variant; PremulSubLSTMCell_variant ].

(** A run that, when it succeeds, allocates one tensor and returns it. *)
Definition allocates_one {F : Type} (m : Run F nat) : Prop :=
  forall s s' r, m s = (s', Ok r) -> r = length s /\ length s' = S (length s).

(** ** Construction of the cells

    [torch.randn] draws its entries from the generator of the engine; the
    generator is a state from which one sample is drawn at a time.  The
    sizes are natural numbers. *)

Class Sampler (F G : Type) : Type := {
  draw : G -> F * G
}.

Section Construction.
Context {F G : Type} {E : Engine F} {Rng : Sampler F G}.

(** [torch.randn(n)] *)
Fixpoint randn_vector (n : nat) (g : G) : Vector F * G :=
  match n with
  | 0 => ([], g)
  | S n' =>
      let (x, g1) := draw g in
      let (xs, g2) := randn_vector n' g1 in
      (x :: xs, g2)
  end.

Fixpoint randn_rows (r c : nat) (g : G) : list (list F) * G :=
  match r with
  | 0 => ([], g)
  | S r' =>
      let (row, g1) := randn_vector c g in
      let (rows, g2) := randn_rows r' c g1 in
      (row :: rows, g2)
  end.

(** [torch.randn(r, c)] *)
Definition randn (r c : nat) (g : G) : Matrix F * G :=
  let (rows, g') := randn_rows r c g in
  (mkMatrix r c rows, g').

(** [nn.LayerNorm(n)]: unit scale, zero shift, [eps = 1e-5]; nothing is
    drawn. *)
Definition LayerNorm_init (n : nat) : LayerNorm F :=
  mkLayerNorm n (repeat (s_of_nat 1) n) (repeat s_zero n)
    (s_div (s_of_nat 1) (s_of_nat (10 ^ 5))).

(** [SubLSTMCell.__init__] *)
Definition SubLSTMCell_init (input_size hidden_size : nat) (g : G)
  : SubLSTMCell.cell F * G :=
  let (weight_ih, g1) := randn (4 * hidden_size) input_size g in
  let (weight_hh, g2) := randn (4 * hidden_size) hidden_size g1 in
  let (bias_ih, g3) := randn_vector (4 * hidden_size) g2 in
  let (bias_hh, g4) := randn_vector (4 * hidden_size) g3 in
  (SubLSTMCell.mkCell input_size hidden_size weight_ih weight_hh
     bias_ih bias_hh, g4).

(** [LayerNormSubLSTMCell.__init__] *)
Definition LayerNormSubLSTMCell_init (input_size hidden_size : nat) (g : G)
  : LayerNormSubLSTMCell.cell F * G :=
  let (weight_ih, g1) := randn (4 * hidden_size) input_size g in
  let (weight_hh, g2) := randn (4 * hidden_size) hidden_size g1 in
  (LayerNormSubLSTMCell.mkCell input_size hidden_size weight_ih weight_hh
     (LayerNorm_init (4 * hidden_size)) (LayerNorm_init (4 * hidden_size))
     (LayerNorm_init hidden_size), g2).

(** [fixSubLSTMCell.__init__] *)
Definition fixSubLSTMCell_init (input_size hidden_size : nat) (g : G)
  : fixSubLSTMCell.cell F * G :=
  let (weight_ih, g1) := randn (3 * hidden_size) input_size g in
  let (weight_hh, g2) := randn (3 * hidden_size) hidden_size g1 in
  let (bias_ih, g3) := randn_vector (3 * hidden_size) g2 in
  let (bias_hh, g4) := randn_vector (3 * hidden_size) g3 in
  let (forgetgate, g5) := randn_vector hidden_size g4 in
  (fixSubLSTMCell.mkCell input_size hidden_size weight_ih weight_hh
     bias_ih bias_hh forgetgate, g5).

(** [LayerNormFixSubLSTMCell.__init__] *)
Definition LayerNormFixSubLSTMCell_init (input_size hidden_size : nat) (g : G)
  : LayerNormFixSubLSTMCell.cell F * G :=
  let (weight_ih, g1) := randn (3 * hidden_size) input_size g in
  let (weight_hh, g2) := randn (3 * hidden_size) hidden_size g1 in
  let (forgetgate, g3) := randn_vector hidden_size g2 in
  (LayerNormFixSubLSTMCell.mkCell input_size hidden_size weight_ih weight_hh
     forgetgate
     (LayerNorm_init (3 * hidden_size)) (LayerNorm_init (3 * hidden_size))
     (LayerNorm_init hidden_size), g3).

(** [PremulSubLSTMCell.__init__]: [input_size] is recorded, and no
    parameter has it as a size. *)
Definition PremulSubLSTMCell_init (input_size hidden_size : nat) (g : G)
  : PremulSubLSTMCell.cell F * G :=
  let (weight_hh, g1) := randn (4 * hidden_size) hidden_size g in
  let (bias_hh, g2) := randn_vector (4 * hidden_size) g1 in
  (PremulSubLSTMCell.mkCell input_size hidden_size weight_hh bias_hh, g2).

End Construction.

(** A generator over the real numbers for the instances: the samples are
    [0, 1, 2, ...]. *)
#[export] Instance counting_sampler : Sampler R nat := {|
  draw := fun n => (INR n, S n)
|}.

(** The cells that return and have biases in the place of normalisation. *)
Definition biased_contracts {E : Engine R} : list (Contract R) :=
  [ SubLSTMCell_contract; fixSubLSTMCell_contract; PremulSubLSTMCell_contract ].

(** ** A saturated forget gate

    [fixSubLSTMCell(1, 1)] with its forget parameter set to 200 and the
    other parameters to zero, on one row. *)

Module Saturated.
Open Scope R_scope.

Definition fixedforget : fixSubLSTMCell.cell R :=
  fixSubLSTMCell.mkCell 1 1
    (mkMatrix 3 1 [[0]; [0]; [0]]) (mkMatrix 3 1 [[0]; [0]; [0]])
    [0; 0; 0] [0; 0; 0] [200].

Definition input : Matrix R := mkMatrix 1 1 [[0]].
Definition hx : Matrix R := mkMatrix 1 1 [[0]].
Definition cx : Matrix R := mkMatrix 1 1 [[5]].

End Saturated.

(** * Properties *)

(** ** Tensors built by index *)

Section TensorFacts.
Context {F : Type} {E : Engine F}.

Lemma nth_map_seq (A : Type) (f : nat -> A) (n i : nat) (d : A) :
  i < n -> nth i (map f (seq 0 n)) d = f i.
Proof.
  intros Hi.
  rewrite (nth_indep _ d (f 0)) by (rewrite length_map, length_seq; exact Hi).
  rewrite (map_nth f (seq 0 n) 0 i).
  now rewrite seq_nth.
Qed.

Lemma get_tabulate (r c : nat) (f : nat -> nat -> F) (i j : nat) :
  i < r -> j < c -> get (tabulate r c f) i j = f i j.
Proof.
  intros Hi Hj. unfold get, tabulate; simpl.
  rewrite nth_map_seq by exact Hi.
  now rewrite nth_map_seq.
Qed.

Lemma tabulate_has_shape (r c : nat) (f : nat -> nat -> F) :
  has_shape (tabulate r c f) r c.
Proof.
  unfold has_shape, tabulate; simpl.
  repeat split.
  - now rewrite length_map, length_seq.
  - apply Forall_forall. intros row Hin.
    apply in_map_iff in Hin. destruct Hin as [i [<- _]].
    now rewrite length_map, length_seq.
Qed.

Lemma tabulate_ext (r c : nat) (f g : nat -> nat -> F) :
  (forall i j, i < r -> j < c -> f i j = g i j) ->
  tabulate r c f = tabulate r c g.
Proof.
  intros Hfg. unfold tabulate. f_equal.
  apply map_ext_in. intros i Hi. apply in_seq in Hi.
  apply map_ext_in. intros j Hj. apply in_seq in Hj.
  apply Hfg; lia.
Qed.

(** A well-formed tensor is the table of its entries. *)
Lemma has_shape_tabulate (m : Matrix F) (r c : nat) :
  has_shape m r c -> m = tabulate r c (get m).
Proof.
  destruct m as [nr nc rs]. unfold has_shape, tabulate; simpl.
  intros (-> & -> & Hlen & Hall). f_equal.
  apply (nth_ext _ _ [] []).
  - now rewrite length_map, length_seq.
  - intros i Hi. rewrite Hlen in Hi.
    rewrite nth_map_seq by exact Hi.
    assert (Hrow : length (nth i rs []) = c).
    { rewrite Forall_forall in Hall. apply Hall. apply nth_In. lia. }
    apply (nth_ext _ _ s_zero s_zero).
    + now rewrite length_map, length_seq.
    + intros j Hj. rewrite Hrow in Hj.
      now rewrite nth_map_seq.
Qed.

Lemma bidx_lt (d i : nat) : i < d -> bidx d i = i.
Proof.
  unfold bidx. intros Hi. destruct (Nat.eqb_spec d 1); lia.
Qed.

Lemma broadcast_dim_same (n : nat) : broadcast_dim n n = Ok n.
Proof. unfold broadcast_dim. now rewrite Nat.eqb_refl. Qed.

Lemma broadcast_dim_one (n : nat) : broadcast_dim n 1 = Ok n.
Proof.
  unfold broadcast_dim.
  destruct (Nat.eqb_spec n 1) as [->|Hn]; [reflexivity|].
  reflexivity.
Qed.

Lemma broadcast_dim_one_l (n : nat) : broadcast_dim 1 n = Ok n.
Proof.
  unfold broadcast_dim.
  destruct (Nat.eqb_spec 1 n) as [<-|Hn]; reflexivity.
Qed.

End TensorFacts.

Section ChunkFacts.
Context {F : Type} {E : Engine F}.

Lemma chunk_4 (m : Matrix F) (H : nat) :
  ncols m = 4 * H ->
  chunk m 4 = [narrow m 0 H; narrow m H H; narrow m (2 * H) H; narrow m (3 * H) H].
Proof.
  intros Hc. unfold chunk. rewrite Hc.
  assert (Hs : (4 * H + 4 - 1) / 4 = H)
    by (symmetry; apply Nat.div_unique with 3; lia).
  rewrite Hs. destruct (Nat.eqb_spec H 0) as [->|Hpos].
  - reflexivity.
  - assert (Hn : (4 * H + H - 1) / H = 4)
      by (symmetry; apply Nat.div_unique with (H - 1); lia).
    rewrite Hn. cbn [Nat.max seq map Nat.eqb].
    repeat (f_equal; try lia).
Qed.

Lemma chunk_3 (m : Matrix F) (H : nat) :
  ncols m = 3 * H ->
  chunk m 3 = [narrow m 0 H; narrow m H H; narrow m (2 * H) H].
Proof.
  intros Hc. unfold chunk. rewrite Hc.
  assert (Hs : (3 * H + 3 - 1) / 3 = H)
    by (symmetry; apply Nat.div_unique with 2; lia).
  rewrite Hs. destruct (Nat.eqb_spec H 0) as [->|Hpos].
  - reflexivity.
  - assert (Hn : (3 * H + H - 1) / H = 3)
      by (symmetry; apply Nat.div_unique with (H - 1); lia).
    rewrite Hn. cbn [Nat.max seq map Nat.eqb].
    repeat (f_equal; try lia).
Qed.

End ChunkFacts.

Section OpFacts.
Context {F : Type} {E : Engine F}.

Lemma dot_ext (n : nat) (f f' g g' : nat -> F) :
  (forall k, k < n -> f k = f' k) ->
  (forall k, k < n -> g k = g' k) ->
  dot n f g = dot n f' g'.
Proof.
  intros Hf Hg. unfold dot.
  generalize (@s_zero F E) as acc.
  assert (Hin : forall k, In k (seq 0 n) -> k < n) by (intros k Hk; apply in_seq in Hk; lia).
  induction (seq 0 n) as [|k ks IH]; intros acc; simpl.
  - reflexivity.
  - rewrite Hf, Hg by (apply Hin; now left).
    apply IH. intros k' Hk'. apply Hin. now right.
Qed.

Lemma row_sum_ext (n : nat) (f f' : nat -> F) :
  (forall k, k < n -> f k = f' k) -> row_sum n f = row_sum n f'.
Proof.
  intros Hf. unfold row_sum.
  generalize (@s_zero F E) as acc.
  assert (Hin : forall k, In k (seq 0 n) -> k < n) by (intros k Hk; apply in_seq in Hk; lia).
  induction (seq 0 n) as [|k ks IH]; intros acc; simpl.
  - reflexivity.
  - rewrite Hf by (apply Hin; now left).
    apply IH. intros k' Hk'. apply Hin. now right.
Qed.

Lemma layer_norm_entry_ext (ln : LayerNorm F) (n : nat) (f f' : nat -> F) (j : nat) :
  j < n -> (forall k, k < n -> f k = f' k) ->
  layer_norm_entry ln n f j = layer_norm_entry ln n f' j.
Proof.
  intros Hj Hf. unfold layer_norm_entry, variance, mean.
  rewrite (row_sum_ext f f' Hf). rewrite (Hf j Hj).
  f_equal. f_equal. f_equal. f_equal. f_equal. f_equal.
  apply row_sum_ext. intros k Hk. now rewrite (Hf k Hk).
Qed.

(** [torch.mm(a, w.t())]: rows of [a] against rows of [w]. *)
Lemma mm_t (a w : Matrix F) :
  ncols a = ncols w ->
  mm a (t w) =
  Ok (tabulate (nrows a) (nrows w)
        (fun i j => dot (ncols a) (fun k => get a i k) (fun k => get w j k))).
Proof.
  intros Hc. unfold mm. simpl. rewrite Hc, Nat.eqb_refl. f_equal.
  apply tabulate_ext. intros i j Hi Hj.
  apply dot_ext; intros k Hk; [reflexivity|].
  unfold t. now rewrite get_tabulate.
Qed.

Lemma broadcast2_same (op : F -> F -> F) (a b : Matrix F) :
  nrows a = nrows b -> ncols a = ncols b ->
  broadcast2 op a b =
  Ok (tabulate (nrows a) (ncols a) (fun i j => op (get a i j) (get b i j))).
Proof.
  intros Hr Hc. unfold broadcast2.
  rewrite <- Hr, <- Hc, !broadcast_dim_same. simpl. f_equal.
  apply tabulate_ext. intros i j Hi Hj. now rewrite !bidx_lt.
Qed.

(** [m + v] and [m * v]: the vector is applied to every row. *)
Lemma broadcast2_row (op : F -> F -> F) (a : Matrix F) (v : Vector F) :
  ncols a = length v ->
  broadcast2 op a (of_vector v) =
  Ok (tabulate (nrows a) (ncols a) (fun i j => op (get a i j) (vget v j))).
Proof.
  intros Hc. unfold broadcast2. simpl.
  rewrite <- Hc, broadcast_dim_one, broadcast_dim_same. simpl. f_equal.
  apply tabulate_ext. intros i j Hi Hj.
  now rewrite (bidx_lt Hi), (bidx_lt Hj).
Qed.

Lemma broadcast2_row_l (op : F -> F -> F) (v : Vector F) (a : Matrix F) :
  length v = ncols a ->
  broadcast2 op (of_vector v) a =
  Ok (tabulate (nrows a) (ncols a) (fun i j => op (vget v j) (get a i j))).
Proof.
  intros Hc. unfold broadcast2. simpl.
  rewrite Hc, broadcast_dim_one_l, broadcast_dim_same. simpl. f_equal.
  apply tabulate_ext. intros i j Hi Hj.
  now rewrite (bidx_lt Hi), (bidx_lt Hj).
Qed.

Lemma LayerNorm_forward_ok (ln : LayerNorm F) (x : Matrix F) :
  ncols x = normalized_shape ln ->
  LayerNorm_forward ln x =
  Ok (tabulate (nrows x) (ncols x)
        (fun i j => layer_norm_entry ln (ncols x) (fun k => get x i k) j)).
Proof.
  intros Hc. unfold LayerNorm_forward. now rewrite Hc, Nat.eqb_refl.
Qed.

Lemma get_narrow (m : Matrix F) (start len i j : nat) :
  i < nrows m -> j < len -> get (narrow m start len) i j = get m i (start + j).
Proof. intros Hi Hj. unfold narrow. now rewrite get_tabulate. Qed.

End OpFacts.

(** Reads every entry of a table built by index, within its bounds. *)
Ltac entries :=
  repeat first [ rewrite get_tabulate by (simpl; lia)
               | rewrite get_narrow by (simpl; lia) ].

(** Splits the equation of two results [(hy, (hy, cy))] into their tables. *)
Ltac tables :=
  apply f_equal; apply f_equal2; [|apply f_equal2];
  apply tabulate_ext; intros ? ? ? ?.

(** ** The statements after the gates *)

Section Tails.
Context {F : Type} {E : Engine F}.
Variables B H : nat.
Variable G : nat -> nat -> F.
Variable cx : Matrix F.
Hypothesis Hcx : has_shape cx B H.


Lemma tail4 :
  ('(ingate, forgetgate, cellgate, outgate) <-
      unpack4 (chunk (tabulate B (4 * H) G) 4);;
   retained <- mmul forgetgate cx;;
   contribution <- msub cellgate ingate;;
   cy <- madd retained contribution;;
   hy <- msub (mtanh cy) outgate;;
   Ok (hy, (hy, cy))) =
  Ok (tabulate B H (hidden4 H G (cell4 H G cx)),
      (tabulate B H (hidden4 H G (cell4 H G cx)), tabulate B H (cell4 H G cx))).
Proof.
  destruct Hcx as (Cr & Cc & _).
  rewrite (chunk_4 (tabulate B (4 * H) G) H) by reflexivity.
  cbn [unpack4 bind].
  unfold mmul, msub, madd.
  rewrite broadcast2_same by (simpl; congruence). cbn [bind].
  rewrite broadcast2_same by reflexivity. cbn [bind].
  rewrite broadcast2_same by reflexivity. cbn [bind].
  rewrite broadcast2_same by reflexivity. cbn [bind].
  unfold mtanh, map_matrix. cbn [nrows ncols tabulate narrow].
  tables; entries; reflexivity.
Qed.

Lemma tail4_norm (ln : LayerNorm F) :
  normalized_shape ln = H ->
  ('(ingate, forgetgate, cellgate, outgate) <-
      unpack4 (chunk (tabulate B (4 * H) G) 4);;
   retained <- mmul forgetgate cx;;
   contribution <- msub cellgate ingate;;
   pre <- madd retained contribution;;
   cy <- LayerNorm_forward ln pre;;
   hy <- msub (mtanh cy) outgate;;
   Ok (hy, cy)) =
  Ok (tabulate B H (hidden4 H G (normed H ln (cell4 H G cx))),
      tabulate B H (normed H ln (cell4 H G cx))).
Proof.
  intros Hln. destruct Hcx as (Cr & Cc & _).
  rewrite (chunk_4 (tabulate B (4 * H) G) H) by reflexivity.
  cbn [unpack4 bind].
  unfold mmul, msub, madd.
  rewrite broadcast2_same by (simpl; congruence). cbn [bind].
  rewrite broadcast2_same by reflexivity. cbn [bind].
  rewrite broadcast2_same by reflexivity. cbn [bind].
  rewrite LayerNorm_forward_ok by (simpl; congruence). cbn [bind].
  rewrite broadcast2_same by reflexivity. cbn [bind].
  unfold mtanh, map_matrix. cbn [nrows ncols tabulate narrow].
  assert (Hc : forall i j, i < B -> j < H ->
    layer_norm_entry ln H
      (fun k => get (tabulate B H (fun i0 j0 =>
         s_add
           (get (tabulate B H (fun i1 j1 =>
              s_mul (get (narrow (tabulate B (4 * H) G) H H) i1 j1) (get cx i1 j1)))
              i0 j0)
           (get (tabulate B H (fun i1 j1 =>
              s_sub (get (narrow (tabulate B (4 * H) G) (2 * H) H) i1 j1)
                    (get (narrow (tabulate B (4 * H) G) 0 H) i1 j1)))
              i0 j0))) i k) j
    = normed H ln (cell4 H G cx) i j).
  { intros i j Hi Hj. unfold normed.
    apply layer_norm_entry_ext; [exact Hj|].
    intros k Hk. entries. reflexivity. }
  apply f_equal, f_equal2; apply tabulate_ext; intros i j Hi Hj; entries.
  - unfold hidden4. now rewrite Hc.
  - now apply Hc.
Qed.

Lemma vget_vsigmoid (fg : Vector F) (j : nat) :
  j < length fg -> vget (vsigmoid fg) j = s_sigmoid (vget fg j).
Proof.
  intros Hj. unfold vget, vsigmoid.
  rewrite (nth_indep _ s_zero (s_sigmoid s_zero)) by (now rewrite length_map).
  apply map_nth.
Qed.

Lemma tail3 (fg : Vector F) :
  length fg = H ->
  ('(ingate, cellgate, outgate) <- unpack3 (chunk (tabulate B (3 * H) G) 3);;
   retained <- vmul_m (vsigmoid fg) cx;;
   contribution <- msub cellgate ingate;;
   cy <- madd retained contribution;;
   hy <- msub (mtanh cy) outgate;;
   Ok (hy, (hy, cy))) =
  Ok (tabulate B H (hidden3 H G (cell3 H G cx fg)),
      (tabulate B H (hidden3 H G (cell3 H G cx fg)),
       tabulate B H (cell3 H G cx fg))).
Proof.
  intros Hfg. destruct Hcx as (Cr & Cc & _).
  rewrite (chunk_3 (tabulate B (3 * H) G) H) by reflexivity.
  cbn [unpack3 bind].
  unfold vmul_m, mmul, msub, madd.
  rewrite broadcast2_row_l by (unfold vsigmoid; rewrite length_map; congruence).
  cbn [bind].
  rewrite broadcast2_same by reflexivity. cbn [bind].
  rewrite broadcast2_same by (simpl; congruence). cbn [bind].
  rewrite broadcast2_same by (simpl; congruence). cbn [bind].
  unfold mtanh, map_matrix. cbn [nrows ncols tabulate narrow].
  rewrite Cr, Cc.
  tables; entries; unfold hidden3, cell3;
    rewrite vget_vsigmoid by lia; reflexivity.
Qed.

Lemma tail3_norm (fg : Vector F) (ln : LayerNorm F) :
  length fg = H ->
  normalized_shape ln = H ->
  ('(ingate, cellgate, outgate) <- unpack3 (chunk (tabulate B (3 * H) G) 3);;
   retained <- vmul_m (vsigmoid fg) cx;;
   contribution <- msub cellgate ingate;;
   pre <- madd retained contribution;;
   cy <- LayerNorm_forward ln pre;;
   hy <- msub (mtanh cy) outgate;;
   Ok (hy, (hy, cy))) =
  Ok (tabulate B H (hidden3 H G (normed H ln (cell3 H G cx fg))),
      (tabulate B H (hidden3 H G (normed H ln (cell3 H G cx fg))),
       tabulate B H (normed H ln (cell3 H G cx fg)))).
Proof.
  intros Hfg Hln. destruct Hcx as (Cr & Cc & _).
  rewrite (chunk_3 (tabulate B (3 * H) G) H) by reflexivity.
  cbn [unpack3 bind].
  unfold vmul_m, mmul, msub, madd.
  rewrite broadcast2_row_l by (unfold vsigmoid; rewrite length_map; congruence).
  cbn [bind].
  rewrite broadcast2_same by reflexivity. cbn [bind].
  rewrite broadcast2_same by (simpl; congruence). cbn [bind].
  rewrite LayerNorm_forward_ok by (simpl; congruence). cbn [bind].
  rewrite broadcast2_same by (simpl; congruence). cbn [bind].
  unfold mtanh, map_matrix. cbn [nrows ncols tabulate narrow].
  rewrite Cr, Cc.
  assert (Hc : forall i j, i < B -> j < H ->
    layer_norm_entry ln H
      (fun k => get (tabulate B H (fun i0 j0 =>
         s_add
           (get (tabulate B H (fun i1 j1 =>
              s_mul (vget (vsigmoid fg) j1) (get cx i1 j1))) i0 j0)
           (get (tabulate B H (fun i1 j1 =>
              s_sub (get (narrow (tabulate B (3 * H) G) H H) i1 j1)
                    (get (narrow (tabulate B (3 * H) G) 0 H) i1 j1)))
              i0 j0))) i k) j
    = normed H ln (cell3 H G cx fg) i j).
  { intros i j Hi Hj. unfold normed.
    apply layer_norm_entry_ext; [exact Hj|].
    intros k Hk. entries. unfold cell3. now rewrite vget_vsigmoid by lia. }
  tables; entries.
  - unfold hidden3. now rewrite Hc.
  - unfold hidden3. now rewrite Hc.
  - now apply Hc.
Qed.

End Tails.

(** ** The four-gate cell with biases *)

Section BasicCell.
Context {F : Type} {E : Engine F}.
Variable self : SubLSTMCell.cell F.
Variables input hx cx : Matrix F.
Variable B : nat.
Hypothesis Hinit : SubLSTMCell.initialized self.
Hypothesis Hinput : has_shape input B (SubLSTMCell.input_size self).
Hypothesis Hhx : has_shape hx B (SubLSTMCell.hidden_size self).
Hypothesis Hcx : has_shape cx B (SubLSTMCell.hidden_size self).

Lemma SubLSTMCell_gates_table :
  SubLSTMCell.gates self input hx =
  Ok (tabulate B (4 * SubLSTMCell.hidden_size self)
        (BasicCell_spec.gates self input hx)).
Proof.
  destruct Hinit as ((Wr & Wc & _) & (Vr & Vc & _) & Lih & Lhh).
  destruct Hinput as (Xr & Xc & _), Hhx as (Hr & Hc & _).
  unfold SubLSTMCell.gates.
  rewrite mm_t by congruence. cbn [bind].
  unfold madd_v, madd.
  rewrite broadcast2_row by (simpl; congruence). cbn [bind].
  rewrite mm_t by congruence. cbn [bind].
  rewrite broadcast2_same by (simpl; congruence). cbn [bind].
  rewrite broadcast2_row by (simpl; congruence). cbn [bind].
  unfold msigmoid, map_matrix. cbn [nrows ncols tabulate].
  rewrite Xr, Wr, Hr, Vr, Xc, Hc. f_equal. apply tabulate_ext. intros b k Hb Hk.
  now rewrite !get_tabulate by assumption.
Qed.

Lemma SubLSTMCell_forward_table :
  SubLSTMCell.forward self input (hx, cx) =
  Ok (BasicCell_spec.update self input hx cx B).
Proof.
  unfold SubLSTMCell.forward. rewrite SubLSTMCell_gates_table. cbn [bind].
  apply (tail4 (BasicCell_spec.gates self input hx) Hcx).
Qed.

End BasicCell.

(** ** The four-gate cell on a precomputed projection *)

Section PrefusedCell.
Context {F : Type} {E : Engine F}.
Variable self : PremulSubLSTMCell.cell F.
Variables premul_input hx cx : Matrix F.
Variable B : nat.
Hypothesis Hinit : PremulSubLSTMCell.initialized self.
Hypothesis Hinput : has_shape premul_input B (4 * PremulSubLSTMCell.hidden_size self).
Hypothesis Hhx : has_shape hx B (PremulSubLSTMCell.hidden_size self).
Hypothesis Hcx : has_shape cx B (PremulSubLSTMCell.hidden_size self).

Lemma PremulSubLSTMCell_gates_table :
  PremulSubLSTMCell.gates self premul_input hx =
  Ok (tabulate B (4 * PremulSubLSTMCell.hidden_size self)
        (PrefusedCell_spec.gates self premul_input hx)).
Proof.
  destruct Hinit as ((Vr & Vc & _) & Lhh).
  destruct Hinput as (Xr & Xc & _), Hhx as (Hr & Hc & _).
  unfold PremulSubLSTMCell.gates.
  rewrite mm_t by congruence. cbn [bind].
  unfold madd_v, madd.
  rewrite broadcast2_same by (simpl; congruence). cbn [bind].
  rewrite broadcast2_row by (simpl; congruence). cbn [bind].
  unfold msigmoid, map_matrix. cbn [nrows ncols tabulate].
  rewrite Xr, Xc, Hr, Vr, Hc. f_equal. apply tabulate_ext. intros b k Hb Hk.
  now rewrite !get_tabulate by assumption.
Qed.

Lemma PremulSubLSTMCell_forward_table :
  PremulSubLSTMCell.forward self premul_input (hx, cx) =
  Ok (PrefusedCell_spec.update self premul_input hx cx B).
Proof.
  unfold PremulSubLSTMCell.forward. rewrite PremulSubLSTMCell_gates_table.
  cbn [bind].
  apply (tail4 (PrefusedCell_spec.gates self premul_input hx) Hcx).
Qed.

End PrefusedCell.

(** ** The three-gate cell with a fixed forget vector *)

Section FixedForgetCell.
Context {F : Type} {E : Engine F}.
Variable self : fixSubLSTMCell.cell F.
Variables input hx cx : Matrix F.
Variable B : nat.
Hypothesis Hinit : fixSubLSTMCell.initialized self.
Hypothesis Hinput : has_shape input B (fixSubLSTMCell.input_size self).
Hypothesis Hhx : has_shape hx B (fixSubLSTMCell.hidden_size self).
Hypothesis Hcx : has_shape cx B (fixSubLSTMCell.hidden_size self).

Lemma fixSubLSTMCell_gates_table :
  fixSubLSTMCell.gates self input hx =
  Ok (tabulate B (3 * fixSubLSTMCell.hidden_size self)
        (FixedForgetCell_spec.gates self input hx)).
Proof.
  destruct Hinit as ((Wr & Wc & _) & (Vr & Vc & _) & Lih & Lhh & _).
  destruct Hinput as (Xr & Xc & _), Hhx as (Hr & Hc & _).
  unfold fixSubLSTMCell.gates.
  rewrite mm_t by congruence. cbn [bind].
  unfold madd_v, madd.
  rewrite broadcast2_row by (simpl; congruence). cbn [bind].
  rewrite mm_t by congruence. cbn [bind].
  rewrite broadcast2_same by (simpl; congruence). cbn [bind].
  rewrite broadcast2_row by (simpl; congruence). cbn [bind].
  unfold msigmoid, map_matrix. cbn [nrows ncols tabulate].
  rewrite Xr, Wr, Hr, Vr, Xc, Hc. f_equal. apply tabulate_ext. intros b k Hb Hk.
  now rewrite !get_tabulate by assumption.
Qed.

Lemma fixSubLSTMCell_forward_table :
  fixSubLSTMCell.forward self input (hx, cx) =
  Ok (FixedForgetCell_spec.update self input hx cx B).
Proof.
  unfold fixSubLSTMCell.forward. rewrite fixSubLSTMCell_gates_table. cbn [bind].
  apply (tail3 (FixedForgetCell_spec.gates self input hx) Hcx).
  apply Hinit.
Qed.

End FixedForgetCell.

(** ** The normalised cells *)

Section NormalizedCell.
Context {F : Type} {E : Engine F}.
Variable self : LayerNormSubLSTMCell.cell F.
Variables input hx cx : Matrix F.
Variable B : nat.
Hypothesis Hinit : LayerNormSubLSTMCell.initialized self.
Hypothesis Hinput : has_shape input B (LayerNormSubLSTMCell.input_size self).
Hypothesis Hhx : has_shape hx B (LayerNormSubLSTMCell.hidden_size self).
Hypothesis Hcx : has_shape cx B (LayerNormSubLSTMCell.hidden_size self).

Lemma LayerNormSubLSTMCell_gates_table :
  LayerNormSubLSTMCell.gates self input hx =
  Ok (tabulate B (4 * LayerNormSubLSTMCell.hidden_size self)
        (NormalizedCell_spec.gates self input hx)).
Proof.
  destruct Hinit as ((Wr & Wc & _) & (Vr & Vc & _) & (Ni & _) & (Nh & _) & _).
  destruct Hinput as (Xr & Xc & _), Hhx as (Hr & Hc & _).
  unfold LayerNormSubLSTMCell.gates.
  rewrite mm_t by congruence. cbn [bind].
  rewrite LayerNorm_forward_ok by (simpl; congruence). cbn [bind].
  rewrite mm_t by congruence. cbn [bind].
  rewrite LayerNorm_forward_ok by (simpl; congruence). cbn [bind].
  unfold madd.
  rewrite broadcast2_same by (simpl; congruence). cbn [bind].
  unfold msigmoid, map_matrix. cbn [nrows ncols tabulate].
  rewrite Xr, Wr, Hr, Vr, Xc, Hc. f_equal. apply tabulate_ext. intros b k Hb Hk.
  rewrite !get_tabulate by assumption.
  unfold NormalizedCell_spec.gates, NormalizedCell_spec.igates,
    NormalizedCell_spec.hgates, NormalizedCell_spec.Norm_i,
    NormalizedCell_spec.Norm_h.
  f_equal. f_equal; (apply layer_norm_entry_ext; [exact Hk|]);
    intros k' Hk'; now rewrite get_tabulate.
Qed.

Lemma LayerNormSubLSTMCell_locals_table :
  LayerNormSubLSTMCell.locals self input (hx, cx) =
  Ok (tabulate B (LayerNormSubLSTMCell.hidden_size self)
        (NormalizedCell_spec.h_new self input hx cx),
      tabulate B (LayerNormSubLSTMCell.hidden_size self)
        (NormalizedCell_spec.c_new self input hx cx)).
Proof.
  unfold LayerNormSubLSTMCell.locals.
  rewrite LayerNormSubLSTMCell_gates_table. cbn [bind].
  apply (tail4_norm (NormalizedCell_spec.gates self input hx) Hcx).
  apply Hinit.
Qed.

End NormalizedCell.

Section NormalizedFixedForgetCell.
Context {F : Type} {E : Engine F}.
Variable self : LayerNormFixSubLSTMCell.cell F.
Variables input hx cx : Matrix F.
Variable B : nat.
Hypothesis Hinit : LayerNormFixSubLSTMCell.initialized self.
Hypothesis Hinput : has_shape input B (LayerNormFixSubLSTMCell.input_size self).
Hypothesis Hhx : has_shape hx B (LayerNormFixSubLSTMCell.hidden_size self).
Hypothesis Hcx : has_shape cx B (LayerNormFixSubLSTMCell.hidden_size self).

Lemma LayerNormFixSubLSTMCell_gates_table :
  LayerNormFixSubLSTMCell.gates self input hx =
  Ok (tabulate B (3 * LayerNormFixSubLSTMCell.hidden_size self)
        (NormalizedFixedForgetCell_spec.gates self input hx)).
Proof.
  destruct Hinit as ((Wr & Wc & _) & (Vr & Vc & _) & _ & (Ni & _) & (Nh & _) & _).
  destruct Hinput as (Xr & Xc & _), Hhx as (Hr & Hc & _).
  unfold LayerNormFixSubLSTMCell.gates.
  rewrite mm_t by congruence. cbn [bind].
  rewrite LayerNorm_forward_ok by (simpl; congruence). cbn [bind].
  rewrite mm_t by congruence. cbn [bind].
  rewrite LayerNorm_forward_ok by (simpl; congruence). cbn [bind].
  unfold madd.
  rewrite broadcast2_same by (simpl; congruence). cbn [bind].
  unfold msigmoid, map_matrix. cbn [nrows ncols tabulate].
  rewrite Xr, Wr, Hr, Vr, Xc, Hc. f_equal. apply tabulate_ext. intros b k Hb Hk.
  rewrite !get_tabulate by assumption.
  unfold NormalizedFixedForgetCell_spec.gates,
    NormalizedFixedForgetCell_spec.Norm_i, NormalizedFixedForgetCell_spec.Norm_h.
  f_equal. f_equal; (apply layer_norm_entry_ext; [exact Hk|]);
    intros k' Hk'; now rewrite get_tabulate.
Qed.

Lemma LayerNormFixSubLSTMCell_forward_table :
  LayerNormFixSubLSTMCell.forward self input (hx, cx) =
  Ok (NormalizedFixedForgetCell_spec.update self input hx cx B).
Proof.
  unfold LayerNormFixSubLSTMCell.forward.
  rewrite LayerNormFixSubLSTMCell_gates_table. cbn [bind].
  apply (tail3_norm (NormalizedFixedForgetCell_spec.gates self input hx) Hcx).
  - apply Hinit.
  - apply Hinit.
Qed.

End NormalizedFixedForgetCell.

(** ** The cells on given shapes

    What the engine accepts and refuses, whatever the entries. *)

Section Runs.
Context {F : Type} {E : Engine F}.
Import Zeros.

(** The shapes of the contract, [B = 3]. *)
Example SubLSTMCell_forward_runs :
  is_ok (SubLSTMCell.forward basic (zeros 3 2) (zeros 3 2, zeros 3 2)) = true.
Proof. reflexivity. Qed.

(** An input of the wrong width is refused by [torch.mm]. *)
Example SubLSTMCell_forward_wrong_input :
  SubLSTMCell.forward basic (zeros 3 5) (zeros 3 2, zeros 3 2) =
  Err RuntimeError.
Proof. reflexivity. Qed.

(** A hidden state of another batch size is refused by [+]. *)
Example SubLSTMCell_forward_wrong_batch :
  SubLSTMCell.forward basic (zeros 3 2) (zeros 2 2, zeros 3 2) =
  Err RuntimeError.
Proof. reflexivity. Qed.

(** A cell state of the wrong width is refused by [*]. *)
Example SubLSTMCell_forward_wrong_cell :
  SubLSTMCell.forward basic (zeros 3 2) (zeros 3 2, zeros 3 5) =
  Err RuntimeError.
Proof. reflexivity. Qed.

(** A hidden state of one row is broadcast over the batch. *)
Example SubLSTMCell_forward_broadcasts :
  is_ok (SubLSTMCell.forward basic (zeros 3 2) (zeros 1 2, zeros 3 2)) = true.
Proof. reflexivity. Qed.

(** So is a precomputed projection of one column. *)
Example PremulSubLSTMCell_forward_broadcasts :
  is_ok (PremulSubLSTMCell.forward prefused (zeros 3 1) (zeros 3 2, zeros 3 2))
  = true.
Proof. reflexivity. Qed.

(** [chunk]: seven columns in four pieces, six columns in three, and four
    empty pieces of an empty width. *)
Example chunk_seven_columns :
  map ncols (chunk (zeros 3 7) 4) = [2; 2; 2; 1].
Proof. reflexivity. Qed.

Example chunk_six_columns :
  map ncols (chunk (zeros 3 6) 4) = [2; 2; 2] /\
  unpack4 (chunk (zeros 3 6) 4) = Err ValueError.
Proof. split; reflexivity. Qed.

Example chunk_no_column :
  map ncols (chunk (zeros 3 0) 4) = [0; 0; 0; 0].
Proof. reflexivity. Qed.

End Runs.

(** Shapes of explicit tensors are checked by computation. *)
Ltac shape := repeat split; repeat constructor.

(** ** Slices of a table of gates *)

Section Slices.
Context {F : Type} {E : Engine F}.

Lemma narrow_tabulate (r c : nat) (G : nat -> nat -> F) (start len : nat) :
  start + len <= c ->
  narrow (tabulate r c G) start len = tabulate r len (fun i j => G i (start + j)).
Proof.
  intros Hle. unfold narrow. cbn [nrows]. apply tabulate_ext.
  intros i j Hi Hj. now rewrite get_tabulate by lia.
Qed.

Lemma chunk_4_tabulate (B H : nat) (G : nat -> nat -> F) :
  chunk (tabulate B (4 * H) G) 4 =
  [tabulate B H (fun b j => G b j);
   tabulate B H (fun b j => G b (H + j));
   tabulate B H (fun b j => G b (2 * H + j));
   tabulate B H (fun b j => G b (3 * H + j))].
Proof.
  rewrite (chunk_4 (tabulate B (4 * H) G) H) by reflexivity.
  now rewrite !narrow_tabulate by lia.
Qed.

Lemma chunk_3_tabulate (B H : nat) (G : nat -> nat -> F) :
  chunk (tabulate B (3 * H) G) 3 =
  [tabulate B H (fun b j => G b j);
   tabulate B H (fun b j => G b (H + j));
   tabulate B H (fun b j => G b (2 * H + j))].
Proof.
  rewrite (chunk_3 (tabulate B (3 * H) G) H) by reflexivity.
  now rewrite !narrow_tabulate by lia.
Qed.

End Slices.

(** ** The update rule of [SubLSTMCell] *)

(** C1. For an input of shape [B, I] and a state pair of shape [B, H],
    [SubLSTMCell.forward] computes the gates as the sigmoid of
    [input·Wih^T + bias_ih + h_prev·Whh^T + bias_hh], splits them into the
    four equal slices [i, f, g, o] in that order, and returns
    [c_new = f ⊙ c_prev + (g − i)] and [h_new = tanh(c_new) − o]. *)
Theorem SubLSTMCell_forward_spec (F : Type) (E : Engine F)
  (self : SubLSTMCell.cell F) (input hx cx : Matrix F) (B : nat) :
  SubLSTMCell.initialized self ->
  has_shape input B (SubLSTMCell.input_size self) ->
  has_shape hx B (SubLSTMCell.hidden_size self) ->
  has_shape cx B (SubLSTMCell.hidden_size self) ->
  let H := SubLSTMCell.hidden_size self in
  let gates := tabulate B (4 * H) (BasicCell_spec.gates self input hx) in
  SubLSTMCell.gates self input hx = Ok gates /\
  chunk gates 4 =
    [tabulate B H (BasicCell_spec.i self input hx);
     tabulate B H (BasicCell_spec.f self input hx);
     tabulate B H (BasicCell_spec.g self input hx);
     tabulate B H (BasicCell_spec.o self input hx)] /\
  SubLSTMCell.forward self input (hx, cx) =
    Ok (tabulate B H (BasicCell_spec.h_new self input hx cx),
        (tabulate B H (BasicCell_spec.h_new self input hx cx),
         tabulate B H (BasicCell_spec.c_new self input hx cx))).
Proof.
  intros Hinit Hinput Hhx Hcx H gates. repeat split.
  - now apply SubLSTMCell_gates_table.
  - apply chunk_4_tabulate.
  - now apply SubLSTMCell_forward_table.
Qed.

Lemma SubLSTMCell_forward_spec_witness :
  SubLSTMCell.forward Example.basic Example.input (Example.hx, Example.cx) =
  Ok (BasicCell_spec.update Example.basic Example.input Example.hx Example.cx 2).
Proof.
  apply (@SubLSTMCell_forward_spec R R_engine Example.basic
           Example.input Example.hx Example.cx 2); shape.
Defined.

(** ** The update rule of [fixSubLSTMCell] *)

(** C5. For an input of shape [B, I] and a state pair of shape [B, H],
    [fixSubLSTMCell.forward] computes a gate tensor of three slices
    [i, g, o], the sigmoid of
    [input·Wih^T + bias_ih + h_prev·Whh^T + bias_hh], and returns
    [c_new = sigmoid(fg) ⊙ c_prev + (g − i)] and [h_new = tanh(c_new) − o];
    [fg] is the stored vector of [H] entries, the same for every row, and
    its sigmoid is taken in the call. *)
Theorem fixSubLSTMCell_forward_spec (F : Type) (E : Engine F)
  (self : fixSubLSTMCell.cell F) (input hx cx : Matrix F) (B : nat) :
  fixSubLSTMCell.initialized self ->
  has_shape input B (fixSubLSTMCell.input_size self) ->
  has_shape hx B (fixSubLSTMCell.hidden_size self) ->
  has_shape cx B (fixSubLSTMCell.hidden_size self) ->
  let H := fixSubLSTMCell.hidden_size self in
  let gates := tabulate B (3 * H) (FixedForgetCell_spec.gates self input hx) in
  fixSubLSTMCell.gates self input hx = Ok gates /\
  chunk gates 3 =
    [tabulate B H (FixedForgetCell_spec.i self input hx);
     tabulate B H (FixedForgetCell_spec.g self input hx);
     tabulate B H (FixedForgetCell_spec.o self input hx)] /\
  length (fixSubLSTMCell.forgetgate self) = H /\
  fixSubLSTMCell.forward self input (hx, cx) =
    Ok (tabulate B H (FixedForgetCell_spec.h_new self input hx cx),
        (tabulate B H (FixedForgetCell_spec.h_new self input hx cx),
         tabulate B H (FixedForgetCell_spec.c_new self input hx cx))).
Proof.
  intros Hinit Hinput Hhx Hcx H gates. repeat split.
  - now apply fixSubLSTMCell_gates_table.
  - apply chunk_3_tabulate.
  - apply Hinit.
  - now apply fixSubLSTMCell_forward_table.
Qed.

Lemma fixSubLSTMCell_forward_spec_witness :
  fixSubLSTMCell.forward Example.fixedforget Example.input
    (Example.hx, Example.cx) =
  Ok (FixedForgetCell_spec.update Example.fixedforget
        Example.input Example.hx Example.cx 2).
Proof.
  apply (@fixSubLSTMCell_forward_spec R R_engine Example.fixedforget
           Example.input Example.hx Example.cx 2); shape.
Defined.

(** ** The computation of [LayerNormSubLSTMCell] *)

(** C6. For an input of shape [B, I] and a state pair of shape [B, H],
    [LayerNormSubLSTMCell.forward] computes in its locals [cy] and [hy] the
    [c_new = Norm_c(f ⊙ c_prev + (g − i))] and [h_new = tanh(c_new) − o] of
    the update, from [gates = sigmoid(Norm_i(input·Wih^T) +
    Norm_h(h_prev·Whh^T))] split into [i, f, g, o]; and it returns neither:
    the call ends in the [TypeError] of its [return] statement, so that no
    caller receives the update. *)
Theorem LayerNormSubLSTMCell_forward_loses_update (F : Type) (E : Engine F)
  (self : LayerNormSubLSTMCell.cell F) (input hx cx : Matrix F) (B : nat) :
  LayerNormSubLSTMCell.initialized self ->
  has_shape input B (LayerNormSubLSTMCell.input_size self) ->
  has_shape hx B (LayerNormSubLSTMCell.hidden_size self) ->
  has_shape cx B (LayerNormSubLSTMCell.hidden_size self) ->
  let H := LayerNormSubLSTMCell.hidden_size self in
  let hy := tabulate B H (NormalizedCell_spec.h_new self input hx cx) in
  let cy := tabulate B H (NormalizedCell_spec.c_new self input hx cx) in
  LayerNormSubLSTMCell.locals self input (hx, cx) = Ok (hy, cy) /\
  LayerNormSubLSTMCell.forward self input (hx, cx) = Err TypeError /\
  LayerNormSubLSTMCell.forward self input (hx, cx) <> Ok (hy, (hy, cy)).
Proof.
  intros Hinit Hinput Hhx Hcx H hy cy.
  assert (Hloc : LayerNormSubLSTMCell.locals self input (hx, cx) = Ok (hy, cy))
    by now apply LayerNormSubLSTMCell_locals_table.
  assert (Hfwd : LayerNormSubLSTMCell.forward self input (hx, cx) =
                 Err TypeError).
  { unfold LayerNormSubLSTMCell.forward. now rewrite Hloc. }
  split; [exact Hloc|]. split; [exact Hfwd|].
  rewrite Hfwd. discriminate.
Qed.

Lemma LayerNormSubLSTMCell_forward_loses_update_witness :
  let hy := tabulate 2 2 (NormalizedCell_spec.h_new Sample.normalized
                            Sample.input Sample.hx Sample.cx) in
  let cy := tabulate 2 2 (NormalizedCell_spec.c_new Sample.normalized
                            Sample.input Sample.hx Sample.cx) in
  LayerNormSubLSTMCell.locals Sample.normalized Sample.input
    (Sample.hx, Sample.cx) = Ok (hy, cy) /\
  LayerNormSubLSTMCell.forward Sample.normalized Sample.input
    (Sample.hx, Sample.cx) = Err TypeError /\
  LayerNormSubLSTMCell.forward Sample.normalized Sample.input
    (Sample.hx, Sample.cx) <> Ok (hy, (hy, cy)).
Proof.
  apply (@LayerNormSubLSTMCell_forward_loses_update R R_engine
           Sample.normalized Sample.input Sample.hx Sample.cx 2); shape.
Defined.

(** ** The [return] statement of [LayerNormSubLSTMCell] *)

Lemma LayerNormSubLSTMCell_forward_raises (F : Type) (E : Engine F)
  (self : LayerNormSubLSTMCell.cell F) (input hx cx : Matrix F) (B : nat) :
  LayerNormSubLSTMCell.initialized self ->
  has_shape input B (LayerNormSubLSTMCell.input_size self) ->
  has_shape hx B (LayerNormSubLSTMCell.hidden_size self) ->
  has_shape cx B (LayerNormSubLSTMCell.hidden_size self) ->
  LayerNormSubLSTMCell.forward self input (hx, cx) = Err TypeError.
Proof.
  intros Hinit Hinput Hhx Hcx. unfold LayerNormSubLSTMCell.forward.
  now rewrite (LayerNormSubLSTMCell_locals_table Hinit Hinput Hhx Hcx).
Qed.

(** C2. Against the form [(h_new, (h_new, c_new))] of the result in every
    variant: [LayerNormSubLSTMCell.forward] returns no pair at all, whatever
    its arguments, because its [return] statement calls the tensor [hy]. *)
Theorem LayerNormSubLSTMCell_forward_returns_no_pair (F : Type) (E : Engine F)
  (self : LayerNormSubLSTMCell.cell F) (input : Matrix F)
  (state : Matrix F * Matrix F) :
  is_ok (LayerNormSubLSTMCell.forward self input state) = false.
Proof.
  unfold LayerNormSubLSTMCell.forward.
  destruct (LayerNormSubLSTMCell.locals self input state) as [[hy cy]|e];
    reflexivity.
Qed.

(** C3. With tensors of the shapes of the contract,
    [LayerNormSubLSTMCell.forward] ends in a [TypeError]: a failure that is
    no shape violation of the caller. *)
Theorem LayerNormSubLSTMCell_forward_fails_on_conforming_shapes
  (F : Type) (E : Engine F)
  (self : LayerNormSubLSTMCell.cell F) (input hx cx : Matrix F) (B : nat) :
  LayerNormSubLSTMCell.initialized self ->
  has_shape input B (LayerNormSubLSTMCell.input_size self) ->
  has_shape hx B (LayerNormSubLSTMCell.hidden_size self) ->
  has_shape cx B (LayerNormSubLSTMCell.hidden_size self) ->
  LayerNormSubLSTMCell.forward self input (hx, cx) = Err TypeError.
Proof. apply LayerNormSubLSTMCell_forward_raises. Qed.

Lemma LayerNormSubLSTMCell_forward_fails_on_conforming_shapes_witness :
  LayerNormSubLSTMCell.forward Example.normalized Example.input
    (Example.hx, Example.cx) = Err TypeError.
Proof.
  apply (@LayerNormSubLSTMCell_forward_fails_on_conforming_shapes R R_engine
           Example.normalized Example.input Example.hx Example.cx 2); shape.
Defined.

(** ** Shapes of the results *)

Section Shapes.
Context {F : Type} {E : Engine F}.
Variables input hx cx : Matrix F.
Variable B : nat.

(** The four cells that return do so with [hy] and [cy] of shape [B, H]. *)
Lemma SubLSTMCell_forward_shape (self : SubLSTMCell.cell F) :
  SubLSTMCell.initialized self ->
  has_shape input B (SubLSTMCell.input_size self) ->
  has_shape hx B (SubLSTMCell.hidden_size self) ->
  has_shape cx B (SubLSTMCell.hidden_size self) ->
  exists hy cy,
    SubLSTMCell.forward self input (hx, cx) = Ok (hy, (hy, cy)) /\
    has_shape hy B (SubLSTMCell.hidden_size self) /\
    has_shape cy B (SubLSTMCell.hidden_size self).
Proof.
  intros Hinit Hinput Hhx Hcx. eexists; eexists; split.
  - exact (SubLSTMCell_forward_table Hinit Hinput Hhx Hcx).
  - split; apply tabulate_has_shape.
Qed.

Lemma fixSubLSTMCell_forward_shape (self : fixSubLSTMCell.cell F) :
  fixSubLSTMCell.initialized self ->
  has_shape input B (fixSubLSTMCell.input_size self) ->
  has_shape hx B (fixSubLSTMCell.hidden_size self) ->
  has_shape cx B (fixSubLSTMCell.hidden_size self) ->
  exists hy cy,
    fixSubLSTMCell.forward self input (hx, cx) = Ok (hy, (hy, cy)) /\
    has_shape hy B (fixSubLSTMCell.hidden_size self) /\
    has_shape cy B (fixSubLSTMCell.hidden_size self).
Proof.
  intros Hinit Hinput Hhx Hcx. eexists; eexists; split.
  - exact (fixSubLSTMCell_forward_table Hinit Hinput Hhx Hcx).
  - split; apply tabulate_has_shape.
Qed.

Lemma LayerNormFixSubLSTMCell_forward_shape (self : LayerNormFixSubLSTMCell.cell F) :
  LayerNormFixSubLSTMCell.initialized self ->
  has_shape input B (LayerNormFixSubLSTMCell.input_size self) ->
  has_shape hx B (LayerNormFixSubLSTMCell.hidden_size self) ->
  has_shape cx B (LayerNormFixSubLSTMCell.hidden_size self) ->
  exists hy cy,
    LayerNormFixSubLSTMCell.forward self input (hx, cx) = Ok (hy, (hy, cy)) /\
    has_shape hy B (LayerNormFixSubLSTMCell.hidden_size self) /\
    has_shape cy B (LayerNormFixSubLSTMCell.hidden_size self).
Proof.
  intros Hinit Hinput Hhx Hcx. eexists; eexists; split.
  - exact (LayerNormFixSubLSTMCell_forward_table Hinit Hinput Hhx Hcx).
  - split; apply tabulate_has_shape.
Qed.

Lemma PremulSubLSTMCell_forward_shape (self : PremulSubLSTMCell.cell F)
  (premul_input : Matrix F) :
  PremulSubLSTMCell.initialized self ->
  has_shape premul_input B (4 * PremulSubLSTMCell.hidden_size self) ->
  has_shape hx B (PremulSubLSTMCell.hidden_size self) ->
  has_shape cx B (PremulSubLSTMCell.hidden_size self) ->
  exists hy cy,
    PremulSubLSTMCell.forward self premul_input (hx, cx) = Ok (hy, (hy, cy)) /\
    has_shape hy B (PremulSubLSTMCell.hidden_size self) /\
    has_shape cy B (PremulSubLSTMCell.hidden_size self).
Proof.
  intros Hinit Hinput Hhx Hcx. eexists; eexists; split.
  - exact (PremulSubLSTMCell_forward_table Hinit Hinput Hhx Hcx).
  - split; apply tabulate_has_shape.
Qed.

End Shapes.

Lemma layernorm_initialized (n : nat) :
  LayerNorm_initialized (Example.layernorm n) n.
Proof.
  unfold LayerNorm_initialized, Example.layernorm; simpl.
  now rewrite !repeat_length.
Qed.

(** C7. At the sizes of the repository's test, [I = 30], [H = 100] and
    [B = 2], with tensors of the shapes of the contract,
    [LayerNormSubLSTMCell.forward] returns no [h_new] and no [c_new] of
    shape [(2, 100)]: it ends in a [TypeError]. *)
Theorem LayerNormSubLSTMCell_forward_scenario_no_shape :
  has_shape Scenario.input 2 30 /\
  has_shape Scenario.hx 2 100 /\
  has_shape Scenario.cx 2 100 /\
  LayerNormSubLSTMCell.forward Scenario.normalized Scenario.input
    (Scenario.hx, Scenario.cx) = Err TypeError.
Proof.
  assert (Hinput : has_shape Scenario.input 2 30) by apply tabulate_has_shape.
  assert (Hhx : has_shape Scenario.hx 2 100) by apply tabulate_has_shape.
  assert (Hcx : has_shape Scenario.cx 2 100) by apply tabulate_has_shape.
  split; [exact Hinput|]. split; [exact Hhx|]. split; [exact Hcx|].
  apply (@LayerNormSubLSTMCell_forward_raises R R_engine Scenario.normalized
           Scenario.input Scenario.hx Scenario.cx 2); try assumption.
  unfold LayerNormSubLSTMCell.initialized, Scenario.normalized.
  cbn [LayerNormSubLSTMCell.weight_ih LayerNormSubLSTMCell.weight_hh
       LayerNormSubLSTMCell.hidden_size LayerNormSubLSTMCell.input_size
       LayerNormSubLSTMCell.layernorm_i LayerNormSubLSTMCell.layernorm_h
       LayerNormSubLSTMCell.layernorm_c].
  repeat split; try apply tabulate_has_shape; apply layernorm_initialized.
Qed.

(** ** [SubLSTMCell] against [PremulSubLSTMCell] *)

Section Prefusion.
Context {F : Type} {E : Engine F}.
Variable basic : SubLSTMCell.cell F.
Variable prefused : PremulSubLSTMCell.cell F.
Hypothesis Hweight :
  PremulSubLSTMCell.weight_hh prefused = SubLSTMCell.weight_hh basic.
Hypothesis Hbias :
  PremulSubLSTMCell.bias_hh prefused = SubLSTMCell.bias_hh basic.

(** Whatever the shapes: once the projection exists, the two cells agree,
    failures included. *)
Lemma PremulSubLSTMCell_forward_of_projection
  (input premul_input : Matrix F) (state : Matrix F * Matrix F) :
  premul_projection basic input = Ok premul_input ->
  PremulSubLSTMCell.forward prefused premul_input state =
  SubLSTMCell.forward basic input state.
Proof.
  intros Hpre. destruct state as [hx cx].
  unfold PremulSubLSTMCell.forward, SubLSTMCell.forward.
  assert (Hg : PremulSubLSTMCell.gates prefused premul_input hx =
               SubLSTMCell.gates basic input hx).
  { unfold PremulSubLSTMCell.gates, SubLSTMCell.gates.
    unfold premul_projection in Hpre. rewrite Hweight, Hbias.
    destruct (mm input (t (SubLSTMCell.weight_ih basic))) as [ih|e];
      cbn [bind] in *; [|discriminate].
    now rewrite Hpre. }
  now rewrite Hg.
Qed.

Lemma premul_projection_table (input : Matrix F) (B : nat) :
  SubLSTMCell.initialized basic ->
  has_shape input B (SubLSTMCell.input_size basic) ->
  premul_projection basic input =
  Ok (tabulate B (4 * SubLSTMCell.hidden_size basic)
        (fun b k => s_add (BasicCell_spec.input_proj basic input b k)
                          (vget (SubLSTMCell.bias_ih basic) k))).
Proof.
  intros ((Wr & Wc & _) & _ & Lih & _) (Xr & Xc & _).
  unfold premul_projection.
  rewrite mm_t by congruence. cbn [bind].
  unfold madd_v, madd.
  rewrite broadcast2_row by (simpl; congruence).
  cbn [nrows ncols tabulate]. rewrite Xr, Wr, Xc. f_equal.
  apply tabulate_ext. intros b k Hb Hk. now rewrite get_tabulate.
Qed.

End Prefusion.

(** C4. For an input of shape [B, I], a state pair of shape [B, H] and a
    [PremulSubLSTMCell] with the hidden-side weight and bias of a
    [SubLSTMCell], the projection [premul_input = input·Wih^T + bias_ih]
    exists, has shape [B, 4H], and the two cells return the same [h_new]
    and [c_new]. *)
Theorem PremulSubLSTMCell_forward_agrees (F : Type) (E : Engine F)
  (basic : SubLSTMCell.cell F) (prefused : PremulSubLSTMCell.cell F)
  (input hx cx : Matrix F) (B : nat) :
  SubLSTMCell.initialized basic ->
  PremulSubLSTMCell.weight_hh prefused = SubLSTMCell.weight_hh basic ->
  PremulSubLSTMCell.bias_hh prefused = SubLSTMCell.bias_hh basic ->
  has_shape input B (SubLSTMCell.input_size basic) ->
  has_shape hx B (SubLSTMCell.hidden_size basic) ->
  has_shape cx B (SubLSTMCell.hidden_size basic) ->
  exists premul_input hy cy,
    premul_projection basic input = Ok premul_input /\
    has_shape premul_input B (4 * SubLSTMCell.hidden_size basic) /\
    SubLSTMCell.forward basic input (hx, cx) = Ok (hy, (hy, cy)) /\
    PremulSubLSTMCell.forward prefused premul_input (hx, cx) = Ok (hy, (hy, cy)).
Proof.
  intros Hinit Hweight Hbias Hinput Hhx Hcx.
  pose proof (premul_projection_table Hinit Hinput) as Hpre.
  pose proof (SubLSTMCell_forward_table Hinit Hinput Hhx Hcx) as Hfwd.
  eexists; eexists; eexists. split; [exact Hpre|].
  split; [apply tabulate_has_shape|].
  split; [exact Hfwd|].
  rewrite (@PremulSubLSTMCell_forward_of_projection _ _ basic prefused
             Hweight Hbias input _ (hx, cx) Hpre).
  exact Hfwd.
Qed.

Lemma PremulSubLSTMCell_forward_agrees_witness :
  exists premul_input hy cy,
    premul_projection Example.basic Example.input = Ok premul_input /\
    has_shape premul_input 2 4 /\
    SubLSTMCell.forward Example.basic Example.input (Example.hx, Example.cx) =
      Ok (hy, (hy, cy)) /\
    PremulSubLSTMCell.forward Example.prefused premul_input
      (Example.hx, Example.cx) = Ok (hy, (hy, cy)).
Proof.
  apply (@PremulSubLSTMCell_forward_agrees R R_engine Example.basic
           Example.prefused Example.input Example.hx Example.cx 2);
    first [reflexivity | shape].
Defined.

(** ** Rounding *)

Section RoundingFacts.
Local Open Scope R_scope.

Lemma Int_part_le (x y : R) : x <= y -> (Int_part x <= Int_part y)%Z.
Proof.
  intros Hxy.
  destruct (base_Int_part x) as [Hx _], (base_Int_part y) as [_ Hy].
  assert (H : IZR (Int_part x) < IZR (Int_part y + 1)) by (rewrite plus_IZR; lra).
  apply lt_IZR in H. lia.
Qed.

Lemma round_half_even_range (y : R) :
  (Int_part y <= round_half_even y <= Int_part y + 1)%Z.
Proof.
  unfold round_half_even.
  destruct (Rlt_dec _ _); [lia|].
  destruct (Rlt_dec _ _); [lia|].
  destruct (Z.even _); lia.
Qed.

Lemma round_half_even_le (x y : R) :
  x <= y -> (round_half_even x <= round_half_even y)%Z.
Proof.
  intros Hxy. pose proof (Int_part_le Hxy) as Hf.
  pose proof (round_half_even_range x) as Hx.
  pose proof (round_half_even_range y) as Hy.
  destruct (Z.eq_dec (Int_part x) (Int_part y)) as [He|He]; [|lia].
  unfold round_half_even in *. rewrite He in *.
  destruct (Rlt_dec (x - IZR (Int_part y)) (/ 2)) as [Hx1|Hx1]; [lia|].
  destruct (Rlt_dec (y - IZR (Int_part y)) (/ 2)) as [Hy1|Hy1]; [lra|].
  destruct (Rlt_dec (/ 2) (x - IZR (Int_part y))) as [Hx2|Hx2].
  - destruct (Rlt_dec (/ 2) (y - IZR (Int_part y))) as [Hy2|Hy2]; [lia|lra].
  - destruct (Rlt_dec (/ 2) (y - IZR (Int_part y))) as [Hy2|Hy2].
    + destruct (Z.even _); lia.
    + lia.
Qed.

Lemma round_half_even_IZR (n : Z) : round_half_even (IZR n) = n.
Proof.
  unfold round_half_even.
  replace (Int_part (IZR n)) with n by (apply Int_part_spec; lra).
  destruct (Rlt_dec _ _) as [|H]; [reflexivity|lra].
Qed.

Lemma ln_2_pos : 0 < ln 2.
Proof. rewrite <- ln_1. apply ln_increasing; lra. Qed.

Lemma bpow_pos (e : Z) : 0 < bpow e.
Proof. apply exp_pos. Qed.

Lemma bpow_plus (a b : Z) : bpow (a + b) = bpow a * bpow b.
Proof. unfold bpow. rewrite plus_IZR, Rmult_plus_distr_r. apply exp_plus. Qed.

Lemma bpow_0 : bpow 0 = 1.
Proof. unfold bpow. rewrite Rmult_0_l. apply exp_0. Qed.

Lemma bpow_1 : bpow 1 = 2.
Proof. unfold bpow. rewrite Rmult_1_l. apply exp_ln. lra. Qed.

Lemma bpow_nat (n : nat) : bpow (Z.of_nat n) = 2 ^ n.
Proof.
  induction n as [|n IH]; [apply bpow_0|].
  rewrite Nat2Z.inj_succ, <- Z.add_1_l, bpow_plus, bpow_1, IH. reflexivity.
Qed.

Lemma bpow_IZR (n : nat) : bpow (Z.of_nat n) = IZR (2 ^ Z.of_nat n).
Proof. rewrite bpow_nat, <- pow_IZR. reflexivity. Qed.

Lemma bpow_le (a b : Z) : (a <= b)%Z -> bpow a <= bpow b.
Proof.
  intros Hab. unfold bpow. pose proof ln_2_pos as Hl.
  apply IZR_le in Hab.
  destruct (Req_dec_T (IZR a) (IZR b)) as [->|Hne]; [lra|].
  left. apply exp_increasing. nra.
Qed.

Lemma bpow_lt_inv (a b : Z) : bpow a < bpow b -> (a < b)%Z.
Proof.
  intros H. destruct (Z_lt_le_dec a b) as [|Hle]; [assumption|].
  apply bpow_le in Hle. lra.
Qed.

Lemma exponent_spec (x : R) :
  x <> 0 -> bpow (exponent x - 1) <= Rabs x < bpow (exponent x).
Proof.
  intros Hx. pose proof ln_2_pos as Hl.
  assert (Ha : 0 < Rabs x) by now apply Rabs_pos_lt.
  unfold exponent, bpow.
  destruct (archimed (ln (Rabs x) / ln 2)) as [Hup Hlow].
  set (E := IZR (up (ln (Rabs x) / ln 2))) in *.
  rewrite minus_IZR. fold E.
  assert (Hl1 : (E - 1) * ln 2 <= ln (Rabs x)).
  { apply Rmult_le_reg_r with (/ ln 2); [now apply Rinv_0_lt_compat|].
    rewrite Rmult_assoc, Rinv_r by lra. unfold Rdiv in Hlow. lra. }
  assert (Hl2 : ln (Rabs x) < E * ln 2).
  { apply Rmult_lt_reg_r with (/ ln 2); [now apply Rinv_0_lt_compat|].
    rewrite Rmult_assoc, Rinv_r by lra. unfold Rdiv in Hup. lra. }
  pose proof (exp_ln (Rabs x) Ha) as Hexp.
  split; rewrite <- Hexp.
  - destruct Hl1 as [Hl1|Hl1];
      [left; now apply exp_increasing|right; now rewrite Hl1].
  - now apply exp_increasing.
Qed.

Lemma exponent_unique (x : R) (e : Z) :
  bpow (e - 1) <= Rabs x < bpow e -> exponent x = e.
Proof.
  intros [Hlo Hhi]. pose proof ln_2_pos as Hl.
  assert (Ha : 0 < Rabs x) by (pose proof (bpow_pos (e - 1)); lra).
  unfold exponent. symmetry. apply tech_up.
  - apply Rmult_lt_reg_r with (ln 2); [exact Hl|].
    unfold Rdiv. rewrite Rmult_assoc, Rinv_l by lra. rewrite Rmult_1_r.
    rewrite <- (ln_exp (IZR e * ln 2)). apply ln_increasing; assumption.
  - apply Rmult_le_reg_r with (ln 2); [exact Hl|].
    rewrite Rmult_plus_distr_r.
    unfold Rdiv. rewrite Rmult_assoc, Rinv_l by lra. rewrite Rmult_1_r.
    unfold bpow in Hlo. rewrite minus_IZR in Hlo.
    assert (Hle : (IZR e - 1) * ln 2 <= ln (Rabs x)).
    { rewrite <- (ln_exp ((IZR e - 1) * ln 2)).
      destruct Hlo as [Hlo|Hlo];
        [left; apply ln_increasing; [apply exp_pos|exact Hlo]|
         right; now rewrite Hlo]. }
    lra.
Qed.

Lemma exponent_le (x y : R) :
  0 < x -> x <= y -> (exponent x <= exponent y)%Z.
Proof.
  intros Hx Hxy.
  destruct (exponent_spec (x := x)) as [Hlo _]; [lra|].
  destruct (exponent_spec (x := y)) as [_ Hhi]; [lra|].
  rewrite Rabs_right in Hlo, Hhi by lra.
  assert (H : (exponent x - 1 < exponent y)%Z) by (apply bpow_lt_inv; lra).
  lia.
Qed.

Lemma exponent_opp (x : R) : exponent (- x) = exponent x.
Proof. unfold exponent. now rewrite Rabs_Ropp. Qed.

End RoundingFacts.

(** Rounding to [p] significant bits is a rounding, for every [p >= 1]. *)
Section FloatRound.
Local Open Scope R_scope.
Variable p : nat.
Hypothesis Hp : (1 <= p)%nat.

Lemma float_round_0 : float_round p 0 = 0.
Proof.
  unfold float_round.
  destruct (Req_dec_T 0 0) as [_|H]; [reflexivity|now elim H].
Qed.

Lemma float_round_pos (x : R) :
  0 < x ->
  float_round p x =
  IZR (round_half_even (x / bpow (exponent x - Z.of_nat p))) *
  bpow (exponent x - Z.of_nat p).
Proof.
  intros Hx. unfold float_round.
  destruct (Req_dec_T x 0) as [H|_]; [lra|].
  destruct (Rle_dec 0 x) as [_|H]; [reflexivity|lra].
Qed.

Lemma float_round_opp (x : R) : float_round p (- x) = - float_round p x.
Proof.
  unfold float_round. rewrite exponent_opp.
  destruct (Req_dec_T (- x) 0) as [Hn|Hn], (Req_dec_T x 0) as [Hz|Hz]; try lra.
  destruct (Rle_dec 0 (- x)) as [Hl|Hl], (Rle_dec 0 x) as [Hr|Hr]; try lra.
  now rewrite Ropp_involutive.
Qed.

(** The significand of a positive number lies between [2^(p-1)] and
    [2^p]. *)
Lemma scaled_range (x : R) :
  0 < x ->
  bpow (Z.of_nat (p - 1)) <= x / bpow (exponent x - Z.of_nat p)
    < bpow (Z.of_nat p).
Proof.
  intros Hx. destruct (exponent_spec (x := x)) as [Hlo Hhi]; [lra|].
  rewrite Rabs_right in Hlo, Hhi by lra.
  set (e := exponent x) in *.
  pose proof (bpow_pos (e - Z.of_nat p)) as Hu.
  replace (e - 1)%Z with (Z.of_nat (p - 1) + (e - Z.of_nat p))%Z in Hlo by lia.
  assert (Hhi' : x < bpow (Z.of_nat p + (e - Z.of_nat p))).
  { replace (Z.of_nat p + (e - Z.of_nat p))%Z with e by lia. exact Hhi. }
  rewrite bpow_plus in Hlo, Hhi'.
  split.
  - apply Rmult_le_reg_r with (bpow (e - Z.of_nat p)); [exact Hu|].
    unfold Rdiv. rewrite Rmult_assoc, Rinv_l by lra. lra.
  - apply Rmult_lt_reg_r with (bpow (e - Z.of_nat p)); [exact Hu|].
    unfold Rdiv. rewrite Rmult_assoc, Rinv_l by lra. lra.
Qed.

(** Rounding does not leave the binade. *)
Lemma float_round_bounds (x : R) :
  0 < x ->
  bpow (exponent x - 1) <= float_round p x <= bpow (exponent x).
Proof.
  intros Hx. rewrite float_round_pos by exact Hx.
  destruct (scaled_range Hx) as [Hlo Hhi].
  set (e := exponent x) in *. set (u := bpow (e - Z.of_nat p)) in *.
  assert (Hu : 0 < u) by apply bpow_pos.
  rewrite bpow_IZR in Hlo, Hhi.
  apply round_half_even_le in Hlo. rewrite round_half_even_IZR in Hlo.
  assert (Hhi' : (round_half_even (x / u) <= 2 ^ Z.of_nat p)%Z).
  { rewrite <- (round_half_even_IZR (2 ^ Z.of_nat p)).
    apply round_half_even_le. lra. }
  apply IZR_le in Hlo, Hhi'. rewrite <- !bpow_IZR in *.
  replace (e - 1)%Z with (Z.of_nat (p - 1) + (e - Z.of_nat p))%Z by lia.
  assert (Htop : bpow e = bpow (Z.of_nat p) * u).
  { unfold u. rewrite <- bpow_plus. f_equal. lia. }
  rewrite Htop, bpow_plus. fold u. split; nra.
Qed.

Lemma float_round_pos_le (x y : R) :
  0 < x -> x <= y -> float_round p x <= float_round p y.
Proof.
  intros Hx Hxy. pose proof (exponent_le Hx Hxy) as He.
  destruct (Z.eq_dec (exponent x) (exponent y)) as [Heq|Hne].
  - rewrite !float_round_pos by lra. rewrite Heq.
    pose proof (bpow_pos (exponent y - Z.of_nat p)) as Hu.
    apply Rmult_le_compat_r; [lra|]. apply IZR_le, round_half_even_le.
    apply Rmult_le_compat_r; [|exact Hxy]. left. now apply Rinv_0_lt_compat.
  - destruct (float_round_bounds Hx) as [_ Hhi].
    destruct (@float_round_bounds y) as [Hlo _]; [lra|].
    assert (Hb : bpow (exponent x) <= bpow (exponent y - 1))
      by (apply bpow_le; lia).
    lra.
Qed.

Lemma float_round_pos_pos (x : R) : 0 < x -> 0 < float_round p x.
Proof.
  intros Hx. destruct (float_round_bounds Hx) as [Hlo _].
  pose proof (bpow_pos (exponent x - 1)). lra.
Qed.

Lemma float_round_le (x y : R) : x <= y -> float_round p x <= float_round p y.
Proof.
  intros Hxy.
  destruct (Rlt_le_dec 0 x) as [Hx|Hx].
  - now apply float_round_pos_le.
  - destruct (Rlt_le_dec 0 y) as [Hy|Hy].
    + apply Rle_trans with 0; [|left; now apply float_round_pos_pos].
      destruct Hx as [Hx| ->]; [|rewrite float_round_0; lra].
      replace x with (- - x) by lra. rewrite float_round_opp.
      pose proof (@float_round_pos_pos (- x)). lra.
    + destruct Hy as [Hy| ->].
      * replace x with (- - x) by lra. replace y with (- - y) by lra.
        rewrite (float_round_opp (- x)), (float_round_opp (- y)).
        apply Ropp_le_contravar. apply float_round_pos_le; lra.
      * rewrite float_round_0.
        destruct Hx as [Hx| ->]; [|rewrite float_round_0; lra].
        replace x with (- - x) by lra. rewrite float_round_opp.
        pose proof (@float_round_pos_pos (- x)). lra.
Qed.

(** Powers of two are numbers of the format. *)
Lemma float_round_bpow (e : Z) : float_round p (bpow e) = bpow e.
Proof.
  pose proof (bpow_pos e) as He.
  assert (Hx : exponent (bpow e) = (e + 1)%Z).
  { apply exponent_unique. rewrite Rabs_right by lra.
    replace (e + 1 - 1)%Z with e by lia. split; [lra|].
    rewrite bpow_plus, bpow_1. lra. }
  rewrite float_round_pos by exact He. rewrite Hx.
  set (u := bpow (e + 1 - Z.of_nat p)).
  assert (Hu : 0 < u) by apply bpow_pos.
  assert (Hs : bpow e = IZR (2 ^ Z.of_nat (p - 1)) * u).
  { rewrite <- bpow_IZR. unfold u. rewrite <- bpow_plus. f_equal. lia. }
  rewrite Hs at 1. unfold Rdiv. rewrite Rmult_assoc, Rinv_r by lra.
  rewrite Rmult_1_r, round_half_even_IZR. now rewrite Hs.
Qed.

Lemma float_round_Rounding : Rounding (float_round p).
Proof.
  constructor.
  - apply float_round_le.
  - apply float_round_opp.
  - rewrite <- bpow_0. apply float_round_bpow.
  - rewrite <- bpow_1. apply float_round_bpow.
Qed.

End FloatRound.

Lemma single_Rounding : Rounding single.
Proof. apply float_round_Rounding. lia. Qed.

(** In single precision the sigmoid of 200 is 1: the exact value lies
    within [2^-25] of 1, closer to 1 than to the number of the format
    below it. *)
Section Saturation.
Local Open Scope R_scope.




End Saturation.

(** ** Ranges of the gates and of the new states *)

Section ExactBounds.
Local Open Scope R_scope.

Lemma sigmoid_bounds (x : R) : 0 < sigmoid x < 1.
Proof.
  unfold sigmoid. pose proof (exp_pos (- x)) as He. split.
  - apply Rinv_0_lt_compat. lra.
  - replace 1 with (/ 1) at 2 by apply Rinv_1.
    apply Rinv_lt_contravar; lra.
Qed.



End ExactBounds.

Section Ranges.
Local Open Scope R_scope.
Variable rnd : R -> R.
Hypothesis Hrnd : Rounding rnd.

Local Abbreviation RE := (rounded_engine rnd).

Lemma rnd_zero : rnd 0 = 0.
Proof. pose proof (rnd_opp Hrnd 0) as H. rewrite Ropp_0 in H. lra. Qed.

Lemma rnd_between (lo hi x : R) :
  rnd lo = lo -> rnd hi = hi -> lo <= x <= hi -> lo <= rnd x <= hi.
Proof.
  intros Hlo Hhi [H1 H2]. rewrite <- Hlo, <- Hhi.
  split; now apply (rnd_monotone Hrnd).
Qed.

Lemma rnd_minus_one : rnd (-1) = -1.
Proof.
  replace (-1) with (- (1)) by lra.
  now rewrite (rnd_opp Hrnd), (rnd_one Hrnd).
Qed.


Lemma rnd_sigmoid (x : R) : between 0 1 (rnd (sigmoid x)).
Proof.
  pose proof (sigmoid_bounds x).
  apply rnd_between; [apply rnd_zero|apply (rnd_one Hrnd)|lra].
Qed.

Lemma rnd_contribution (g i : R) :
  between 0 1 g -> between 0 1 i -> between (-1) 1 (rnd (g - i)).
Proof.
  unfold between. intros Hg Hi.
  apply rnd_between; [apply rnd_minus_one|apply (rnd_one Hrnd)|lra].
Qed.


Lemma rnd_Rabs (c : R) : rnd c = c -> rnd (Rabs c) = Rabs c.
Proof.
  intros Hc. unfold Rabs. destruct (Rcase_abs c); [|exact Hc].
  now rewrite (rnd_opp Hrnd), Hc.
Qed.

Lemma rnd_retained (f c : R) :
  between 0 1 f -> rnd c = c -> Rabs (rnd (f * c)) <= Rabs c.
Proof.
  unfold between. intros Hf Hc. pose proof (rnd_Rabs Hc) as Ha.
  assert (Hm : - Rabs c <= f * c <= Rabs c).
  { unfold Rabs. destruct (Rcase_abs c); split; nra. }
  assert (Hn : rnd (- Rabs c) = - Rabs c) by now rewrite (rnd_opp Hrnd), Ha.
  destruct (rnd_between Hn Ha Hm) as [H1 H2].
  apply Rabs_le. lra.
Qed.

Lemma rnd_growth (f g i c : R) :
  between 0 1 f -> between 0 1 g -> between 0 1 i -> rnd c = c ->
  Rabs (rnd (rnd (f * c) + rnd (g - i))) <= rnd (Rabs c + 1).
Proof.
  intros Hf Hg Hi Hc.
  pose proof (rnd_retained Hf Hc) as Ha.
  pose proof (rnd_contribution Hg Hi) as Hb. unfold between in Hb.
  assert (Ha' : - Rabs c <= rnd (f * c) <= Rabs c).
  { revert Ha. unfold Rabs at 1. destruct (Rcase_abs (rnd (f * c))); lra. }
  apply Rabs_le. split.
  - rewrite <- (rnd_opp Hrnd). apply (rnd_monotone Hrnd). lra.
  - apply (rnd_monotone Hrnd). lra.
Qed.

Lemma representable_get (cx : Matrix R) (B H b j : nat) :
  has_shape cx B H -> representable rnd cx ->
  (b < B)%nat -> (j < H)%nat ->
  rnd (get (E := RE) cx b j) = get (E := RE) cx b j.
Proof.
  intros (_ & _ & Hlen & Hall) Hrep Hb Hj. unfold get.
  unfold representable in Hrep. rewrite Forall_forall in Hrep, Hall.
  assert (Hrow : In (nth b (rows cx) []) (rows cx)) by (apply nth_In; lia).
  specialize (Hrep _ Hrow). specialize (Hall _ Hrow). cbn beta in Hall.
  rewrite Forall_forall in Hrep. apply Hrep, nth_In. lia.
Qed.



(** The growth of a table of new cell states. *)
Lemma grows_tabulate (B H : nat) (c : nat -> nat -> R) (cx : Matrix R) :
  (forall b j, (b < B)%nat -> (j < H)%nat ->
     Rabs (c b j) <= rnd (Rabs (get (E := RE) cx b j) + 1)) ->
  grows_by_at_most_one (E := RE) (tabulate B H c) cx.
Proof.
  intros Hc b j Hb Hj. cbn [nrows ncols tabulate] in Hb, Hj.
  rewrite get_tabulate by assumption. now apply Hc.
Qed.

End Ranges.


(** The state of the small instance holds numbers of every format. *)
Lemma example_cx_representable (rnd : R -> R) :
  Rounding rnd -> representable rnd Example.cx.
Proof.
  intros Hrnd. unfold representable, Example.cx. cbn [rows].
  repeat constructor.
  - apply (rnd_one Hrnd).
  - apply (rnd_minus_one Hrnd).
Qed.



(** ** Runs in a store *)

Section StoreFacts.
Context {F : Type} {E : Engine F}.

Lemma extends_refl (s : Store F) : extends s s.
Proof. exists []. now rewrite app_nil_r. Qed.

Lemma extends_trans (s1 s2 s3 : Store F) :
  extends s1 s2 -> extends s2 s3 -> extends s1 s3.
Proof.
  intros [n1 ->] [n2 ->]. exists (n1 ++ n2). now rewrite app_assoc.
Qed.

Lemma extends_alloc (s : Store F) (o : Obj F) : extends s (s ++ [o]).
Proof. now exists [o]. Qed.

Lemma nth_error_extends (s s' : Store F) (r : nat) (o : Obj F) :
  extends s s' -> nth_error s r = Some o -> nth_error s' r = Some o.
Proof.
  intros [new ->] Hr. rewrite nth_error_app1; [exact Hr|].
  apply nth_error_Some. congruence.
Qed.

Lemma holds_matrix_extends (s s' : Store F) (r : nat) (m : Matrix F) :
  extends s s' -> holds_matrix s r m -> holds_matrix s' r m.
Proof. unfold holds_matrix. apply nth_error_extends. Qed.

Lemma holds_vector_extends (s s' : Store F) (r : nat) (v : Vector F) :
  extends s s' -> holds_vector s r v -> holds_vector s' r v.
Proof. unfold holds_vector. apply nth_error_extends. Qed.

Lemma holds_layernorm_extends (s s' : Store F) (o : LayerNormObj F)
  (ln : LayerNorm F) :
  extends s s' -> holds_layernorm s o ln -> holds_layernorm s' o ln.
Proof.
  intros Hext (Hn & Hw & Hb & He).
  repeat split; try assumption; eapply holds_vector_extends; eassumption.
Qed.

Lemma nth_error_alloc (s : Store F) (o : Obj F) :
  nth_error (s ++ [o]) (length s) = Some o.
Proof. rewrite nth_error_app2, Nat.sub_diag by lia. reflexivity. Qed.

(** *** Composition *)

Lemma computes_ret (A V : Type) (rel : Store F -> A -> V -> Prop)
  (s : Store F) (a : A) (x : V) :
  rel s a x -> computes rel (run_ret a) s (Ok x).
Proof.
  intros Hrel. exists s. split; [apply extends_refl|]. now exists a.
Qed.

Lemma computes_bind (A B V W : Type)
  (relA : Store F -> A -> V -> Prop) (relB : Store F -> B -> W -> Prop)
  (m : Run F A) (k : A -> Run F B) (s : Store F)
  (v : result V) (K : V -> result W) :
  computes relA m s v ->
  (forall s' a x, extends s s' -> relA s' a x -> computes relB (k a) s' (K x)) ->
  computes relB (run_bind m k) s (bind v K).
Proof.
  intros (s1 & Hext1 & Hm) Hk.
  destruct v as [x|e]; cbn [bind].
  - destruct Hm as (a & Hm & Hrel).
    destruct (Hk s1 a x Hext1 Hrel) as (s2 & Hext2 & Hka).
    exists s2. split; [eapply extends_trans; eassumption|].
    unfold run_bind. rewrite Hm. exact Hka.
  - exists s1. split; [exact Hext1|].
    unfold run_bind. now rewrite Hm.
Qed.

(** For an operation that cannot fail. *)
Lemma computes_bind_ok (A B V W : Type)
  (relA : Store F -> A -> V -> Prop) (relB : Store F -> B -> W -> Prop)
  (m : Run F A) (k : A -> Run F B) (s : Store F) (x : V) (w : result W) :
  computes relA m s (Ok x) ->
  (forall s' a, extends s s' -> relA s' a x -> computes relB (k a) s' w) ->
  computes relB (run_bind m k) s w.
Proof.
  intros (s1 & Hext1 & a & Hm & Hrel) Hk.
  destruct (Hk s1 a Hext1 Hrel) as (s2 & Hext2 & Hka).
  exists s2. split; [eapply extends_trans; eassumption|].
  unfold run_bind. rewrite Hm. exact Hka.
Qed.

(** *** Reads and allocations *)

Lemma read_matrix_holds (s : Store F) (r : nat) (m : Matrix F) :
  holds_matrix s r m -> read_matrix r s = (s, Ok m).
Proof. unfold holds_matrix, read_matrix. now intros ->. Qed.

Lemma read_vector_holds (s : Store F) (r : nat) (v : Vector F) :
  holds_vector s r v -> read_vector r s = (s, Ok v).
Proof. unfold holds_vector, read_vector. now intros ->. Qed.

Lemma computes_alloc_matrix (s : Store F) (v : result (Matrix F)) :
  computes holds_matrix (C <~ lift v;; alloc (OMatrix C)) s v.
Proof.
  unfold computes, run_bind, lift, alloc. destruct v as [C|e].
  - exists (s ++ [OMatrix C]). split; [apply extends_alloc|].
    exists (length s). split; [reflexivity|apply nth_error_alloc].
  - exists s. split; [apply extends_refl|reflexivity].
Qed.

(** *** The operations of the engine *)

Lemma computes_unary (f : Matrix F -> Matrix F) (s : Store F) (a : nat)
  (A : Matrix F) :
  holds_matrix s a A ->
  computes holds_matrix (unary_st f a) s (Ok (f A)).
Proof.
  intros Ha. unfold computes, unary_st, run_bind, alloc.
  rewrite (read_matrix_holds Ha).
  exists (s ++ [OMatrix (f A)]). split; [apply extends_alloc|].
  exists (length s). split; [reflexivity|apply nth_error_alloc].
Qed.

Lemma computes_binary (f : Matrix F -> Matrix F -> result (Matrix F))
  (s : Store F) (a b : nat) (A B : Matrix F) :
  holds_matrix s a A -> holds_matrix s b B ->
  computes holds_matrix (binary_st f a b) s (f A B).
Proof.
  intros Ha Hb. pose proof (computes_alloc_matrix s (f A B)) as Hc.
  unfold computes, binary_st, run_bind in *.
  now rewrite (read_matrix_holds Ha), (read_matrix_holds Hb).
Qed.

Lemma computes_t (s : Store F) (a : nat) (A : Matrix F) :
  holds_matrix s a A -> computes holds_matrix (t_st a) s (Ok (t A)).
Proof. apply computes_unary. Qed.

Lemma computes_msigmoid (s : Store F) (a : nat) (A : Matrix F) :
  holds_matrix s a A ->
  computes holds_matrix (msigmoid_st a) s (Ok (msigmoid A)).
Proof. apply computes_unary. Qed.

Lemma computes_mtanh (s : Store F) (a : nat) (A : Matrix F) :
  holds_matrix s a A -> computes holds_matrix (mtanh_st a) s (Ok (mtanh A)).
Proof. apply computes_unary. Qed.

Lemma computes_mm (s : Store F) (a b : nat) (A B : Matrix F) :
  holds_matrix s a A -> holds_matrix s b B ->
  computes holds_matrix (mm_st a b) s (mm A B).
Proof. apply computes_binary. Qed.

Lemma computes_madd (s : Store F) (a b : nat) (A B : Matrix F) :
  holds_matrix s a A -> holds_matrix s b B ->
  computes holds_matrix (madd_st a b) s (madd A B).
Proof. apply computes_binary. Qed.

Lemma computes_msub (s : Store F) (a b : nat) (A B : Matrix F) :
  holds_matrix s a A -> holds_matrix s b B ->
  computes holds_matrix (msub_st a b) s (msub A B).
Proof. apply computes_binary. Qed.

Lemma computes_mmul (s : Store F) (a b : nat) (A B : Matrix F) :
  holds_matrix s a A -> holds_matrix s b B ->
  computes holds_matrix (mmul_st a b) s (mmul A B).
Proof. apply computes_binary. Qed.

Lemma computes_madd_v (s : Store F) (a v : nat) (A : Matrix F) (V : Vector F) :
  holds_matrix s a A -> holds_vector s v V ->
  computes holds_matrix (madd_v_st a v) s (madd_v A V).
Proof.
  intros Ha Hv. pose proof (computes_alloc_matrix s (madd_v A V)) as Hc.
  unfold computes, madd_v_st, run_bind in *.
  now rewrite (read_matrix_holds Ha), (read_vector_holds Hv).
Qed.

Lemma computes_vmul_m (s : Store F) (v a : nat) (V : Vector F) (A : Matrix F) :
  holds_vector s v V -> holds_matrix s a A ->
  computes holds_matrix (vmul_m_st v a) s (vmul_m V A).
Proof.
  intros Hv Ha. pose proof (computes_alloc_matrix s (vmul_m V A)) as Hc.
  unfold computes, vmul_m_st, run_bind in *.
  now rewrite (read_vector_holds Hv), (read_matrix_holds Ha).
Qed.

Lemma computes_vsigmoid (s : Store F) (v : nat) (V : Vector F) :
  holds_vector s v V ->
  computes holds_vector (vsigmoid_st v) s (Ok (vsigmoid V)).
Proof.
  intros Hv. unfold computes, vsigmoid_st, run_bind, alloc.
  rewrite (read_vector_holds Hv).
  exists (s ++ [OVector (vsigmoid V)]). split; [apply extends_alloc|].
  exists (length s). split; [reflexivity|apply nth_error_alloc].
Qed.

Lemma computes_LayerNorm_forward (s : Store F) (o : LayerNormObj F)
  (ln : LayerNorm F) (x : nat) (X : Matrix F) :
  holds_layernorm s o ln -> holds_matrix s x X ->
  computes holds_matrix (LayerNorm_forward_st o x) s (LayerNorm_forward ln X).
Proof.
  intros (Hn & Hw & Hb & He) Hx.
  pose proof (computes_alloc_matrix s (LayerNorm_forward ln X)) as Hc.
  unfold computes, LayerNorm_forward_st, run_bind in *.
  rewrite (read_matrix_holds Hx), (read_vector_holds Hw), (read_vector_holds Hb).
  rewrite Hn, He. destruct ln as [n w b e]. exact Hc.
Qed.

Lemma computes_alloc_all (ms : list (Matrix F)) (s : Store F) :
  computes holds_all (alloc_all (map OMatrix ms)) s (Ok ms).
Proof.
  revert s. induction ms as [|m ms IH]; intros s; cbn [map alloc_all].
  - apply computes_ret. constructor.
  - apply (@computes_bind_ok _ _ _ _
             (fun s' r (_ : unit) => holds_matrix s' r m) holds_all
             (alloc (OMatrix m)) _ s tt (Ok (m :: ms))).
    + exists (s ++ [OMatrix m]). split; [apply extends_alloc|].
      exists (length s). split; [reflexivity|apply nth_error_alloc].
    + intros s1 r Hext1 Hr.
      apply (@computes_bind_ok _ _ _ _ holds_all holds_all
               (alloc_all (map OMatrix ms)) _ s1 ms (Ok (m :: ms)) (IH s1)).
      intros s2 rs Hext2 Hrs. apply computes_ret. constructor.
      * eapply holds_matrix_extends; eassumption.
      * exact Hrs.
Qed.

Lemma computes_chunk (s : Store F) (a : nat) (A : Matrix F) (chunks : nat) :
  holds_matrix s a A ->
  computes holds_all (chunk_st a chunks) s (Ok (chunk A chunks)).
Proof.
  intros Ha. pose proof (computes_alloc_all (chunk A chunks) s) as Hc.
  unfold computes, chunk_st, run_bind in *.
  now rewrite (read_matrix_holds Ha).
Qed.

Lemma computes_unpack4 (s : Store F) (rs : list nat) (ms : list (Matrix F)) :
  holds_all s rs ms -> computes holds_4 (lift (unpack4 rs)) s (unpack4 ms).
Proof.
  intros Hall. exists s. split; [apply extends_refl|]. unfold lift.
  destruct Hall as [|a x ? ? Ha Hall]; [reflexivity|].
  destruct Hall as [|b y ? ? Hb Hall]; [reflexivity|].
  destruct Hall as [|c z ? ? Hc Hall]; [reflexivity|].
  destruct Hall as [|d w ? ? Hd Hall]; [reflexivity|].
  destruct Hall; [|reflexivity].
  cbn [unpack4]. exists (a, b, c, d). split; [reflexivity|].
  cbn [holds_4]. auto.
Qed.

Lemma computes_unpack3 (s : Store F) (rs : list nat) (ms : list (Matrix F)) :
  holds_all s rs ms -> computes holds_3 (lift (unpack3 rs)) s (unpack3 ms).
Proof.
  intros Hall. exists s. split; [apply extends_refl|]. unfold lift.
  destruct Hall as [|a x ? ? Ha Hall]; [reflexivity|].
  destruct Hall as [|b y ? ? Hb Hall]; [reflexivity|].
  destruct Hall as [|c z ? ? Hc Hall]; [reflexivity|].
  destruct Hall; [|reflexivity].
  cbn [unpack3]. exists (a, b, c). split; [reflexivity|].
  cbn [holds_3]. auto.
Qed.

Lemma computes_call_tensor (A B V W : Type) (rel : Store F -> B -> W -> Prop)
  (s : Store F) (callee : nat) (M : Matrix F) (args : A) (vargs : V) :
  holds_matrix s callee M ->
  computes rel (call_tensor_st callee args) s (call_tensor M vargs).
Proof.
  intros Hc. exists s. split; [apply extends_refl|].
  unfold call_tensor_st, call_tensor, run_bind, lift.
  now rewrite (read_matrix_holds Hc).
Qed.

(** *** Two calls in a row *)

Lemma view_holds_result (s : Store F) (rs : nat * (nat * nat))
  (ms : Matrix F * (Matrix F * Matrix F)) :
  holds_result s rs ms -> view s (Ok rs) = tensors (Ok ms).
Proof.
  destruct rs as [a [b c]], ms as [x [y z]]. cbn [holds_result view tensors].
  unfold holds_matrix. now intros (-> & -> & ->).
Qed.

Lemma computes_view (call : Run F (nat * (nat * nat))) (s : Store F)
  (v : result (Matrix F * (Matrix F * Matrix F))) :
  computes holds_result call s v ->
  exists s1 r1, call s = (s1, r1) /\ extends s s1 /\ view s1 r1 = tensors v.
Proof.
  intros (s1 & Hext & Hv). destruct v as [ms|e].
  - destruct Hv as (rs & Hcall & Hrel).
    exists s1, (Ok rs). repeat split; try assumption.
    now apply view_holds_result.
  - exists s1, (Err e). now repeat split.
Qed.

Lemma repeatable_of_computes (call : Run F (nat * (nat * nat))) (s : Store F)
  (v : result (Matrix F * (Matrix F * Matrix F))) :
  (forall s', extends s s' -> computes holds_result call s' v) ->
  repeatable call s v.
Proof.
  intros Hcall.
  destruct (computes_view (Hcall s (extends_refl s))) as (s1 & r1 & H1 & E1 & V1).
  destruct (computes_view (Hcall s1 E1)) as (s2 & r2 & H2 & E2 & V2).
  exists s1, r1, s2, r2. now repeat split.
Qed.

End StoreFacts.

(** Moves what is known of a store to a store that extends it. *)
Ltac lift_facts Hext :=
  repeat match goal with
  | H : holds_matrix ?s _ _ |- _ =>
      lazymatch type of Hext with
      | extends s _ => apply (holds_matrix_extends Hext) in H
      end
  | H : holds_vector ?s _ _ |- _ =>
      lazymatch type of Hext with
      | extends s _ => apply (holds_vector_extends Hext) in H
      end
  | H : holds_layernorm ?s _ _ |- _ =>
      lazymatch type of Hext with
      | extends s _ => apply (holds_layernorm_extends Hext) in H
      end
  end.

(** One operation of the engine, on tensors the store is known to hold. *)
Ltac op_rule :=
  lazymatch goal with
  | |- computes _ (t_st _) _ _ => apply computes_t
  | |- computes _ (msigmoid_st _) _ _ => apply computes_msigmoid
  | |- computes _ (mtanh_st _) _ _ => apply computes_mtanh
  | |- computes _ (mm_st _ _) _ _ => apply computes_mm
  | |- computes _ (madd_st _ _) _ _ => apply computes_madd
  | |- computes _ (msub_st _ _) _ _ => apply computes_msub
  | |- computes _ (mmul_st _ _) _ _ => apply computes_mmul
  | |- computes _ (madd_v_st _ _) _ _ => apply computes_madd_v
  | |- computes _ (vmul_m_st _ _) _ _ => apply computes_vmul_m
  | |- computes _ (vsigmoid_st _) _ _ => apply computes_vsigmoid
  | |- computes _ (LayerNorm_forward_st _ _) _ _ =>
      apply computes_LayerNorm_forward
  | |- computes _ (chunk_st _ _) _ _ => apply computes_chunk
  end;
  eassumption.

(** One statement: the operation, then the rest in the extended store. *)
Ltac step :=
  let s' := fresh "s" in
  let r := fresh "r" in
  let M := fresh "M" in
  let Hext := fresh "Hext" in
  let Hr := fresh "Hr" in
  first
    [ eapply computes_bind;
      [ op_rule | intros s' r M Hext Hr; lift_facts Hext ]
    | eapply computes_bind_ok;
      [ op_rule | intros s' r Hext Hr; lift_facts Hext ] ].

Section BasicCellRun.
Context {F : Type} {E : Engine F}.
Variable self : SubLSTMCell.cell F.
Variable o : SubLSTMCell.stored.

Lemma SubLSTMCell_gates_st_computes (s : Store F) (x hxr : nat)
  (input hx : Matrix F) :
  SubLSTMCell.holds s o self ->
  holds_matrix s x input -> holds_matrix s hxr hx ->
  computes holds_matrix (SubLSTMCell.gates_st o x hxr) s
    (SubLSTMCell.gates self input hx).
Proof.
  intros (Hwih & Hwhh & Hbih & Hbhh) Hx Hhx.
  unfold SubLSTMCell.gates_st, SubLSTMCell.gates.
  do 7 step. op_rule.
Qed.


Lemma SubLSTMCell_forward_st_computes (s : Store F) (x hxr cxr : nat)
  (input hx cx : Matrix F) :
  SubLSTMCell.holds s o self ->
  holds_matrix s x input -> holds_matrix s hxr hx -> holds_matrix s cxr cx ->
  computes holds_result (SubLSTMCell.forward_st o x (hxr, cxr)) s
    (SubLSTMCell.forward self input (hx, cx)).
Proof.
  intros Hself Hx Hhx Hcx.
  unfold SubLSTMCell.forward_st, SubLSTMCell.forward.
  eapply computes_bind; [now apply SubLSTMCell_gates_st_computes|].
  intros s1 g G Hext1 Hg. lift_facts Hext1.
  eapply computes_bind_ok; [apply computes_chunk; eassumption|].
  intros s2 cs Hext2 Hcs. lift_facts Hext2.
  eapply computes_bind; [apply computes_unpack4; eassumption|].
  intros s3 [[[ig fg] cg] og] [[[IG FG] CG] OG] Hext3 (Hig & Hfg & Hcg & Hog).
  lift_facts Hext3. cbv beta iota.
  do 5 step.
  apply computes_ret. cbn [holds_result]. auto.
Qed.

End BasicCellRun.

Section PrefusedCellRun.
Context {F : Type} {E : Engine F}.
Variable self : PremulSubLSTMCell.cell F.
Variable o : PremulSubLSTMCell.stored.

Lemma PremulSubLSTMCell_gates_st_computes (s : Store F) (x hxr : nat)
  (input hx : Matrix F) :
  PremulSubLSTMCell.holds s o self ->
  holds_matrix s x input -> holds_matrix s hxr hx ->
  computes holds_matrix (PremulSubLSTMCell.gates_st o x hxr) s
    (PremulSubLSTMCell.gates self input hx).
Proof.
  intros Hself Hx Hhx. destruct Hself as (Hwhh & Hbhh).
  unfold PremulSubLSTMCell.gates_st, PremulSubLSTMCell.gates.
  do 4 step. op_rule.
Qed.

Lemma PremulSubLSTMCell_forward_st_computes (s : Store F) (x hxr cxr : nat)
  (input hx cx : Matrix F) :
  PremulSubLSTMCell.holds s o self ->
  holds_matrix s x input -> holds_matrix s hxr hx -> holds_matrix s cxr cx ->
  computes holds_result (PremulSubLSTMCell.forward_st o x (hxr, cxr)) s
    (PremulSubLSTMCell.forward self input (hx, cx)).
Proof.
  intros Hself Hx Hhx Hcx.
  unfold PremulSubLSTMCell.forward_st, PremulSubLSTMCell.forward.
  eapply computes_bind; [now apply PremulSubLSTMCell_gates_st_computes|].
  intros s1 g G Hext1 Hg. lift_facts Hext1.
  eapply computes_bind_ok; [apply computes_chunk; eassumption|].
  intros s2 cs Hext2 Hcs. lift_facts Hext2.
  eapply computes_bind; [apply computes_unpack4; eassumption|].
  intros s3 [[[ig fg] cg] og] [[[IG FG] CG] OG] Hext3 (Hig & Hfg & Hcg & Hog).
  lift_facts Hext3. cbv beta iota.
  do 5 step.
  apply computes_ret. cbn [holds_result]. auto.
Qed.

End PrefusedCellRun.

Section FixedForgetCellRun.
Context {F : Type} {E : Engine F}.
Variable self : fixSubLSTMCell.cell F.
Variable o : fixSubLSTMCell.stored.

Lemma fixSubLSTMCell_gates_st_computes (s : Store F) (x hxr : nat)
  (input hx : Matrix F) :
  fixSubLSTMCell.holds s o self ->
  holds_matrix s x input -> holds_matrix s hxr hx ->
  computes holds_matrix (fixSubLSTMCell.gates_st o x hxr) s
    (fixSubLSTMCell.gates self input hx).
Proof.
  intros Hself Hx Hhx. destruct Hself as (Hwih & Hwhh & Hbih & Hbhh & Hfg).
  unfold fixSubLSTMCell.gates_st, fixSubLSTMCell.gates.
  do 7 step. op_rule.
Qed.

Lemma fixSubLSTMCell_forward_st_computes (s : Store F) (x hxr cxr : nat)
  (input hx cx : Matrix F) :
  fixSubLSTMCell.holds s o self ->
  holds_matrix s x input -> holds_matrix s hxr hx -> holds_matrix s cxr cx ->
  computes holds_result (fixSubLSTMCell.forward_st o x (hxr, cxr)) s
    (fixSubLSTMCell.forward self input (hx, cx)).
Proof.
  intros Hself Hx Hhx Hcx.
  unfold fixSubLSTMCell.forward_st, fixSubLSTMCell.forward.
  destruct Hself as (Hwih & Hwhh & Hbih & Hbhh & Hfg).
  eapply computes_bind; [now apply fixSubLSTMCell_gates_st_computes|].
  intros s1 g G Hext1 Hg. lift_facts Hext1.
  eapply computes_bind_ok; [apply computes_chunk; eassumption|].
  intros s2 cs Hext2 Hcs. lift_facts Hext2.
  eapply computes_bind; [apply computes_unpack3; eassumption|].
  intros s3 [[ig cg] og] [[IG CG] OG] Hext3 (Hig & Hcg & Hog).
  lift_facts Hext3. cbv beta iota.
  do 6 step.
  apply computes_ret. cbn [holds_result]. auto.
Qed.

End FixedForgetCellRun.

Section NormalizedFixedForgetCellRun.
Context {F : Type} {E : Engine F}.
Variable self : LayerNormFixSubLSTMCell.cell F.
Variable o : LayerNormFixSubLSTMCell.stored F.

Lemma LayerNormFixSubLSTMCell_gates_st_computes (s : Store F) (x hxr : nat)
  (input hx : Matrix F) :
  LayerNormFixSubLSTMCell.holds s o self ->
  holds_matrix s x input -> holds_matrix s hxr hx ->
  computes holds_matrix (LayerNormFixSubLSTMCell.gates_st o x hxr) s
    (LayerNormFixSubLSTMCell.gates self input hx).
Proof.
  intros Hself Hx Hhx. destruct Hself as (Hwih & Hwhh & Hfg & Hli & Hlh & Hlc).
  unfold LayerNormFixSubLSTMCell.gates_st, LayerNormFixSubLSTMCell.gates.
  do 7 step. op_rule.
Qed.

Lemma LayerNormFixSubLSTMCell_forward_st_computes (s : Store F) (x hxr cxr : nat)
  (input hx cx : Matrix F) :
  LayerNormFixSubLSTMCell.holds s o self ->
  holds_matrix s x input -> holds_matrix s hxr hx -> holds_matrix s cxr cx ->
  computes holds_result (LayerNormFixSubLSTMCell.forward_st o x (hxr, cxr)) s
    (LayerNormFixSubLSTMCell.forward self input (hx, cx)).
Proof.
  intros Hself Hx Hhx Hcx.
  unfold LayerNormFixSubLSTMCell.forward_st, LayerNormFixSubLSTMCell.forward.
  pose proof Hself as (Hwih & Hwhh & Hfg & Hli & Hlh & Hlc).
  eapply computes_bind; [now apply LayerNormFixSubLSTMCell_gates_st_computes|].
  intros s1 g G Hext1 Hg. lift_facts Hext1.
  eapply computes_bind_ok; [apply computes_chunk; eassumption|].
  intros s2 cs Hext2 Hcs. lift_facts Hext2.
  eapply computes_bind; [apply computes_unpack3; eassumption|].
  intros s3 [[ig cg] og] [[IG CG] OG] Hext3 (Hig & Hcg & Hog).
  lift_facts Hext3. cbv beta iota.
  do 7 step.
  apply computes_ret. cbn [holds_result]. auto.
Qed.

End NormalizedFixedForgetCellRun.

Section NormalizedCellRun.
Context {F : Type} {E : Engine F}.
Variable self : LayerNormSubLSTMCell.cell F.
Variable o : LayerNormSubLSTMCell.stored F.

Lemma LayerNormSubLSTMCell_gates_st_computes (s : Store F) (x hxr : nat)
  (input hx : Matrix F) :
  LayerNormSubLSTMCell.holds s o self ->
  holds_matrix s x input -> holds_matrix s hxr hx ->
  computes holds_matrix (LayerNormSubLSTMCell.gates_st o x hxr) s
    (LayerNormSubLSTMCell.gates self input hx).
Proof.
  intros Hself Hx Hhx. destruct Hself as (Hwih & Hwhh & Hli & Hlh & Hlc).
  unfold LayerNormSubLSTMCell.gates_st, LayerNormSubLSTMCell.gates.
  do 7 step. op_rule.
Qed.

Lemma LayerNormSubLSTMCell_locals_st_computes (s : Store F) (x hxr cxr : nat)
  (input hx cx : Matrix F) :
  LayerNormSubLSTMCell.holds s o self ->
  holds_matrix s x input -> holds_matrix s hxr hx -> holds_matrix s cxr cx ->
  computes holds_2 (LayerNormSubLSTMCell.locals_st o x (hxr, cxr)) s
    (LayerNormSubLSTMCell.locals self input (hx, cx)).
Proof.
  intros Hself Hx Hhx Hcx.
  unfold LayerNormSubLSTMCell.locals_st, LayerNormSubLSTMCell.locals.
  pose proof Hself as (Hwih & Hwhh & Hli & Hlh & Hlc).
  eapply computes_bind; [now apply LayerNormSubLSTMCell_gates_st_computes|].
  intros s1 g G Hext1 Hg. lift_facts Hext1.
  eapply computes_bind_ok; [apply computes_chunk; eassumption|].
  intros s2 cs Hext2 Hcs. lift_facts Hext2.
  eapply computes_bind; [apply computes_unpack4; eassumption|].
  intros s3 [[[ig fg] cg] og] [[[IG FG] CG] OG] Hext3 (Hig & Hfg & Hcg & Hog).
  lift_facts Hext3. cbv beta iota.
  do 6 step.
  apply computes_ret. split; assumption.
Qed.

Lemma LayerNormSubLSTMCell_forward_st_computes (s : Store F) (x hxr cxr : nat)
  (input hx cx : Matrix F) :
  LayerNormSubLSTMCell.holds s o self ->
  holds_matrix s x input -> holds_matrix s hxr hx -> holds_matrix s cxr cx ->
  computes holds_result (LayerNormSubLSTMCell.forward_st o x (hxr, cxr)) s
    (LayerNormSubLSTMCell.forward self input (hx, cx)).
Proof.
  intros Hself Hx Hhx Hcx.
  unfold LayerNormSubLSTMCell.forward_st, LayerNormSubLSTMCell.forward.
  eapply computes_bind; [now apply LayerNormSubLSTMCell_locals_st_computes|].
  intros s1 [hyr cyr] [hy cy] Hext1 (Hhy & Hcy). cbv beta iota.
  now apply computes_call_tensor.
Qed.

End NormalizedCellRun.

(** ** Calls neither write nor depend on anything but their arguments *)

Section Unchanged.
Context {F : Type} {E : Engine F}.

Lemma SubLSTMCell_holds_extends (s s' : Store F) o (self : SubLSTMCell.cell F) :
  extends s s' -> SubLSTMCell.holds s o self -> SubLSTMCell.holds s' o self.
Proof.
  intros Hext (Hwih & Hwhh & Hbih & Hbhh). lift_facts Hext.
  repeat split; assumption.
Qed.

Lemma LayerNormSubLSTMCell_holds_extends (s s' : Store F) o
  (self : LayerNormSubLSTMCell.cell F) :
  extends s s' ->
  LayerNormSubLSTMCell.holds s o self -> LayerNormSubLSTMCell.holds s' o self.
Proof.
  intros Hext (Hwih & Hwhh & Hli & Hlh & Hlc). lift_facts Hext.
  split; [|split; [|split; [|split]]]; assumption.
Qed.

Lemma fixSubLSTMCell_holds_extends (s s' : Store F) o
  (self : fixSubLSTMCell.cell F) :
  extends s s' -> fixSubLSTMCell.holds s o self -> fixSubLSTMCell.holds s' o self.
Proof.
  intros Hext (Hwih & Hwhh & Hbih & Hbhh & Hfg). lift_facts Hext.
  repeat split; assumption.
Qed.

Lemma LayerNormFixSubLSTMCell_holds_extends (s s' : Store F) o
  (self : LayerNormFixSubLSTMCell.cell F) :
  extends s s' ->
  LayerNormFixSubLSTMCell.holds s o self ->
  LayerNormFixSubLSTMCell.holds s' o self.
Proof.
  intros Hext (Hwih & Hwhh & Hfg & Hli & Hlh & Hlc). lift_facts Hext.
  split; [|split; [|split; [|split; [|split]]]]; assumption.
Qed.

Lemma PremulSubLSTMCell_holds_extends (s s' : Store F) o
  (self : PremulSubLSTMCell.cell F) :
  extends s s' ->
  PremulSubLSTMCell.holds s o self -> PremulSubLSTMCell.holds s' o self.
Proof.
  intros Hext (Hwhh & Hbhh). lift_facts Hext. split; assumption.
Qed.

Lemma variants_holds_extends (V : Variant F) (s s' : Store F)
  (o : v_stored V) (self : v_cell V) :
  In V variants -> extends s s' -> v_holds V s o self -> v_holds V s' o self.
Proof.
  intros HV Hext. unfold variants in HV. cbn [In] in HV.
  destruct HV as [<-|[<-|[<-|[<-|[<-|[]]]]]]; cbn.
  - now apply SubLSTMCell_holds_extends.
  - now apply LayerNormSubLSTMCell_holds_extends.
  - now apply fixSubLSTMCell_holds_extends.
  - now apply LayerNormFixSubLSTMCell_holds_extends.
  - now apply PremulSubLSTMCell_holds_extends.
Qed.

Lemma variants_forward_st_computes (V : Variant F) (s : Store F)
  (o : v_stored V) (self : v_cell V) (x hxr cxr : nat) (input hx cx : Matrix F) :
  In V variants ->
  v_holds V s o self ->
  holds_matrix s x input -> holds_matrix s hxr hx -> holds_matrix s cxr cx ->
  computes holds_result (v_forward_st V o x (hxr, cxr)) s
    (v_forward V self input (hx, cx)).
Proof.
  intros HV. unfold variants in HV. cbn [In] in HV.
  destruct HV as [<-|[<-|[<-|[<-|[<-|[]]]]]]; cbn.
  - apply SubLSTMCell_forward_st_computes.
  - apply LayerNormSubLSTMCell_forward_st_computes.
  - apply fixSubLSTMCell_forward_st_computes.
  - apply LayerNormFixSubLSTMCell_forward_st_computes.
  - apply PremulSubLSTMCell_forward_st_computes.
Qed.

End Unchanged.

(** C9. For each of the five variants, with the parameters of the cell,
    the input and the state pair in the store: two calls of [forward] in a
    row, on the same references, return the same tensors (or end in the
    same failure), namely what [forward] computes from the parameters, the
    input and the state; each call only allocates, so that after it the
    parameters, the input and the state are in the store as before. *)
Theorem forward_deterministic_and_pure (F : Type) (E : Engine F)
  (V : Variant F) (self : v_cell V) (o : v_stored V) (s : Store F)
  (x hxr cxr : nat) (input hx cx : Matrix F) :
  In V variants ->
  v_holds V s o self ->
  holds_matrix s x input -> holds_matrix s hxr hx -> holds_matrix s cxr cx ->
  exists s1 r1 s2 r2,
    v_forward_st V o x (hxr, cxr) s = (s1, r1) /\
    v_forward_st V o x (hxr, cxr) s1 = (s2, r2) /\
    view s1 r1 = tensors (v_forward V self input (hx, cx)) /\
    view s2 r2 = view s1 r1 /\
    extends s s1 /\ extends s1 s2 /\
    (v_holds V s1 o self /\ holds_matrix s1 x input /\
     holds_matrix s1 hxr hx /\ holds_matrix s1 cxr cx) /\
    (v_holds V s2 o self /\ holds_matrix s2 x input /\
     holds_matrix s2 hxr hx /\ holds_matrix s2 cxr cx).
Proof.
  intros HV Hself Hx Hhx Hcx.
  assert (Hkept : forall s', extends s s' ->
            v_holds V s' o self /\ holds_matrix s' x input /\
            holds_matrix s' hxr hx /\ holds_matrix s' cxr cx).
  { intros s' Hext.
    split; [now apply (@variants_holds_extends F E V s s' o self HV Hext)|].
    lift_facts Hext. repeat split; assumption. }
  destruct (@repeatable_of_computes F (v_forward_st V o x (hxr, cxr)) s
              (v_forward V self input (hx, cx)))
    as (s1 & r1 & s2 & r2 & H1 & H2 & E1 & E2 & V1 & V2).
  { intros s' Hext. destruct (Hkept s' Hext) as (Hs & Hx' & Hhx' & Hcx').
    now apply variants_forward_st_computes. }
  exists s1, r1, s2, r2.
  split; [exact H1|]. split; [exact H2|]. split; [exact V1|].
  split; [now rewrite V1, V2|]. split; [exact E1|]. split; [exact E2|].
  split; [now apply Hkept|].
  apply Hkept. eapply extends_trans; eassumption.
Qed.

Lemma forward_deterministic_and_pure_witness :
  exists s1 r1 s2 r2,
    v_forward_st SubLSTMCell_variant Example.basic_stored 4 (5, 6) Example.store = (s1, r1) /\
    v_forward_st SubLSTMCell_variant Example.basic_stored 4 (5, 6) s1 = (s2, r2) /\
    view s1 r1 =
      tensors (v_forward SubLSTMCell_variant Example.basic Example.input
                 (Example.hx, Example.cx)) /\
    view s2 r2 = view s1 r1 /\
    extends Example.store s1 /\ extends s1 s2 /\
    (v_holds SubLSTMCell_variant s1 Example.basic_stored Example.basic /\
     holds_matrix s1 4 Example.input /\
     holds_matrix s1 5 Example.hx /\ holds_matrix s1 6 Example.cx) /\
    (v_holds SubLSTMCell_variant s2 Example.basic_stored Example.basic /\
     holds_matrix s2 4 Example.input /\
     holds_matrix s2 5 Example.hx /\ holds_matrix s2 6 Example.cx).
Proof.
  refine (@forward_deterministic_and_pure R R_engine SubLSTMCell_variant
            Example.basic Example.basic_stored Example.store 4 5 6
            Example.input Example.hx Example.cx _ _ _ _ _).
  - left. reflexivity.
  - repeat split.
  - reflexivity.
  - reflexivity.
  - reflexivity.
Defined.

(** * Further properties of the cells *)

(** ** The update rule of [LayerNormFixSubLSTMCell] *)

(** X1. For an input of shape [B, I] and a state pair of shape [B, H],
    [LayerNormFixSubLSTMCell.forward] computes the gates as the sigmoid of
    [layernorm_i(input·Wih^T) + layernorm_h(hx·Whh^T)], splits them into
    the three slices [i, g, o], and returns
    [cy = layernorm_c(sigmoid(forgetgate) * cx + (g - i))] and
    [hy = tanh(cy) - o], with [hy] in both the output and the state. *)
Theorem LayerNormFixSubLSTMCell_forward_spec (F : Type) (E : Engine F)
  (self : LayerNormFixSubLSTMCell.cell F) (input hx cx : Matrix F) (B : nat) :
  LayerNormFixSubLSTMCell.initialized self ->
  has_shape input B (LayerNormFixSubLSTMCell.input_size self) ->
  has_shape hx B (LayerNormFixSubLSTMCell.hidden_size self) ->
  has_shape cx B (LayerNormFixSubLSTMCell.hidden_size self) ->
  let H := LayerNormFixSubLSTMCell.hidden_size self in
  let gates :=
    tabulate B (3 * H) (NormalizedFixedForgetCell_spec.gates self input hx) in
  LayerNormFixSubLSTMCell.gates self input hx = Ok gates /\
  chunk gates 3 =
    [tabulate B H (NormalizedFixedForgetCell_spec.i self input hx);
     tabulate B H (NormalizedFixedForgetCell_spec.g self input hx);
     tabulate B H (NormalizedFixedForgetCell_spec.o self input hx)] /\
  LayerNormFixSubLSTMCell.forward self input (hx, cx) =
    Ok (tabulate B H (NormalizedFixedForgetCell_spec.h_new self input hx cx),
        (tabulate B H (NormalizedFixedForgetCell_spec.h_new self input hx cx),
         tabulate B H (NormalizedFixedForgetCell_spec.c_new self input hx cx))).
Proof.
  intros Hinit Hinput Hhx Hcx H gates. repeat split.
  - now apply LayerNormFixSubLSTMCell_gates_table.
  - apply chunk_3_tabulate.
  - now apply LayerNormFixSubLSTMCell_forward_table.
Qed.

Lemma sample_normalizedfixed_initialized :
  LayerNormFixSubLSTMCell.initialized Sample.normalizedfixed.
Proof.
  unfold LayerNormFixSubLSTMCell.initialized, Sample.normalizedfixed.
  cbn [LayerNormFixSubLSTMCell.weight_ih LayerNormFixSubLSTMCell.weight_hh
       LayerNormFixSubLSTMCell.hidden_size LayerNormFixSubLSTMCell.input_size
       LayerNormFixSubLSTMCell.forgetgate
       LayerNormFixSubLSTMCell.layernorm_i LayerNormFixSubLSTMCell.layernorm_h
       LayerNormFixSubLSTMCell.layernorm_c].
  split; [shape|]. split; [shape|]. split; [reflexivity|].
  split; [|split]; apply layernorm_initialized.
Qed.

Lemma LayerNormFixSubLSTMCell_forward_spec_witness :
  LayerNormFixSubLSTMCell.forward Sample.normalizedfixed Example.input
    (Example.hx, Example.cx) =
  Ok (NormalizedFixedForgetCell_spec.update Sample.normalizedfixed
        Example.input Example.hx Example.cx 2).
Proof.
  apply (@LayerNormFixSubLSTMCell_forward_spec R R_engine Sample.normalizedfixed
           Example.input Example.hx Example.cx 2);
    first [exact sample_normalizedfixed_initialized | shape].
Defined.

(** ** The update rule of [PremulSubLSTMCell] *)

(** X2. For a projection of shape [B, 4H] and a state pair of shape
    [B, H], [PremulSubLSTMCell.forward] computes the gates as the sigmoid of
    [premul_input + hx·Whh^T + bias_hh], splits them into the four slices
    [i, f, g, o], and returns [cy = f * cx + (g - i)] and
    [hy = tanh(cy) - o], with [hy] in both the output and the state. *)
Theorem PremulSubLSTMCell_forward_spec (F : Type) (E : Engine F)
  (self : PremulSubLSTMCell.cell F) (premul_input hx cx : Matrix F) (B : nat) :
  PremulSubLSTMCell.initialized self ->
  has_shape premul_input B (4 * PremulSubLSTMCell.hidden_size self) ->
  has_shape hx B (PremulSubLSTMCell.hidden_size self) ->
  has_shape cx B (PremulSubLSTMCell.hidden_size self) ->
  let H := PremulSubLSTMCell.hidden_size self in
  let gates :=
    tabulate B (4 * H) (PrefusedCell_spec.gates self premul_input hx) in
  PremulSubLSTMCell.gates self premul_input hx = Ok gates /\
  chunk gates 4 =
    [tabulate B H (PrefusedCell_spec.i self premul_input hx);
     tabulate B H (PrefusedCell_spec.f self premul_input hx);
     tabulate B H (PrefusedCell_spec.g self premul_input hx);
     tabulate B H (PrefusedCell_spec.o self premul_input hx)] /\
  PremulSubLSTMCell.forward self premul_input (hx, cx) =
    Ok (tabulate B H (PrefusedCell_spec.h_new self premul_input hx cx),
        (tabulate B H (PrefusedCell_spec.h_new self premul_input hx cx),
         tabulate B H (PrefusedCell_spec.c_new self premul_input hx cx))).
Proof.
  intros Hinit Hinput Hhx Hcx H gates. repeat split.
  - now apply PremulSubLSTMCell_gates_table.
  - apply chunk_4_tabulate.
  - now apply PremulSubLSTMCell_forward_table.
Qed.

Lemma PremulSubLSTMCell_forward_spec_witness :
  PremulSubLSTMCell.forward Example.prefused Example.premul_input
    (Example.hx, Example.cx) =
  Ok (PrefusedCell_spec.update Example.prefused Example.premul_input
        Example.hx Example.cx 2).
Proof.
  apply (@PremulSubLSTMCell_forward_spec R R_engine Example.prefused
           Example.premul_input Example.hx Example.cx 2); shape.
Defined.

(** ** The four cells that return *)

Section Returning.
Context {F : Type} {E : Engine F}.

(** The result of each of the four, as tables of [B] rows and [H] columns. *)
Lemma returning_contracts_table (K : Contract F) (self : c_cell K) :
  In K returning_contracts ->
  c_initialized K self ->
  exists h c : Matrix F -> Matrix F -> Matrix F -> nat -> nat -> F,
    forall (input' hx' cx' : Matrix F) (B' : nat),
      has_shape input' B' (c_input_width K self) ->
      has_shape hx' B' (c_hidden_size K self) ->
      has_shape cx' B' (c_hidden_size K self) ->
      c_forward K self input' (hx', cx') =
      Ok (tabulate B' (c_hidden_size K self) (h input' hx' cx'),
          (tabulate B' (c_hidden_size K self) (h input' hx' cx'),
           tabulate B' (c_hidden_size K self) (c input' hx' cx'))).
Proof.
  intros HK Hinit. unfold returning_contracts in HK. cbn [In] in HK.
  destruct HK as [<-|[<-|[<-|[<-|[]]]]]; cbn in *.
  - exists (BasicCell_spec.h_new self), (BasicCell_spec.c_new self).
    intros x y z B' Hx Hy Hz. exact (SubLSTMCell_forward_table Hinit Hx Hy Hz).
  - exists (FixedForgetCell_spec.h_new self), (FixedForgetCell_spec.c_new self).
    intros x y z B' Hx Hy Hz. exact (fixSubLSTMCell_forward_table Hinit Hx Hy Hz).
  - exists (NormalizedFixedForgetCell_spec.h_new self),
           (NormalizedFixedForgetCell_spec.c_new self).
    intros x y z B' Hx Hy Hz.
    exact (LayerNormFixSubLSTMCell_forward_table Hinit Hx Hy Hz).
  - exists (PrefusedCell_spec.h_new self), (PrefusedCell_spec.c_new self).
    intros x y z B' Hx Hy Hz.
    exact (PremulSubLSTMCell_forward_table Hinit Hx Hy Hz).
Qed.

End Returning.

(** X3. Each of [SubLSTMCell], [fixSubLSTMCell], [LayerNormFixSubLSTMCell]
    and [PremulSubLSTMCell], called on tensors of the shapes of its
    contract, returns [(hy, (hy, cy))] with the same [hy] in both places and
    with [hy] and [cy] of shape [B, H]; no size is excluded, an empty batch
    and an empty hidden state included. *)
Theorem returning_cells_shape (F : Type) (E : Engine F) (K : Contract F)
  (self : c_cell K) (input hx cx : Matrix F) (B : nat) :
  In K returning_contracts ->
  c_initialized K self ->
  has_shape input B (c_input_width K self) ->
  has_shape hx B (c_hidden_size K self) ->
  has_shape cx B (c_hidden_size K self) ->
  exists hy cy,
    c_forward K self input (hx, cx) = Ok (hy, (hy, cy)) /\
    has_shape hy B (c_hidden_size K self) /\
    has_shape cy B (c_hidden_size K self).
Proof.
  intros HK Hinit Hinput Hhx Hcx.
  destruct (@returning_contracts_table F E K self HK Hinit)
    as (h & c & Hfwd).
  eexists; eexists. split; [exact (Hfwd input hx cx B Hinput Hhx Hcx)|].
  split; apply tabulate_has_shape.
Qed.

Lemma returning_cells_shape_witness :
  exists hy cy,
    c_forward LayerNormFixSubLSTMCell_contract Sample.normalizedfixed
      Example.input (Example.hx, Example.cx) = Ok (hy, (hy, cy)) /\
    has_shape hy 2 1 /\ has_shape cy 2 1.
Proof.
  refine (@returning_cells_shape R R_engine LayerNormFixSubLSTMCell_contract
            Sample.normalizedfixed Example.input Example.hx Example.cx 2
            _ _ _ _ _).
  - right. right. left. reflexivity.
  - exact sample_normalizedfixed_initialized.
  - shape.
  - shape.
  - shape.
Defined.

(** ** The calls [SubLSTMCell.forward] accepts *)

Section Acceptance.
Context {F : Type} {E : Engine F}.

Lemma broadcast_dim_eq (a b : nat) :
  broadcast_dim a b =
  if broadcastable a b then Ok (broadcast_size a b) else Err RuntimeError.
Proof.
  unfold broadcast_dim, broadcastable, broadcast_size.
  destruct (a =? b); [reflexivity|].
  destruct (a =? 1); [reflexivity|].
  destruct (b =? 1); reflexivity.
Qed.

Lemma broadcast_dim_back (a b : nat) :
  broadcastable a b = true ->
  broadcast_dim (broadcast_size a b) a = Ok (broadcast_size a b).
Proof.
  unfold broadcast_dim, broadcastable, broadcast_size.
  destruct (Nat.eqb_spec a b) as [->|Hab].
  - now rewrite Nat.eqb_refl.
  - destruct (Nat.eqb_spec a 1) as [->|Ha1].
    + intros _. destruct (Nat.eqb_spec b 1) as [->|Hb1]; [reflexivity|].
      destruct (Nat.eqb_spec b 1); [contradiction|reflexivity].
    + destruct (Nat.eqb_spec b 1) as [->|Hb1]; [|discriminate].
      intros _. now rewrite Nat.eqb_refl.
Qed.

Lemma chunk_4_narrow (m : Matrix F) (H : nat) :
  ncols m = 4 * H ->
  unpack4 (chunk m 4) =
  Ok (narrow m 0 H, narrow m H H, narrow m (2 * H) H, narrow m (3 * H) H).
Proof. intros Hc. now rewrite (chunk_4 m H Hc). Qed.

End Acceptance.

Section Sizes.
Context {F : Type} {E : Engine F}.

Lemma mm_sizes (a b : Matrix F) :
  ((ncols a =? nrows b) = true /\
   exists c, mm a b = Ok c /\ has_shape c (nrows a) (ncols b)) \/
  ((ncols a =? nrows b) = false /\ mm a b = Err RuntimeError).
Proof.
  unfold mm. destruct (ncols a =? nrows b); [left|right]; split; try reflexivity.
  eexists. split; [reflexivity|apply tabulate_has_shape].
Qed.

Lemma broadcast2_sizes (op : F -> F -> F) (a b : Matrix F) :
  (broadcastable (nrows a) (nrows b) = true /\
   broadcastable (ncols a) (ncols b) = true /\
   exists c, broadcast2 op a b = Ok c /\
     has_shape c (broadcast_size (nrows a) (nrows b))
                 (broadcast_size (ncols a) (ncols b))) \/
  (broadcastable (nrows a) (nrows b) && broadcastable (ncols a) (ncols b)
     = false /\
   broadcast2 op a b = Err RuntimeError).
Proof.
  unfold broadcast2. rewrite !broadcast_dim_eq.
  destruct (broadcastable (nrows a) (nrows b)); [|right; now split].
  destruct (broadcastable (ncols a) (ncols b)); [|right; now split].
  left. repeat split. eexists. split; [reflexivity|apply tabulate_has_shape].
Qed.

Lemma broadcastable_refl (n : nat) : broadcastable n n = true.
Proof. unfold broadcastable. now rewrite Nat.eqb_refl. Qed.

Lemma broadcastable_one (n : nat) : broadcastable n 1 = true.
Proof. unfold broadcastable. cbn. now rewrite !orb_true_r. Qed.

Lemma broadcast_size_refl (n : nat) : broadcast_size n n = n.
Proof. unfold broadcast_size. now rewrite Nat.eqb_refl. Qed.

Lemma broadcast_size_one (n : nat) : broadcast_size n 1 = n.
Proof.
  unfold broadcast_size. destruct (Nat.eqb_spec n 1) as [->|Hn]; [reflexivity|].
  destruct (Nat.eqb_spec n 1); [contradiction|reflexivity].
Qed.

Lemma broadcastable_back (a b : nat) :
  broadcastable a b = true -> broadcastable (broadcast_size a b) a = true.
Proof.
  intros Hab. pose proof (broadcast_dim_back a b Hab) as Hd.
  rewrite broadcast_dim_eq in Hd.
  destruct (broadcastable (broadcast_size a b) a); [reflexivity|discriminate].
Qed.

Lemma broadcast_size_back (a b : nat) :
  broadcastable a b = true ->
  broadcast_size (broadcast_size a b) a = broadcast_size a b.
Proof.
  intros Hab. pose proof (broadcast_dim_back a b Hab) as Hd.
  rewrite broadcast_dim_eq, (broadcastable_back a b Hab) in Hd. congruence.
Qed.

(** The statements after the gates, on any gates of [4 * H] columns. *)
Lemma tail4_sizes (gates cx : Matrix F) (B H : nat) :
  nrows gates = B -> ncols gates = 4 * H ->
  accepted (broadcastable B (nrows cx) && broadcastable H (ncols cx))
    (broadcast_size B (nrows cx)) (broadcast_size H (ncols cx))
    ('(ingate, forgetgate, cellgate, outgate) <- unpack4 (chunk gates 4);;
     retained <- mmul forgetgate cx;;
     contribution <- msub cellgate ingate;;
     cy <- madd retained contribution;;
     hy <- msub (mtanh cy) outgate;;
     Ok (hy, (hy, cy))).
Proof.
  intros Hr Hc. rewrite (chunk_4_narrow gates H Hc). cbn [bind].
  unfold mmul, msub, madd.
  destruct (broadcast2_sizes s_mul (narrow gates H H) cx)
    as [(R1 & C1 & retained & -> & Sr) | (N1 & ->)]; cbn [bind];
    cbn [nrows ncols narrow tabulate] in *; rewrite ?Hr in *;
    [|now split].
  destruct (broadcast2_sizes s_sub (narrow gates (2 * H) H) (narrow gates 0 H))
    as [(R2 & C2 & contribution & -> & Sc) | (N2 & ->)]; cbn [bind];
    cbn [nrows ncols narrow tabulate] in *; rewrite ?Hr in *;
    [|now rewrite !broadcastable_refl in N2].
  rewrite !broadcast_size_refl in Sc.
  destruct Sr as (Rr & Rc & Sr), Sc as (Cr & Cc & Sc).
  destruct (broadcast2_sizes s_add retained contribution)
    as [(R3 & C3 & cy & -> & Sy) | (N3 & ->)]; cbn [bind];
    rewrite ?Rr, ?Rc, ?Cr, ?Cc in *;
    [|now rewrite !broadcastable_back in N3].
  rewrite !broadcast_size_back in Sy by assumption.
  destruct (broadcast2_sizes s_sub (mtanh cy) (narrow gates (3 * H) H))
    as [(R4 & C4 & hy & -> & Sh) | (N4 & ->)]; cbn [bind];
    cbn [nrows ncols narrow tabulate mtanh map_matrix] in *;
    destruct Sy as (Yr & Yc & Sy); rewrite ?Hr, ?Yr, ?Yc in *;
    [|now rewrite !broadcastable_back in N4].
  rewrite !broadcast_size_back in Sh by assumption.
  cbn [accepted]. rewrite R1, C1.
  split; [reflexivity|]. split; [reflexivity|]. split; [exact Sh|].
  unfold has_shape. auto.
Qed.

End Sizes.

Section BasicCellSizes.
Context {F : Type} {E : Engine F}.
Variable self : SubLSTMCell.cell F.
Hypothesis Hinit : SubLSTMCell.initialized self.

Lemma SubLSTMCell_gates_sizes (input hx : Matrix F) :
  let ok := (ncols input =? SubLSTMCell.input_size self) &&
            (ncols hx =? SubLSTMCell.hidden_size self) &&
            broadcastable (nrows input) (nrows hx) in
  (ok = true /\
   exists gates, SubLSTMCell.gates self input hx = Ok gates /\
     nrows gates = broadcast_size (nrows input) (nrows hx) /\
     ncols gates = 4 * SubLSTMCell.hidden_size self) \/
  (ok = false /\ SubLSTMCell.gates self input hx = Err RuntimeError).
Proof.
  destruct Hinit as ((Wr & Wc & _) & (Vr & Vc & _) & Lih & Lhh).
  intros ok. subst ok. unfold SubLSTMCell.gates, madd_v, madd.
  destruct (mm_sizes input (t (SubLSTMCell.weight_ih self)))
    as [(C1 & ih & -> & Ir & Ic & _) | (N1 & ->)];
    cbn [nrows ncols t tabulate] in *; rewrite ?Wc, ?Wr in *; cbn [bind];
    [rewrite C1 | rewrite N1; now right].
  destruct (broadcast2_sizes s_add ih (of_vector (SubLSTMCell.bias_ih self)))
    as [(_ & _ & s1 & -> & Sr & Sc & _) | (N2 & ->)];
    cbn [nrows ncols of_vector] in *; rewrite ?Ir, ?Ic, ?Lih in *; cbn [bind];
    [|now rewrite broadcastable_one, broadcastable_refl in N2].
  rewrite broadcast_size_one, broadcast_size_refl in *.
  destruct (mm_sizes hx (t (SubLSTMCell.weight_hh self)))
    as [(C3 & hh & -> & Hr & Hc & _) | (N3 & ->)];
    cbn [nrows ncols t tabulate] in *; rewrite ?Vc, ?Vr in *; cbn [bind];
    [rewrite C3 | rewrite N3; now right].
  destruct (broadcast2_sizes s_add s1 hh)
    as [(R4 & _ & s2 & -> & Tr & Tc & _) | (N4 & ->)];
    rewrite ?Sr, ?Sc, ?Hr, ?Hc in *; cbn [bind];
    [rewrite R4
    |rewrite broadcastable_refl, andb_true_r in N4; rewrite N4; now right].
  rewrite broadcast_size_refl in *.
  destruct (broadcast2_sizes s_add s2 (of_vector (SubLSTMCell.bias_hh self)))
    as [(_ & _ & s3 & -> & Ur & Uc & _) | (N5 & ->)];
    cbn [nrows ncols of_vector] in *; rewrite ?Tr, ?Tc, ?Lhh in *; cbn [bind];
    [|now rewrite broadcastable_one, broadcastable_refl in N5].
  rewrite broadcast_size_one, broadcast_size_refl in *.
  left. split; [reflexivity|]. eexists. split; [reflexivity|].
  cbn [nrows ncols msigmoid map_matrix tabulate]. now split.
Qed.

End BasicCellSizes.

(** X5. [SubLSTMCell.forward] on a constructed cell, whatever the tensors
    of the caller: it returns exactly when the width of the input is
    [input_size], the width of the hidden state is [hidden_size], the batch
    sizes of input and hidden state broadcast, and the cell state
    broadcasts against them and against [hidden_size]; the result then is
    [(hy, (hy, cy))] with both tensors of the broadcast sizes.  Every other
    call ends in the engine's [RuntimeError], never in a failure of the
    unpacking of the gates. *)
Theorem SubLSTMCell_forward_accepts (F : Type) (E : Engine F)
  (self : SubLSTMCell.cell F) (input hx cx : Matrix F) :
  SubLSTMCell.initialized self ->
  accepted (SubLSTMCell_accepts self input hx cx)
    (SubLSTMCell_result_rows input hx cx) (SubLSTMCell_result_cols self cx)
    (SubLSTMCell.forward self input (hx, cx)).
Proof.
  intros Hinit.
  unfold SubLSTMCell_accepts, SubLSTMCell_result_rows, SubLSTMCell_result_cols.
  unfold SubLSTMCell.forward.
  destruct (SubLSTMCell_gates_sizes Hinit input hx)
    as [(Hok & gates & -> & Gr & Gc) | (Hok & ->)]; cbn [bind].
  - rewrite Hok. cbn [andb]. apply (@tail4_sizes F E gates cx _ _ Gr Gc).
  - rewrite Hok. cbn [andb accepted]. now split.
Qed.

Lemma SubLSTMCell_forward_accepts_witness :
  accepted (SubLSTMCell_accepts Example.basic Example.input Example.hx Example.cx)
    (SubLSTMCell_result_rows Example.input Example.hx Example.cx)
    (SubLSTMCell_result_cols Example.basic Example.cx)
    (SubLSTMCell.forward Example.basic Example.input (Example.hx, Example.cx)).
Proof.
  apply (@SubLSTMCell_forward_accepts R R_engine Example.basic
           Example.input Example.hx Example.cx); shape.
Defined.

Section PrefusedCellSizes.
Context {F : Type} {E : Engine F}.
Variable self : PremulSubLSTMCell.cell F.
Hypothesis Hinit : PremulSubLSTMCell.initialized self.

Lemma broadcast_size_gates (p H : nat) :
  broadcastable p (4 * H) = true -> broadcast_size p (4 * H) = 4 * H.
Proof.
  unfold broadcastable, broadcast_size.
  destruct (Nat.eqb_spec p (4 * H)) as [->|Hp]; [reflexivity|].
  destruct (Nat.eqb_spec p 1) as [->|Hp1]; [reflexivity|].
  destruct (Nat.eqb_spec (4 * H) 1) as [H1|H1]; [lia|discriminate].
Qed.

Lemma PremulSubLSTMCell_gates_sizes (premul_input hx : Matrix F) :
  let ok := (ncols hx =? PremulSubLSTMCell.hidden_size self) &&
            broadcastable (nrows premul_input) (nrows hx) &&
            broadcastable (ncols premul_input)
              (4 * PremulSubLSTMCell.hidden_size self) in
  (ok = true /\
   exists gates, PremulSubLSTMCell.gates self premul_input hx = Ok gates /\
     nrows gates = broadcast_size (nrows premul_input) (nrows hx) /\
     ncols gates = 4 * PremulSubLSTMCell.hidden_size self) \/
  (ok = false /\
   PremulSubLSTMCell.gates self premul_input hx = Err RuntimeError).
Proof.
  destruct Hinit as ((Vr & Vc & _) & Lhh).
  intros ok. subst ok. unfold PremulSubLSTMCell.gates, madd_v, madd.
  destruct (mm_sizes hx (t (PremulSubLSTMCell.weight_hh self)))
    as [(C1 & hh & -> & Hr & Hc & _) | (N1 & ->)];
    cbn [nrows ncols t tabulate] in *; rewrite ?Vc, ?Vr in *; cbn [bind];
    [rewrite C1 | rewrite N1; now right].
  destruct (broadcast2_sizes s_add premul_input hh)
    as [(R2 & C2 & s1 & -> & Sr & Sc & _) | (N2 & ->)];
    rewrite ?Hr, ?Hc in *; cbn [bind andb];
    [rewrite R2, C2 | rewrite N2; now right].
  rewrite (broadcast_size_gates _ _ C2) in Sc.
  destruct (broadcast2_sizes s_add s1 (of_vector (PremulSubLSTMCell.bias_hh self)))
    as [(_ & _ & s2 & -> & Ur & Uc & _) | (N3 & ->)];
    cbn [nrows ncols of_vector] in *; rewrite ?Sr, ?Sc, ?Lhh in *; cbn [bind];
    [|now rewrite broadcastable_one, broadcastable_refl in N3].
  rewrite broadcast_size_one, broadcast_size_refl in *.
  left. split; [reflexivity|]. eexists. split; [reflexivity|].
  cbn [nrows ncols msigmoid map_matrix tabulate]. now split.
Qed.

End PrefusedCellSizes.

(** X6. [PremulSubLSTMCell.forward] on a constructed cell, whatever the
    tensors of the caller: it returns exactly when the width of the hidden
    state is [hidden_size], the projection broadcasts against
    [hx·Whh^T] (in rows against the batch of [hx], in columns against
    [4 * hidden_size], so that a projection of one column is accepted),
    and the cell state broadcasts against the result; every other call ends
    in the engine's [RuntimeError].  The recorded [input_size] plays no
    part. *)
Theorem PremulSubLSTMCell_forward_accepts (F : Type) (E : Engine F)
  (self : PremulSubLSTMCell.cell F) (premul_input hx cx : Matrix F) :
  PremulSubLSTMCell.initialized self ->
  accepted (PremulSubLSTMCell_accepts self premul_input hx cx)
    (SubLSTMCell_result_rows premul_input hx cx)
    (PremulSubLSTMCell_result_cols self cx)
    (PremulSubLSTMCell.forward self premul_input (hx, cx)).
Proof.
  intros Hinit.
  unfold PremulSubLSTMCell_accepts, SubLSTMCell_result_rows,
    PremulSubLSTMCell_result_cols.
  unfold PremulSubLSTMCell.forward.
  destruct (PremulSubLSTMCell_gates_sizes Hinit premul_input hx)
    as [(Hok & gates & -> & Gr & Gc) | (Hok & ->)]; cbn [bind].
  - rewrite Hok. cbn [andb]. apply (@tail4_sizes F E gates cx _ _ Gr Gc).
  - rewrite Hok. cbn [andb accepted]. now split.
Qed.

Lemma PremulSubLSTMCell_forward_accepts_witness :
  accepted
    (PremulSubLSTMCell_accepts Example.prefused (Zeros.zeros 2 1)
       Example.hx Example.cx)
    (SubLSTMCell_result_rows (Zeros.zeros 2 1) Example.hx Example.cx)
    (PremulSubLSTMCell_result_cols Example.prefused Example.cx)
    (PremulSubLSTMCell.forward Example.prefused (Zeros.zeros 2 1)
       (Example.hx, Example.cx)).
Proof.
  apply (@PremulSubLSTMCell_forward_accepts R R_engine Example.prefused
           (Zeros.zeros 2 1) Example.hx Example.cx); shape.
Defined.

Section MoreSizes.
Context {F : Type} {E : Engine F}.

Lemma LayerNorm_forward_sizes (ln : LayerNorm F) (x : Matrix F) :
  ((ncols x =? normalized_shape ln) = true /\
   exists y, LayerNorm_forward ln x = Ok y /\ has_shape y (nrows x) (ncols x)) \/
  ((ncols x =? normalized_shape ln) = false /\
   LayerNorm_forward ln x = Err RuntimeError).
Proof.
  unfold LayerNorm_forward.
  destruct (ncols x =? normalized_shape ln); [left|right]; split;
    try reflexivity.
  eexists. split; [reflexivity|apply tabulate_has_shape].
Qed.

Lemma broadcastable_sym (a b : nat) : broadcastable a b = broadcastable b a.
Proof.
  unfold broadcastable. rewrite (Nat.eqb_sym a b).
  destruct (b =? a), (a =? 1), (b =? 1); reflexivity.
Qed.

Lemma broadcastable_one_l (n : nat) : broadcastable 1 n = true.
Proof. rewrite broadcastable_sym. apply broadcastable_one. Qed.

Lemma broadcast_size_one_l (n : nat) : broadcast_size 1 n = n.
Proof.
  unfold broadcast_size. destruct (Nat.eqb_spec 1 n) as [<-|Hn]; reflexivity.
Qed.

Lemma broadcast_size_sym (a b : nat) :
  broadcastable a b = true -> broadcast_size a b = broadcast_size b a.
Proof.
  unfold broadcastable, broadcast_size.
  destruct (Nat.eqb_spec a b) as [->|Hab]; [now rewrite Nat.eqb_refl|].
  destruct (Nat.eqb_spec b a) as [Hba|_]; [congruence|].
  destruct (Nat.eqb_spec a 1) as [->|Ha]; destruct (Nat.eqb_spec b 1) as [->|Hb];
    try reflexivity; try congruence. discriminate.
Qed.

Lemma broadcastable_back_r (a b : nat) :
  broadcastable a b = true -> broadcastable (broadcast_size a b) b = true.
Proof.
  intros Hab. rewrite (broadcast_size_sym a b Hab).
  apply broadcastable_back. now rewrite broadcastable_sym.
Qed.

Lemma broadcast_size_back_r (a b : nat) :
  broadcastable a b = true ->
  broadcast_size (broadcast_size a b) b = broadcast_size a b.
Proof.
  intros Hab. rewrite (broadcast_size_sym a b Hab).
  apply broadcast_size_back. now rewrite broadcastable_sym.
Qed.

Lemma chunk_3_narrow (m : Matrix F) (H : nat) :
  ncols m = 3 * H ->
  unpack3 (chunk m 3) = Ok (narrow m 0 H, narrow m H H, narrow m (2 * H) H).
Proof. intros Hc. now rewrite (chunk_3 m H Hc). Qed.

(** The statements after the gates of [fixSubLSTMCell.forward]. *)
Lemma tail3_sizes (gates cx : Matrix F) (fg : Vector F) (B H : nat) :
  nrows gates = B -> ncols gates = 3 * H -> length fg = H ->
  accepted (broadcastable H (ncols cx) && broadcastable (nrows cx) B)
    (broadcast_size (nrows cx) B) (broadcast_size H (ncols cx))
    ('(ingate, cellgate, outgate) <- unpack3 (chunk gates 3);;
     retained <- vmul_m (vsigmoid fg) cx;;
     contribution <- msub cellgate ingate;;
     cy <- madd retained contribution;;
     hy <- msub (mtanh cy) outgate;;
     Ok (hy, (hy, cy))).
Proof.
  intros Hr Hc Hfg. rewrite (chunk_3_narrow gates H Hc). cbn [bind].
  unfold vmul_m, mmul, msub, madd.
  destruct (broadcast2_sizes s_mul (of_vector (vsigmoid fg)) cx)
    as [(_ & C1 & retained & -> & Rr & Rc & _) | (N1 & ->)]; cbn [bind];
    cbn [nrows ncols of_vector] in *; unfold vsigmoid in *;
    rewrite ?length_map, ?Hfg, ?broadcastable_one_l, ?broadcast_size_one_l in *;
    cbn [andb] in *; [rewrite C1; cbn [andb] | rewrite N1; now split].
  destruct (broadcast2_sizes s_sub (narrow gates H H) (narrow gates 0 H))
    as [(_ & _ & contribution & -> & Cr & Cc & _) | (N2 & ->)]; cbn [bind];
    cbn [nrows ncols narrow tabulate] in *; rewrite ?Hr in *;
    [|now rewrite !broadcastable_refl in N2].
  rewrite !broadcast_size_refl in *.
  destruct (broadcast2_sizes s_add retained contribution)
    as [(R3 & _ & cy & -> & Yr & Yc & Sy) | (N3 & ->)]; cbn [bind];
    rewrite ?Rr, ?Rc, ?Cr, ?Cc in *;
    [rewrite R3
    |rewrite (broadcastable_back _ _ C1), andb_true_r in N3; rewrite N3;
     now split].
  rewrite (broadcast_size_back _ _ C1) in *.
  destruct (broadcast2_sizes s_sub (mtanh cy) (narrow gates (2 * H) H))
    as [(_ & _ & hy & -> & Sh) | (N4 & ->)]; cbn [bind];
    cbn [nrows ncols narrow tabulate mtanh map_matrix] in *;
    rewrite ?Hr, ?Yr, ?Yc in *;
    [|now rewrite (broadcastable_back_r _ _ R3), (broadcastable_back _ _ C1)
        in N4].
  rewrite (broadcast_size_back_r _ _ R3), (broadcast_size_back _ _ C1) in Sh.
  cbn [accepted].
  split; [reflexivity|]. split; [reflexivity|]. split; [exact Sh|].
  unfold has_shape. auto.
Qed.

(** The same with [layernorm_c] on the combined cell state. *)
Lemma tail3_norm_sizes (gates cx : Matrix F) (fg : Vector F) (ln : LayerNorm F)
  (B H : nat) :
  nrows gates = B -> ncols gates = 3 * H -> length fg = H ->
  normalized_shape ln = H ->
  accepted (broadcastable H (ncols cx) && broadcastable (nrows cx) B &&
            (broadcast_size H (ncols cx) =? H))
    (broadcast_size (nrows cx) B) H
    ('(ingate, cellgate, outgate) <- unpack3 (chunk gates 3);;
     retained <- vmul_m (vsigmoid fg) cx;;
     contribution <- msub cellgate ingate;;
     pre <- madd retained contribution;;
     cy <- LayerNorm_forward ln pre;;
     hy <- msub (mtanh cy) outgate;;
     Ok (hy, (hy, cy))).
Proof.
  intros Hr Hc Hfg Hln. rewrite (chunk_3_narrow gates H Hc). cbn [bind].
  unfold vmul_m, mmul, msub, madd.
  destruct (broadcast2_sizes s_mul (of_vector (vsigmoid fg)) cx)
    as [(_ & C1 & retained & -> & Rr & Rc & _) | (N1 & ->)]; cbn [bind];
    cbn [nrows ncols of_vector] in *; unfold vsigmoid in *;
    rewrite ?length_map, ?Hfg, ?broadcastable_one_l, ?broadcast_size_one_l in *;
    cbn [andb] in *; [rewrite C1; cbn [andb] | rewrite N1; now split].
  destruct (broadcast2_sizes s_sub (narrow gates H H) (narrow gates 0 H))
    as [(_ & _ & contribution & -> & Cr & Cc & _) | (N2 & ->)]; cbn [bind];
    cbn [nrows ncols narrow tabulate] in *; rewrite ?Hr in *;
    [|now rewrite !broadcastable_refl in N2].
  rewrite !broadcast_size_refl in *.
  destruct (broadcast2_sizes s_add retained contribution)
    as [(R3 & _ & pre & -> & Pr & Pc & _) | (N3 & ->)]; cbn [bind];
    rewrite ?Rr, ?Rc, ?Cr, ?Cc in *;
    [rewrite R3; cbn [andb]
    |rewrite (broadcastable_back _ _ C1), andb_true_r in N3; rewrite N3;
     now split].
  rewrite (broadcast_size_back _ _ C1) in *.
  destruct (LayerNorm_forward_sizes ln pre)
    as [(L4 & cy & -> & Yr & Yc & Sy) | (N4 & ->)]; cbn [bind];
    rewrite ?Pr, ?Pc, ?Hln in *; [rewrite L4 | rewrite N4; now split].
  apply Nat.eqb_eq in L4. rewrite L4 in *.
  destruct (broadcast2_sizes s_sub (mtanh cy) (narrow gates (2 * H) H))
    as [(_ & _ & hy & -> & Sh) | (N5 & ->)]; cbn [bind];
    cbn [nrows ncols narrow tabulate mtanh map_matrix] in *;
    rewrite ?Hr, ?Yr, ?Yc in *;
    [|now rewrite (broadcastable_back_r _ _ R3), broadcastable_refl in N5].
  rewrite (broadcast_size_back_r _ _ R3), broadcast_size_refl in Sh.
  cbn [accepted].
  split; [reflexivity|]. split; [reflexivity|]. split; [exact Sh|].
  unfold has_shape. auto.
Qed.

(** The locals of [LayerNormSubLSTMCell.forward] before its [return]. *)
Lemma tail4_norm_sizes (gates cx : Matrix F) (ln : LayerNorm F) (B H : nat) :
  nrows gates = B -> ncols gates = 4 * H -> normalized_shape ln = H ->
  let ok := broadcastable B (nrows cx) && broadcastable H (ncols cx) &&
            (broadcast_size H (ncols cx) =? H) in
  let run :=
    '(ingate, forgetgate, cellgate, outgate) <- unpack4 (chunk gates 4);;
    retained <- mmul forgetgate cx;;
    contribution <- msub cellgate ingate;;
    pre <- madd retained contribution;;
    cy <- LayerNorm_forward ln pre;;
    hy <- msub (mtanh cy) outgate;;
    Ok (hy, cy) in
  (ok = true /\ exists hy cy, run = Ok (hy, cy)) \/
  (ok = false /\ run = Err RuntimeError).
Proof.
  intros Hr Hc Hln ok run. subst ok run.
  rewrite (chunk_4_narrow gates H Hc). cbn [bind].
  unfold mmul, msub, madd.
  destruct (broadcast2_sizes s_mul (narrow gates H H) cx)
    as [(R1 & C1 & retained & -> & Rr & Rc & _) | (N1 & ->)]; cbn [bind];
    cbn [nrows ncols narrow tabulate] in *; rewrite ?Hr in *;
    [rewrite R1, C1; cbn [andb] | rewrite N1; now right].
  destruct (broadcast2_sizes s_sub (narrow gates (2 * H) H) (narrow gates 0 H))
    as [(_ & _ & contribution & -> & Cr & Cc & _) | (N2 & ->)]; cbn [bind];
    cbn [nrows ncols narrow tabulate] in *; rewrite ?Hr in *;
    [|now rewrite !broadcastable_refl in N2].
  rewrite !broadcast_size_refl in *.
  destruct (broadcast2_sizes s_add retained contribution)
    as [(_ & _ & pre & -> & Pr & Pc & _) | (N3 & ->)]; cbn [bind];
    rewrite ?Rr, ?Rc, ?Cr, ?Cc in *;
    [|now rewrite !broadcastable_back in N3].
  rewrite !broadcast_size_back in * by assumption.
  destruct (LayerNorm_forward_sizes ln pre)
    as [(L4 & cy & -> & Yr & Yc & Sy) | (N4 & ->)]; cbn [bind];
    rewrite ?Pr, ?Pc, ?Hln in *; [rewrite L4 | rewrite N4; now right].
  destruct (broadcast2_sizes s_sub (mtanh cy) (narrow gates (3 * H) H))
    as [(_ & _ & hy & -> & Sh) | (N5 & ->)]; cbn [bind];
    cbn [nrows ncols narrow tabulate mtanh map_matrix] in *;
    rewrite ?Hr, ?Yr, ?Yc in *.
  - left. split; [reflexivity|]. now exists hy, cy.
  - apply Nat.eqb_eq in L4. rewrite L4 in N5.
    now rewrite (broadcastable_back _ _ R1), broadcastable_refl in N5.
Qed.

End MoreSizes.

Lemma fixSubLSTMCell_gates_sizes (F : Type) (E : Engine F) (self : fixSubLSTMCell.cell F)
  (input hx : Matrix F) :
  fixSubLSTMCell.initialized self ->
  let ok := (ncols input =? fixSubLSTMCell.input_size self) &&
            (ncols hx =? fixSubLSTMCell.hidden_size self) &&
            broadcastable (nrows input) (nrows hx) in
  (ok = true /\
   exists gates, fixSubLSTMCell.gates self input hx = Ok gates /\
     nrows gates = broadcast_size (nrows input) (nrows hx) /\
     ncols gates = 3 * fixSubLSTMCell.hidden_size self) \/
  (ok = false /\ fixSubLSTMCell.gates self input hx = Err RuntimeError).
Proof.
  intros ((Wr & Wc & _) & (Vr & Vc & _) & Lih & Lhh & Lfg).
  intros ok. subst ok. unfold fixSubLSTMCell.gates, madd_v, madd.
  destruct (mm_sizes input (t (fixSubLSTMCell.weight_ih self)))
    as [(C1 & ih & -> & Ir & Ic & _) | (N1 & ->)];
    cbn [nrows ncols t tabulate] in *; rewrite ?Wc, ?Wr in *; cbn [bind];
    [rewrite C1 | rewrite N1; now right].
  destruct (broadcast2_sizes s_add ih (of_vector (fixSubLSTMCell.bias_ih self)))
    as [(_ & _ & s1 & -> & Sr & Sc & _) | (N2 & ->)];
    cbn [nrows ncols of_vector] in *; rewrite ?Ir, ?Ic, ?Lih in *; cbn [bind];
    [|now rewrite broadcastable_one, broadcastable_refl in N2].
  rewrite broadcast_size_one, broadcast_size_refl in *.
  destruct (mm_sizes hx (t (fixSubLSTMCell.weight_hh self)))
    as [(C3 & hh & -> & Hr & Hc & _) | (N3 & ->)];
    cbn [nrows ncols t tabulate] in *; rewrite ?Vc, ?Vr in *; cbn [bind];
    [rewrite C3 | rewrite N3; now right].
  destruct (broadcast2_sizes s_add s1 hh)
    as [(R4 & _ & s2 & -> & Tr & Tc & _) | (N4 & ->)];
    rewrite ?Sr, ?Sc, ?Hr, ?Hc in *; cbn [bind];
    [rewrite R4
    |rewrite broadcastable_refl, andb_true_r in N4; rewrite N4; now right].
  rewrite broadcast_size_refl in *.
  destruct (broadcast2_sizes s_add s2 (of_vector (fixSubLSTMCell.bias_hh self)))
    as [(_ & _ & s3 & -> & Ur & Uc & _) | (N5 & ->)];
    cbn [nrows ncols of_vector] in *; rewrite ?Tr, ?Tc, ?Lhh in *; cbn [bind];
    [|now rewrite broadcastable_one, broadcastable_refl in N5].
  rewrite broadcast_size_one, broadcast_size_refl in *.
  left. split; [reflexivity|]. eexists. split; [reflexivity|].
  cbn [nrows ncols msigmoid map_matrix tabulate]. now split.
Qed.

Lemma LayerNormFixSubLSTMCell_gates_sizes (F : Type) (E : Engine F) (self : LayerNormFixSubLSTMCell.cell F)
  (input hx : Matrix F) :
  LayerNormFixSubLSTMCell.initialized self ->
  let ok := (ncols input =? LayerNormFixSubLSTMCell.input_size self) &&
            (ncols hx =? LayerNormFixSubLSTMCell.hidden_size self) &&
            broadcastable (nrows input) (nrows hx) in
  (ok = true /\
   exists gates, LayerNormFixSubLSTMCell.gates self input hx = Ok gates /\
     nrows gates = broadcast_size (nrows input) (nrows hx) /\
     ncols gates = 3 * LayerNormFixSubLSTMCell.hidden_size self) \/
  (ok = false /\ LayerNormFixSubLSTMCell.gates self input hx = Err RuntimeError).
Proof.
  intros ((Wr & Wc & _) & (Vr & Vc & _) & Lfg & (Ni & _) & (Nh & _) & (Nc & _)).
  intros ok. subst ok. unfold LayerNormFixSubLSTMCell.gates, madd.
  destruct (mm_sizes input (t (LayerNormFixSubLSTMCell.weight_ih self)))
    as [(C1 & ih & -> & Ir & Ic & _) | (N1 & ->)];
    cbn [nrows ncols t tabulate] in *; rewrite ?Wc, ?Wr in *; cbn [bind];
    [rewrite C1 | rewrite N1; now right].
  destruct (LayerNorm_forward_sizes (LayerNormFixSubLSTMCell.layernorm_i self) ih)
    as [(_ & igates & -> & Sr & Sc & _) | (N2 & ->)];
    rewrite ?Ir, ?Ic, ?Ni in *; cbn [bind];
    [|now rewrite Nat.eqb_refl in N2].
  destruct (mm_sizes hx (t (LayerNormFixSubLSTMCell.weight_hh self)))
    as [(C3 & hh & -> & Hr & Hc & _) | (N3 & ->)];
    cbn [nrows ncols t tabulate] in *; rewrite ?Vc, ?Vr in *; cbn [bind];
    [rewrite C3 | rewrite N3; now right].
  destruct (LayerNorm_forward_sizes (LayerNormFixSubLSTMCell.layernorm_h self) hh)
    as [(_ & hgates & -> & Tr & Tc & _) | (N4 & ->)];
    rewrite ?Hr, ?Hc, ?Nh in *; cbn [bind];
    [|now rewrite Nat.eqb_refl in N4].
  destruct (broadcast2_sizes s_add igates hgates)
    as [(R5 & _ & s & -> & Ur & Uc & _) | (N5 & ->)];
    rewrite ?Sr, ?Sc, ?Tr, ?Tc in *; cbn [bind];
    [rewrite R5
    |rewrite broadcastable_refl, andb_true_r in N5; rewrite N5; now right].
  rewrite broadcast_size_refl in *.
  left. split; [reflexivity|]. eexists. split; [reflexivity|].
  cbn [nrows ncols msigmoid map_matrix tabulate]. now split.
Qed.

Lemma LayerNormSubLSTMCell_gates_sizes (F : Type) (E : Engine F) (self : LayerNormSubLSTMCell.cell F)
  (input hx : Matrix F) :
  LayerNormSubLSTMCell.initialized self ->
  let ok := (ncols input =? LayerNormSubLSTMCell.input_size self) &&
            (ncols hx =? LayerNormSubLSTMCell.hidden_size self) &&
            broadcastable (nrows input) (nrows hx) in
  (ok = true /\
   exists gates, LayerNormSubLSTMCell.gates self input hx = Ok gates /\
     nrows gates = broadcast_size (nrows input) (nrows hx) /\
     ncols gates = 4 * LayerNormSubLSTMCell.hidden_size self) \/
  (ok = false /\ LayerNormSubLSTMCell.gates self input hx = Err RuntimeError).
Proof.
  intros ((Wr & Wc & _) & (Vr & Vc & _) & (Ni & _) & (Nh & _) & (Nc & _)).
  intros ok. subst ok. unfold LayerNormSubLSTMCell.gates, madd.
  destruct (mm_sizes input (t (LayerNormSubLSTMCell.weight_ih self)))
    as [(C1 & ih & -> & Ir & Ic & _) | (N1 & ->)];
    cbn [nrows ncols t tabulate] in *; rewrite ?Wc, ?Wr in *; cbn [bind];
    [rewrite C1 | rewrite N1; now right].
  destruct (LayerNorm_forward_sizes (LayerNormSubLSTMCell.layernorm_i self) ih)
    as [(_ & igates & -> & Sr & Sc & _) | (N2 & ->)];
    rewrite ?Ir, ?Ic, ?Ni in *; cbn [bind];
    [|now rewrite Nat.eqb_refl in N2].
  destruct (mm_sizes hx (t (LayerNormSubLSTMCell.weight_hh self)))
    as [(C3 & hh & -> & Hr & Hc & _) | (N3 & ->)];
    cbn [nrows ncols t tabulate] in *; rewrite ?Vc, ?Vr in *; cbn [bind];
    [rewrite C3 | rewrite N3; now right].
  destruct (LayerNorm_forward_sizes (LayerNormSubLSTMCell.layernorm_h self) hh)
    as [(_ & hgates & -> & Tr & Tc & _) | (N4 & ->)];
    rewrite ?Hr, ?Hc, ?Nh in *; cbn [bind];
    [|now rewrite Nat.eqb_refl in N4].
  destruct (broadcast2_sizes s_add igates hgates)
    as [(R5 & _ & s & -> & Ur & Uc & _) | (N5 & ->)];
    rewrite ?Sr, ?Sc, ?Tr, ?Tc in *; cbn [bind];
    [rewrite R5
    |rewrite broadcastable_refl, andb_true_r in N5; rewrite N5; now right].
  rewrite broadcast_size_refl in *.
  left. split; [reflexivity|]. eexists. split; [reflexivity|].
  cbn [nrows ncols msigmoid map_matrix tabulate]. now split.
Qed.

(** X7. [fixSubLSTMCell.forward] on a constructed cell, whatever the
    tensors of the caller: it returns exactly when the widths of input and
    hidden state are [input_size] and [hidden_size], their batch sizes
    broadcast, and the cell state broadcasts against [hidden_size] and
    against the batch; the result then is [(hy, (hy, cy))] with both tensors
    of the broadcast sizes.  Every other call ends in the engine's
    [RuntimeError]. *)
Theorem fixSubLSTMCell_forward_accepts (F : Type) (E : Engine F)
  (self : fixSubLSTMCell.cell F) (input hx cx : Matrix F) :
  fixSubLSTMCell.initialized self ->
  accepted (fixSubLSTMCell_accepts self input hx cx)
    (fixSubLSTMCell_result_rows input hx cx)
    (fixSubLSTMCell_result_cols self cx)
    (fixSubLSTMCell.forward self input (hx, cx)).
Proof.
  intros Hinit.
  unfold fixSubLSTMCell_accepts, fixSubLSTMCell_result_rows,
    fixSubLSTMCell_result_cols, fixSubLSTMCell.forward.
  destruct (@fixSubLSTMCell_gates_sizes F E self input hx Hinit)
    as [(Hok & gates & -> & Gr & Gc) | (Hok & ->)]; cbn [bind].
  - rewrite Hok. cbn [andb].
    apply (@tail3_sizes F E gates cx _ _ _ Gr Gc). apply Hinit.
  - rewrite Hok. cbn [andb accepted]. now split.
Qed.

Lemma fixSubLSTMCell_forward_accepts_witness :
  accepted
    (fixSubLSTMCell_accepts Example.fixedforget Example.input Example.hx
       Example.cx)
    (fixSubLSTMCell_result_rows Example.input Example.hx Example.cx)
    (fixSubLSTMCell_result_cols Example.fixedforget Example.cx)
    (fixSubLSTMCell.forward Example.fixedforget Example.input
       (Example.hx, Example.cx)).
Proof.
  apply (@fixSubLSTMCell_forward_accepts R R_engine Example.fixedforget
           Example.input Example.hx Example.cx); shape.
Defined.

(** X8. [LayerNormFixSubLSTMCell.forward] on a constructed cell, whatever
    the tensors of the caller: it returns exactly when the sizes are
    accepted as in [fixSubLSTMCell.forward] and, moreover, the cell state
    combined with the forget vector has [hidden_size] columns, which
    [layernorm_c] checks; the result then is [(hy, (hy, cy))] with
    [hidden_size] columns.  Every other call ends in the engine's
    [RuntimeError]. *)
Theorem LayerNormFixSubLSTMCell_forward_accepts (F : Type) (E : Engine F)
  (self : LayerNormFixSubLSTMCell.cell F) (input hx cx : Matrix F) :
  LayerNormFixSubLSTMCell.initialized self ->
  accepted (LayerNormFixSubLSTMCell_accepts self input hx cx)
    (fixSubLSTMCell_result_rows input hx cx)
    (LayerNormFixSubLSTMCell.hidden_size self)
    (LayerNormFixSubLSTMCell.forward self input (hx, cx)).
Proof.
  intros Hinit.
  unfold LayerNormFixSubLSTMCell_accepts, fixSubLSTMCell_result_rows,
    LayerNormFixSubLSTMCell.forward.
  destruct (@LayerNormFixSubLSTMCell_gates_sizes F E self input hx Hinit)
    as [(Hok & gates & -> & Gr & Gc) | (Hok & ->)]; cbn [bind].
  - rewrite Hok. cbn [andb].
    apply (@tail3_norm_sizes F E gates cx _ _ _ _ Gr Gc); apply Hinit.
  - rewrite Hok. cbn [andb accepted]. now split.
Qed.

Lemma LayerNormFixSubLSTMCell_forward_accepts_witness :
  accepted
    (LayerNormFixSubLSTMCell_accepts Sample.normalizedfixed Example.input
       Example.hx Example.cx)
    (fixSubLSTMCell_result_rows Example.input Example.hx Example.cx)
    (LayerNormFixSubLSTMCell.hidden_size Sample.normalizedfixed)
    (LayerNormFixSubLSTMCell.forward Sample.normalizedfixed Example.input
       (Example.hx, Example.cx)).
Proof.
  apply (@LayerNormFixSubLSTMCell_forward_accepts R R_engine
           Sample.normalizedfixed Example.input Example.hx Example.cx).
  exact sample_normalizedfixed_initialized.
Defined.

(** X9. [LayerNormSubLSTMCell.forward] on a constructed cell, whatever the
    tensors of the caller, ends in a failure, and the sizes decide which:
    the [TypeError] of its [return] statement when every operation before
    it accepts the sizes, the engine's [RuntimeError] otherwise. *)
Theorem LayerNormSubLSTMCell_forward_failure (F : Type) (E : Engine F)
  (self : LayerNormSubLSTMCell.cell F) (input hx cx : Matrix F) :
  LayerNormSubLSTMCell.initialized self ->
  LayerNormSubLSTMCell.forward self input (hx, cx) =
  Err (if LayerNormSubLSTMCell_accepts self input hx cx
       then TypeError else RuntimeError).
Proof.
  intros Hinit.
  unfold LayerNormSubLSTMCell_accepts, LayerNormSubLSTMCell.forward,
    LayerNormSubLSTMCell.locals.
  destruct (@LayerNormSubLSTMCell_gates_sizes F E self input hx Hinit)
    as [(Hok & gates & -> & Gr & Gc) | (Hok & ->)]; cbn [bind].
  - rewrite Hok. cbn [andb].
    destruct (@tail4_norm_sizes F E gates cx
                (LayerNormSubLSTMCell.layernorm_c self) _ _ Gr Gc)
      as [(Htail & hy & cy & ->) | (Htail & ->)].
    + apply Hinit.
    + now rewrite Htail.
    + now rewrite Htail.
  - now rewrite Hok.
Qed.

Lemma LayerNormSubLSTMCell_forward_failure_witness :
  LayerNormSubLSTMCell.forward Example.normalized (Zeros.zeros 2 5)
    (Example.hx, Example.cx) =
  Err (if LayerNormSubLSTMCell_accepts Example.normalized (Zeros.zeros 2 5)
            Example.hx Example.cx
       then TypeError else RuntimeError).
Proof.
  apply (@LayerNormSubLSTMCell_forward_failure R R_engine Example.normalized
           (Zeros.zeros 2 5) Example.hx Example.cx).
  unfold LayerNormSubLSTMCell.initialized, Example.normalized.
  cbn [LayerNormSubLSTMCell.weight_ih LayerNormSubLSTMCell.weight_hh
       LayerNormSubLSTMCell.hidden_size LayerNormSubLSTMCell.input_size
       LayerNormSubLSTMCell.layernorm_i LayerNormSubLSTMCell.layernorm_h
       LayerNormSubLSTMCell.layernorm_c].
  split; [shape|]. split; [shape|].
  split; [|split]; apply layernorm_initialized.
Defined.

(** ** The tensors a call returns *)

Section Allocation.
Context {F : Type} {E : Engine F}.

Lemma run_bind_Ok (A B : Type) (m : Run F A) (k : A -> Run F B)
  (s s' : Store F) (b : B) :
  run_bind m k s = (s', Ok b) ->
  exists a s1, m s = (s1, Ok a) /\ k a s1 = (s', Ok b).
Proof.
  unfold run_bind. destruct (m s) as [s1 [a|e]]; [|discriminate].
  intros Hk. now exists a, s1.
Qed.

Lemma lift_Ok (A : Type) (r : result A) (s s' : Store F) (a : A) :
  lift r s = (s', Ok a) -> s' = s /\ r = Ok a.
Proof. unfold lift. intros [= -> ->]. now split. Qed.

Lemma read_matrix_Ok (r : nat) (s s' : Store F) (m : Matrix F) :
  read_matrix r s = (s', Ok m) -> s' = s.
Proof. unfold read_matrix. now intros [= -> _]. Qed.

Lemma read_vector_Ok (r : nat) (s s' : Store F) (v : Vector F) :
  read_vector r s = (s', Ok v) -> s' = s.
Proof. unfold read_vector. now intros [= -> _]. Qed.

Lemma alloc_Ok (o : Obj F) (s s' : Store F) (r : nat) :
  alloc o s = (s', Ok r) -> r = length s /\ length s' = S (length s).
Proof.
  unfold alloc. intros [= <- <-]. rewrite length_app. cbn. lia.
Qed.

End Allocation.

(** Takes a successful run of a sequence of statements apart. *)
Ltac invert_run H :=
  let a := fresh "r" in
  let s1 := fresh "s" in
  let Hm := fresh "Hm" in
  apply run_bind_Ok in H; destruct H as (a & s1 & Hm & H); cbv beta in H.

(** A run that is reads, one operation and one allocation. *)
Ltac one_alloc H :=
  repeat (invert_run H);
  repeat match goal with
  | Hr : read_matrix _ _ = (_, Ok _) |- _ => apply read_matrix_Ok in Hr; subst
  | Hr : read_vector _ _ = (_, Ok _) |- _ => apply read_vector_Ok in Hr; subst
  | Hl : lift _ _ = (_, Ok _) |- _ =>
      apply lift_Ok in Hl; destruct Hl as [-> _]
  end;
  now apply alloc_Ok in H.

Section AllocationOps.
Context {F : Type} {E : Engine F}.

Lemma unary_st_allocates (f : Matrix F -> Matrix F) (a : nat) :
  allocates_one (unary_st f a).
Proof. intros s s' r H. unfold unary_st in H. one_alloc H. Qed.

Lemma binary_st_allocates (f : Matrix F -> Matrix F -> result (Matrix F))
  (a b : nat) :
  allocates_one (binary_st f a b).
Proof. intros s s' r H. unfold binary_st in H. one_alloc H. Qed.

Lemma madd_v_st_allocates (a v : nat) : allocates_one (madd_v_st a v).
Proof. intros s s' r H. unfold madd_v_st in H. one_alloc H. Qed.

Lemma vmul_m_st_allocates (v a : nat) : allocates_one (vmul_m_st v a).
Proof. intros s s' r H. unfold vmul_m_st in H. one_alloc H. Qed.

Lemma vsigmoid_st_allocates (v : nat) : allocates_one (vsigmoid_st v).
Proof. intros s s' r H. unfold vsigmoid_st in H. one_alloc H. Qed.

Lemma LayerNorm_forward_st_allocates (ln : LayerNormObj F) (x : nat) :
  allocates_one (LayerNorm_forward_st ln x).
Proof. intros s s' r H. unfold LayerNorm_forward_st in H. one_alloc H. Qed.

Lemma alloc_all_grows (os : list (Obj F)) (s s' : Store F) (rs : list nat) :
  alloc_all os s = (s', Ok rs) -> length s <= length s'.
Proof.
  revert s s' rs. induction os as [|o os IH]; intros s s' rs H;
    cbn [alloc_all] in H.
  - unfold run_ret in H. injection H as <- _. lia.
  - invert_run H. invert_run H. unfold run_ret in H. injection H as <- _.
    apply alloc_Ok in Hm. apply IH in Hm0. lia.
Qed.

Lemma chunk_st_grows (a chunks : nat) (s s' : Store F) (rs : list nat) :
  chunk_st a chunks s = (s', Ok rs) -> length s <= length s'.
Proof.
  intros H. unfold chunk_st in H. invert_run H.
  apply read_matrix_Ok in Hm. subst. now apply alloc_all_grows in H.
Qed.

End AllocationOps.

(** Takes a successful run of a whole body apart, statement by statement,
    and records what each statement allocates. *)
Ltac invert_body H :=
  repeat first
    [ invert_run H
    | match type of H with
      | context [match ?r with pair _ _ => _ end] => is_var r; destruct r
      end; cbv beta iota in H ];
  unfold t_st, msigmoid_st, mtanh_st, mm_st, madd_st, msub_st, mmul_st in *;
  repeat match goal with
  | Hm : unary_st _ _ _ = (_, Ok _) |- _ => apply unary_st_allocates in Hm
  | Hm : binary_st _ _ _ _ = (_, Ok _) |- _ => apply binary_st_allocates in Hm
  | Hm : madd_v_st _ _ _ = (_, Ok _) |- _ => apply madd_v_st_allocates in Hm
  | Hm : vmul_m_st _ _ _ = (_, Ok _) |- _ => apply vmul_m_st_allocates in Hm
  | Hm : vsigmoid_st _ _ = (_, Ok _) |- _ => apply vsigmoid_st_allocates in Hm
  | Hm : LayerNorm_forward_st _ _ _ = (_, Ok _) |- _ =>
      apply LayerNorm_forward_st_allocates in Hm
  | Hm : chunk_st _ _ _ = (_, Ok _) |- _ => apply chunk_st_grows in Hm
  | Hm : lift _ _ = (_, Ok _) |- _ => apply lift_Ok in Hm; destruct Hm as [-> _]
  | Hm : read_matrix _ _ = (_, Ok _) |- _ => apply read_matrix_Ok in Hm; subst
  | Hm : read_vector _ _ = (_, Ok _) |- _ => apply read_vector_Ok in Hm; subst
  | Hm : alloc _ _ = (_, Ok _) |- _ => apply alloc_Ok in Hm
  | Hm : run_ret _ _ = (_, Ok _) |- _ =>
      unfold run_ret in Hm; injection Hm as -> Hm
  end.

Section Fresh.
Context {F : Type} {E : Engine F}.

Lemma SubLSTMCell_gates_st_grows o (x hxr : nat) (s s' : Store F) (g : nat) :
  SubLSTMCell.gates_st o x hxr s = (s', Ok g) -> length s <= length s'.
Proof.
  intros H. unfold SubLSTMCell.gates_st in H. invert_body H.
  unfold allocates_one in *. lia.
Qed.


Lemma fixSubLSTMCell_gates_st_grows (o : fixSubLSTMCell.stored) (x hxr : nat)
  (s s' : Store F) (g : nat) :
  fixSubLSTMCell.gates_st o x hxr s = (s', Ok g) -> length s <= length s'.
Proof.
  intros H. unfold fixSubLSTMCell.gates_st in H. invert_body H.
  unfold allocates_one in *. lia.
Qed.

Lemma LayerNormFixSubLSTMCell_gates_st_grows (o : LayerNormFixSubLSTMCell.stored F) (x hxr : nat)
  (s s' : Store F) (g : nat) :
  LayerNormFixSubLSTMCell.gates_st o x hxr s = (s', Ok g) -> length s <= length s'.
Proof.
  intros H. unfold LayerNormFixSubLSTMCell.gates_st in H. invert_body H.
  unfold allocates_one in *. lia.
Qed.

Lemma PremulSubLSTMCell_gates_st_grows (o : PremulSubLSTMCell.stored) (x hxr : nat)
  (s s' : Store F) (g : nat) :
  PremulSubLSTMCell.gates_st o x hxr s = (s', Ok g) -> length s <= length s'.
Proof.
  intros H. unfold PremulSubLSTMCell.gates_st in H. invert_body H.
  unfold allocates_one in *. lia.
Qed.

Lemma SubLSTMCell_forward_st_fresh (o : SubLSTMCell.stored) (x : nat)
  (state : nat * nat) (s s' : Store F) (a b c : nat) :
  SubLSTMCell.forward_st o x state s = (s', Ok (a, (b, c))) ->
  b = a /\ a <> c /\
  length s <= a < length s' /\ length s <= c < length s'.
Proof.
  intros H. destruct state as [hxr cxr].
  unfold SubLSTMCell.forward_st in H. invert_body H.
  match goal with
  | Hg : SubLSTMCell.gates_st _ _ _ _ = _ |- _ =>
      apply SubLSTMCell_gates_st_grows in Hg
  end.
  unfold allocates_one in *. lia.
Qed.

Lemma fixSubLSTMCell_forward_st_fresh (o : fixSubLSTMCell.stored) (x : nat)
  (state : nat * nat) (s s' : Store F) (a b c : nat) :
  fixSubLSTMCell.forward_st o x state s = (s', Ok (a, (b, c))) ->
  b = a /\ a <> c /\
  length s <= a < length s' /\ length s <= c < length s'.
Proof.
  intros H. destruct state as [hxr cxr].
  unfold fixSubLSTMCell.forward_st in H. invert_body H.
  match goal with
  | Hg : fixSubLSTMCell.gates_st _ _ _ _ = _ |- _ =>
      apply fixSubLSTMCell_gates_st_grows in Hg
  end.
  unfold allocates_one in *. lia.
Qed.

Lemma LayerNormFixSubLSTMCell_forward_st_fresh (o : LayerNormFixSubLSTMCell.stored F) (x : nat)
  (state : nat * nat) (s s' : Store F) (a b c : nat) :
  LayerNormFixSubLSTMCell.forward_st o x state s = (s', Ok (a, (b, c))) ->
  b = a /\ a <> c /\
  length s <= a < length s' /\ length s <= c < length s'.
Proof.
  intros H. destruct state as [hxr cxr].
  unfold LayerNormFixSubLSTMCell.forward_st in H. invert_body H.
  match goal with
  | Hg : LayerNormFixSubLSTMCell.gates_st _ _ _ _ = _ |- _ =>
      apply LayerNormFixSubLSTMCell_gates_st_grows in Hg
  end.
  unfold allocates_one in *. lia.
Qed.

Lemma PremulSubLSTMCell_forward_st_fresh (o : PremulSubLSTMCell.stored) (x : nat)
  (state : nat * nat) (s s' : Store F) (a b c : nat) :
  PremulSubLSTMCell.forward_st o x state s = (s', Ok (a, (b, c))) ->
  b = a /\ a <> c /\
  length s <= a < length s' /\ length s <= c < length s'.
Proof.
  intros H. destruct state as [hxr cxr].
  unfold PremulSubLSTMCell.forward_st in H. invert_body H.
  match goal with
  | Hg : PremulSubLSTMCell.gates_st _ _ _ _ = _ |- _ =>
      apply PremulSubLSTMCell_gates_st_grows in Hg
  end.
  unfold allocates_one in *. lia.
Qed.

End Fresh.

(** X10. For each of the four cells that return, in the store-passing
    reading of [return hy, (hy, cy)]: the reference returned as the output
    and the reference in the hidden slot of the state are the same tensor,
    not two copies; [hy] and [cy] are two different tensors; and both are
    allocated by the call, so that neither is a parameter of the cell, the
    input, or a tensor of the state the caller passed. *)
Theorem forward_st_returns_fresh (F : Type) (E : Engine F) (V : Variant F)
  (o : v_stored V) (x : nat) (state : nat * nat) (s s' : Store F)
  (a b c : nat) :
  In V returning_variants ->
  v_forward_st V o x state s = (s', Ok (a, (b, c))) ->
  b = a /\ a <> c /\
  length s <= a < length s' /\ length s <= c < length s'.
Proof.
  intros HV. unfold returning_variants in HV. cbn [In] in HV.
  destruct HV as [<-|[<-|[<-|[<-|[]]]]]; cbn.
  - apply SubLSTMCell_forward_st_fresh.
  - apply fixSubLSTMCell_forward_st_fresh.
  - apply LayerNormFixSubLSTMCell_forward_st_fresh.
  - apply PremulSubLSTMCell_forward_st_fresh.
Qed.

Lemma forward_st_returns_fresh_witness :
  exists s' a b c,
    v_forward_st SubLSTMCell_variant Example.basic_stored 4 (5, 6)
      Example.store = (s', Ok (a, (b, c))) /\
    (b = a /\ a <> c /\
     length Example.store <= a < length s' /\
     length Example.store <= c < length s').
Proof.
  assert (Hshape : has_shape Example.input 2 2 /\ has_shape Example.hx 2 1 /\
                   has_shape Example.cx 2 1) by shape.
  destruct Hshape as (Hinput & Hhx & Hcx).
  assert (Hinit : SubLSTMCell.initialized Example.basic) by shape.
  assert (Hholds : SubLSTMCell.holds Example.store Example.basic_stored
                     Example.basic) by (repeat split).
  destruct (@SubLSTMCell_forward_st_computes R R_engine Example.basic
              Example.basic_stored Example.store 4 5 6
              Example.input Example.hx Example.cx Hholds
              eq_refl eq_refl eq_refl) as (s' & _ & Hrun).
  rewrite (SubLSTMCell_forward_table Hinit Hinput Hhx Hcx) in Hrun.
  destruct Hrun as ([a [b c]] & Hrun & _).
  exists s', a, b, c. split; [exact Hrun|].
  refine (@forward_st_returns_fresh R R_engine SubLSTMCell_variant
            Example.basic_stored 4 (5, 6) Example.store s' a b c _ Hrun).
  left. reflexivity.
Defined.

(** ** Construction *)

Section ConstructionFacts.
Context {F G : Type} {E : Engine F} {Rng : Sampler F G}.

Lemma randn_vector_length (n : nat) (g : G) :
  length (fst (randn_vector n g)) = n.
Proof.
  revert g. induction n as [|n IH]; intros g; cbn; [reflexivity|].
  destruct (draw g) as [x g1]. specialize (IH g1).
  destruct (randn_vector n g1) as [xs g2]. cbn in *. now rewrite IH.
Qed.

Lemma randn_rows_shape (r c : nat) (g : G) :
  length (fst (randn_rows r c g)) = r /\
  Forall (fun row => length row = c) (fst (randn_rows r c g)).
Proof.
  revert g. induction r as [|r IH]; intros g; cbn [randn_rows].
  - cbn. split; [reflexivity|constructor].
  - pose proof (randn_vector_length c g) as Hlen.
    destruct (randn_vector c g) as [row g1]. cbn in Hlen.
    specialize (IH g1).
    destruct (randn_rows r c g1) as [rows g2]. cbn in *.
    destruct IH as (Hr & Hall).
    split; [now rewrite Hr|now constructor].
Qed.

Lemma randn_shape (r c : nat) (g : G) : has_shape (fst (randn r c g)) r c.
Proof.
  unfold randn. pose proof (randn_rows_shape r c g) as (Hr & Hall).
  destruct (randn_rows r c g) as [rows g']. cbn in *.
  unfold has_shape. cbn. auto.
Qed.

Lemma LayerNorm_init_initialized (n : nat) :
  LayerNorm_initialized (LayerNorm_init n) n.
Proof.
  unfold LayerNorm_initialized, LayerNorm_init. cbn.
  now rewrite !repeat_length.
Qed.

End ConstructionFacts.

(** Runs one allocation of a constructor and records its shape. *)
Ltac constructed :=
  repeat match goal with
  | |- context [randn ?r ?c ?g] =>
      let Hs := fresh "Hshape" in
      let m := fresh "m" in
      let g' := fresh "g" in
      pose proof (randn_shape r c g) as Hs;
      destruct (randn r c g) as [m g']; cbn [fst] in Hs
  | |- context [randn_vector ?n ?g] =>
      let Hs := fresh "Hlength" in
      let v := fresh "v" in
      let g' := fresh "g" in
      pose proof (randn_vector_length n g) as Hs;
      destruct (randn_vector n g) as [v g']; cbn [fst] in Hs
  end.

(** What each constructor allocates and records. *)
Lemma constructed_initialized (F G : Type) (E : Engine F) (Rng : Sampler F G)
  (I H : nat) (g : G) :
  (SubLSTMCell.initialized (fst (SubLSTMCell_init I H g)) /\
   SubLSTMCell.input_size (fst (SubLSTMCell_init I H g)) = I /\
   SubLSTMCell.hidden_size (fst (SubLSTMCell_init I H g)) = H) /\
  (LayerNormSubLSTMCell.initialized (fst (LayerNormSubLSTMCell_init I H g)) /\
   LayerNormSubLSTMCell.input_size (fst (LayerNormSubLSTMCell_init I H g)) = I /\
   LayerNormSubLSTMCell.hidden_size (fst (LayerNormSubLSTMCell_init I H g)) = H) /\
  (fixSubLSTMCell.initialized (fst (fixSubLSTMCell_init I H g)) /\
   fixSubLSTMCell.input_size (fst (fixSubLSTMCell_init I H g)) = I /\
   fixSubLSTMCell.hidden_size (fst (fixSubLSTMCell_init I H g)) = H) /\
  (LayerNormFixSubLSTMCell.initialized
     (fst (LayerNormFixSubLSTMCell_init I H g)) /\
   LayerNormFixSubLSTMCell.input_size
     (fst (LayerNormFixSubLSTMCell_init I H g)) = I /\
   LayerNormFixSubLSTMCell.hidden_size
     (fst (LayerNormFixSubLSTMCell_init I H g)) = H) /\
  (PremulSubLSTMCell.initialized (fst (PremulSubLSTMCell_init I H g)) /\
   PremulSubLSTMCell.input_size (fst (PremulSubLSTMCell_init I H g)) = I /\
   PremulSubLSTMCell.hidden_size (fst (PremulSubLSTMCell_init I H g)) = H).
Proof.
  split; [|split; [|split; [|split]]].
  - unfold SubLSTMCell_init. constructed. cbn.
    unfold SubLSTMCell.initialized. cbn. auto.
  - unfold LayerNormSubLSTMCell_init. constructed. cbn.
    unfold LayerNormSubLSTMCell.initialized. cbn.
    repeat (split; try assumption; try apply LayerNorm_init_initialized).
  - unfold fixSubLSTMCell_init. constructed. cbn.
    unfold fixSubLSTMCell.initialized. cbn. auto 10.
  - unfold LayerNormFixSubLSTMCell_init. constructed. cbn.
    unfold LayerNormFixSubLSTMCell.initialized. cbn.
    repeat (split; try assumption; try apply LayerNorm_init_initialized).
  - unfold PremulSubLSTMCell_init. constructed. cbn.
    unfold PremulSubLSTMCell.initialized. cbn. auto.
Qed.

(** X11. Whatever the sizes and the state of the generator, each of the
    five constructors records [input_size] and [hidden_size] and allocates
    parameters of the shapes its [forward] reads: [4H] (or [3H]) rows by [I]
    and by [H] columns for the weights, [4H] (or [3H]) entries for the
    biases, [H] entries for the forget vector, and LayerNorm modules over
    [4H] (or [3H]) and [H] features. *)
Theorem constructors_initialize (F G : Type) (E : Engine F) (Rng : Sampler F G)
  (I H : nat) (g : G) :
  (SubLSTMCell.initialized (fst (SubLSTMCell_init I H g)) /\
   SubLSTMCell.input_size (fst (SubLSTMCell_init I H g)) = I /\
   SubLSTMCell.hidden_size (fst (SubLSTMCell_init I H g)) = H) /\
  (LayerNormSubLSTMCell.initialized (fst (LayerNormSubLSTMCell_init I H g)) /\
   LayerNormSubLSTMCell.input_size (fst (LayerNormSubLSTMCell_init I H g)) = I /\
   LayerNormSubLSTMCell.hidden_size (fst (LayerNormSubLSTMCell_init I H g)) = H) /\
  (fixSubLSTMCell.initialized (fst (fixSubLSTMCell_init I H g)) /\
   fixSubLSTMCell.input_size (fst (fixSubLSTMCell_init I H g)) = I /\
   fixSubLSTMCell.hidden_size (fst (fixSubLSTMCell_init I H g)) = H) /\
  (LayerNormFixSubLSTMCell.initialized
     (fst (LayerNormFixSubLSTMCell_init I H g)) /\
   LayerNormFixSubLSTMCell.input_size
     (fst (LayerNormFixSubLSTMCell_init I H g)) = I /\
   LayerNormFixSubLSTMCell.hidden_size
     (fst (LayerNormFixSubLSTMCell_init I H g)) = H) /\
  (PremulSubLSTMCell.initialized (fst (PremulSubLSTMCell_init I H g)) /\
   PremulSubLSTMCell.input_size (fst (PremulSubLSTMCell_init I H g)) = I /\
   PremulSubLSTMCell.hidden_size (fst (PremulSubLSTMCell_init I H g)) = H).
Proof. apply constructed_initialized. Qed.

(** X13. A cell as constructed, called on tensors of the shapes the
    constructor was given: [SubLSTMCell], [fixSubLSTMCell],
    [LayerNormFixSubLSTMCell] and [PremulSubLSTMCell] return
    [(hy, (hy, cy))] with [hy] and [cy] of shape [B, H], whatever the sizes
    and the samples drawn; [LayerNormSubLSTMCell] ends in the [TypeError] of
    its [return] statement. *)
Theorem constructed_cells_run (F G : Type) (E : Engine F) (Rng : Sampler F G)
  (I H B : nat) (g : G) (input premul_input hx cx : Matrix F) :
  has_shape input B I ->
  has_shape premul_input B (4 * H) ->
  has_shape hx B H ->
  has_shape cx B H ->
  (exists hy cy,
     SubLSTMCell.forward (fst (SubLSTMCell_init I H g)) input (hx, cx) =
       Ok (hy, (hy, cy)) /\ has_shape hy B H /\ has_shape cy B H) /\
  (exists hy cy,
     fixSubLSTMCell.forward (fst (fixSubLSTMCell_init I H g)) input (hx, cx) =
       Ok (hy, (hy, cy)) /\ has_shape hy B H /\ has_shape cy B H) /\
  (exists hy cy,
     LayerNormFixSubLSTMCell.forward
       (fst (LayerNormFixSubLSTMCell_init I H g)) input (hx, cx) =
       Ok (hy, (hy, cy)) /\ has_shape hy B H /\ has_shape cy B H) /\
  (exists hy cy,
     PremulSubLSTMCell.forward (fst (PremulSubLSTMCell_init I H g))
       premul_input (hx, cx) =
       Ok (hy, (hy, cy)) /\ has_shape hy B H /\ has_shape cy B H) /\
  LayerNormSubLSTMCell.forward (fst (LayerNormSubLSTMCell_init I H g))
    input (hx, cx) = Err TypeError.
Proof.
  intros Hinput Hpremul Hhx Hcx.
  destruct (constructed_initialized E Rng I H g)
    as ((B1 & BI & BH) & (N1 & NI & NH) & (X1 & XI & XH) & (M1 & MI & MH)
        & (P1 & PI & PH)).
  split; [|split; [|split; [|split]]].
  - destruct (@SubLSTMCell_forward_shape F E input hx cx B
                (fst (SubLSTMCell_init I H g)))
      as (hy & cy & Hf & Sh & Sc); rewrite ?BI, ?BH in *; try assumption.
    now exists hy, cy.
  - destruct (@fixSubLSTMCell_forward_shape F E input hx cx B
                (fst (fixSubLSTMCell_init I H g)))
      as (hy & cy & Hf & Sh & Sc); rewrite ?XI, ?XH in *; try assumption.
    now exists hy, cy.
  - destruct (@LayerNormFixSubLSTMCell_forward_shape F E input hx cx B
                (fst (LayerNormFixSubLSTMCell_init I H g)))
      as (hy & cy & Hf & Sh & Sc); rewrite ?MI, ?MH in *; try assumption.
    now exists hy, cy.
  - destruct (@PremulSubLSTMCell_forward_shape F E hx cx B
                (fst (PremulSubLSTMCell_init I H g)) premul_input)
      as (hy & cy & Hf & Sh & Sc); rewrite ?PI, ?PH in *; try assumption.
    now exists hy, cy.
  - apply (@LayerNormSubLSTMCell_forward_raises F E _ input hx cx B);
      rewrite ?NI, ?NH; assumption.
Qed.

Lemma constructed_cells_run_witness :
  (exists hy cy,
     SubLSTMCell.forward (fst (SubLSTMCell_init 30 100 0%nat)) Scenario.input
       (Scenario.hx, Scenario.cx) =
       Ok (hy, (hy, cy)) /\ has_shape hy 2 100 /\ has_shape cy 2 100) /\
  (exists hy cy,
     fixSubLSTMCell.forward (fst (fixSubLSTMCell_init 30 100 0%nat))
       Scenario.input (Scenario.hx, Scenario.cx) =
       Ok (hy, (hy, cy)) /\ has_shape hy 2 100 /\ has_shape cy 2 100) /\
  (exists hy cy,
     LayerNormFixSubLSTMCell.forward
       (fst (LayerNormFixSubLSTMCell_init 30 100 0%nat)) Scenario.input
       (Scenario.hx, Scenario.cx) =
       Ok (hy, (hy, cy)) /\ has_shape hy 2 100 /\ has_shape cy 2 100) /\
  (exists hy cy,
     PremulSubLSTMCell.forward (fst (PremulSubLSTMCell_init 30 100 0%nat))
       (Zeros.zeros 2 (4 * 100)) (Scenario.hx, Scenario.cx) =
       Ok (hy, (hy, cy)) /\ has_shape hy 2 100 /\ has_shape cy 2 100) /\
  LayerNormSubLSTMCell.forward (fst (LayerNormSubLSTMCell_init 30 100 0%nat))
    Scenario.input (Scenario.hx, Scenario.cx) = Err TypeError.
Proof.
  apply (@constructed_cells_run R nat R_engine counting_sampler 30 100 2 0%nat
           Scenario.input (Zeros.zeros 2 (4 * 100)) Scenario.hx Scenario.cx);
    apply tabulate_has_shape.
Defined.


(** ** The growth of the cell state *)

(** X14. With every operation of the engine rounded to its floating-point
    format, for [SubLSTMCell], [fixSubLSTMCell] and [PremulSubLSTMCell] on
    tensors of the shapes of the contract whose previous cell state holds
    numbers of the format: no entry of the new cell state exceeds in
    magnitude the entry of the previous one plus one, the sum rounded as
    the engine rounds it, since the forget factor lies between 0 and 1 and
    [cellgate - ingate] between -1 and 1. *)
Theorem cell_state_grows_by_at_most_one (rnd : R -> R)
  (K : Contract R) (self : c_cell K) (input hx cx : Matrix R) (B : nat) :
  Rounding rnd ->
  In K (biased_contracts (E := rounded_engine rnd)) ->
  c_initialized K self ->
  has_shape input B (c_input_width K self) ->
  has_shape hx B (c_hidden_size K self) ->
  has_shape cx B (c_hidden_size K self) ->
  representable rnd cx ->
  exists hy cy,
    c_forward K self input (hx, cx) = Ok (hy, (hy, cy)) /\
    grows_by_at_most_one (E := rounded_engine rnd) cy cx.
Proof.
  intros Hrnd HK. unfold biased_contracts in HK. cbn [In] in HK.
  destruct HK as [<-|[<-|[<-|[]]]]; cbn; intros Hinit Hinput Hhx Hcx Hrep;
    eexists; eexists.
  - split; [exact (SubLSTMCell_forward_table Hinit Hinput Hhx Hcx)|].
    apply grows_tabulate. intros b j Hb Hj.
    apply (rnd_growth Hrnd); try apply (rnd_sigmoid Hrnd).
    now apply (representable_get (B := B) (H := SubLSTMCell.hidden_size self)).
  - split; [exact (fixSubLSTMCell_forward_table Hinit Hinput Hhx Hcx)|].
    apply grows_tabulate. intros b j Hb Hj.
    apply (rnd_growth Hrnd); try apply (rnd_sigmoid Hrnd).
    now apply (representable_get (B := B)
                 (H := fixSubLSTMCell.hidden_size self)).
  - split; [exact (PremulSubLSTMCell_forward_table Hinit Hinput Hhx Hcx)|].
    apply grows_tabulate. intros b j Hb Hj.
    apply (rnd_growth Hrnd); try apply (rnd_sigmoid Hrnd).
    now apply (representable_get (B := B)
                 (H := PremulSubLSTMCell.hidden_size self)).
Qed.

Lemma cell_state_grows_by_at_most_one_witness :
  exists hy cy,
    c_forward (fixSubLSTMCell_contract (E := rounded_engine single))
      Example.fixedforget Example.input (Example.hx, Example.cx) =
      Ok (hy, (hy, cy)) /\
    grows_by_at_most_one (E := rounded_engine single) cy Example.cx.
Proof.
  refine (@cell_state_grows_by_at_most_one single
            (fixSubLSTMCell_contract (E := rounded_engine single))
            Example.fixedforget Example.input Example.hx Example.cx 2
            single_Rounding _ _ _ _ _ _).
  - right. left. reflexivity.
  - shape.
  - shape.
  - shape.
  - shape.
  - exact (example_cx_representable single_Rounding).
Defined.
